(** * Password-cracking core of the "hackersmind" iterations

    A shallow embedding of the archive-cracking classes of
    [7-hackersmind/iteration1.py] ([BasicPasswordCracker]) and
    [7-hackersmind/iteration2.py] ([MultiLayerZipCracker]) and of the
    module-level functions of [iteration1.py] that use them (the
    strength analyzer, the sample archives and the interactive
    session), together with the properties of their candidate
    generators, attempt loops, hint scanners and layer traversal.

    Conventions of the embedding:
    - a Python [str] is a [string]; characters are taken in the ASCII
      range, where [str.upper], [str.lower], [\d] and [\s] have the
      meaning written out in [PyStr] and [Re];
    - the [zipfile] library is an oracle: an archive answers an
      [extractall] call with the entries it wrote and the exception it
      raised, if any;
    - [print] calls are kept as a log of events, in program order;
    - [input()] reads the next of a list of typed lines;
    - archives nest finitely: an archive is not contained in itself;
    - wall-clock time ([time.time()]) is not modelled. *)

From Stdlib Require Import List String Ascii Arith Bool Lia ZArith Sorted.
Import ListNotations.
Open Scope string_scope.

(** ** Python string operations *)

Module PyStr.

Definition code (c : ascii) : nat := nat_of_ascii c.

Definition between (lo hi : nat) (c : ascii) : bool :=
  Nat.leb lo (code c) && Nat.leb (code c) hi.

Definition is_digit (c : ascii) : bool := between 48 57 c.
Definition is_upper (c : ascii) : bool := between 65 90 c.
Definition is_lower (c : ascii) : bool := between 97 122 c.

Definition upper_char (c : ascii) : ascii :=
  if is_lower c then ascii_of_nat (code c - 32) else c.
Definition lower_char (c : ascii) : ascii :=
  if is_upper c then ascii_of_nat (code c + 32) else c.

Fixpoint map (f : ascii -> ascii) (s : string) : string :=
  match s with
  | EmptyString => EmptyString
  | String c s' => String (f c) (map f s')
  end.

(** [s.upper()] and [s.lower()] *)
Definition upper (s : string) : string := map upper_char s.
Definition lower (s : string) : string := map lower_char s.

(** [s.capitalize()]: first character upper-cased, the rest lower-cased *)
Definition capitalize (s : string) : string :=
  match s with
  | EmptyString => EmptyString
  | String c s' => String (upper_char c) (lower s')
  end.

(** [s.replace(old, new)] for one-character [old] and [new]: every
    occurrence is replaced *)
Definition replace (old new : ascii) (s : string) : string :=
  map (fun c => if Ascii.eqb c old then new else c) s.

(** [s[::-1]] *)
Definition reversed (s : string) : string :=
  string_of_list_ascii (rev (list_ascii_of_string s)).

(** [''.join(combo)] for a tuple of one-character strings *)
Definition join (combo : list ascii) : string := string_of_list_ascii combo.

(** [s[:n]] and [s[n:]] for [n >= 0] *)
Fixpoint take (n : nat) (s : string) : string :=
  match n, s with
  | S n', String c s' => String c (take n' s')
  | _, _ => EmptyString
  end.

Fixpoint drop (n : nat) (s : string) : string :=
  match n, s with
  | S n', String _ s' => drop n' s'
  | _, _ => s
  end.

(** [s[i:j]] for [0 <= i <= j] *)
Definition slice (i j : nat) (s : string) : string := take (j - i) (drop i s).

(** [s.startswith(p)] *)
Fixpoint startswith (p s : string) : bool :=
  match p, s with
  | EmptyString, _ => true
  | String a p', String b s' => Ascii.eqb a b && startswith p' s'
  | String _ _, EmptyString => false
  end.

(** [s.find(sub)]: lowest index where [sub] occurs; [None] stands for
    Python's [-1] *)
Fixpoint find (sub s : string) : option nat :=
  if startswith sub s then Some 0
  else match s with
       | EmptyString => None
       | String _ s' => option_map S (find sub s')
       end.

(** [sub in s] *)
Fixpoint contains (sub s : string) : bool :=
  startswith sub s ||
  match s with
  | EmptyString => false
  | String _ s' => contains sub s'
  end.

(** [string.digits] *)
Definition digits : list ascii := list_ascii_of_string "0123456789".

(** [itertools.product(pool, repeat=n)], as the library documents it:
    [result = [[]]], then for each of the [n] pools
    [result = [x+[y] for x in result for y in pool]]. *)
Definition product_step {A} (result : list (list A)) (pool : list A)
  : list (list A) :=
  flat_map (fun x => List.map (fun y => (x ++ [y])%list) pool) result.

Definition product {A} (pool : list A) (n : nat) : list (list A) :=
  fold_left product_step (repeat pool n) [[]].

(** [range(lo, hi)] *)
Definition range (lo hi : Z) : list Z :=
  List.map (fun i => (lo + Z.of_nat i)%Z) (seq 0 (Z.to_nat (hi - lo))).

(** [str.isspace] of one character *)
Definition is_space (c : ascii) : bool := between 9 13 c || between 28 32 c.

(** [s.lstrip()], [s.rstrip()] and [s.strip()] *)
Fixpoint lstrip (s : string) : string :=
  match s with
  | EmptyString => EmptyString
  | String c s' => if is_space c then lstrip s' else s
  end.

Definition rstrip (s : string) : string := reversed (lstrip (reversed s)).

Definition strip (s : string) : string := rstrip (lstrip s).

End PyStr.

(** ** The [zipfile] collaborator *)

Module Zipfile.

(** The exception classes the crackers tell apart. *)
Inductive exn : Type :=
| RuntimeError        (* "Bad password for file" *)
| BadZipFile
| FileNotFoundError
| OtherException.     (* zlib.error, OSError, ... *)

(** A file on disk.  An archive answers [extractall(pwd=...)] with the
    entries it wrote to the destination, in the order written, and the
    exception that ended the call, if any. *)
Inductive content : Type :=
| Text (s : string)
| Binary
| Zip (z : archive)
with archive : Type :=
| Archive (filelist : nat)
          (extractall : string -> list (string * content) * option exn).

Definition entry : Type := string * content.

Definition filelist (z : archive) : nat :=
  match z with Archive n _ => n end.

Definition extractall (z : archive) (pwd : string)
  : list entry * option exn :=
  match z with Archive _ f => f pwd end.

(** What a path handed to a cracker points at. *)
Inductive target : Type :=
| Missing                   (* os.path.exists is False *)
| OpenRaises (e : exn)      (* zipfile.ZipFile(path) raises e *)
| Opens (z : archive).

Definition target_of_content (c : content) : target :=
  match c with
  | Zip z => Opens z
  | _ => OpenRaises BadZipFile
  end.

(** [except (RuntimeError, zipfile.BadZipFile)] *)
Definition wrong_password (e : exn) : bool :=
  match e with
  | RuntimeError | BadZipFile => true
  | _ => false
  end.

(** A concrete archive in the way [ZipFile.extractall] treats one:
    members are extracted in order; an unencrypted member ignores the
    password, an encrypted member whose password differs raises
    [RuntimeError] and ends the call. *)
Record member : Type := Member {
  m_name : string;
  m_data : content;
  m_pwd : option string
}.

Fixpoint extract_members (ms : list member) (pwd : string)
  : list entry * option exn :=
  match ms with
  | [] => ([], None)
  | m :: ms' =>
      match m_pwd m with
      | Some p =>
          if String.eqb p pwd then
            let (w, e) := extract_members ms' pwd in
            ((m_name m, m_data m) :: w, e)
          else ([], Some RuntimeError)
      | None =>
          let (w, e) := extract_members ms' pwd in
          ((m_name m, m_data m) :: w, e)
      end
  end.

Definition archive_of (ms : list member) : archive :=
  Archive (List.length ms) (extract_members ms).

End Zipfile.

(** ** [iteration1.py]: [BasicPasswordCracker] *)

Module Iteration1.
Import Zipfile.

(** [self.common_passwords] *)
Definition common_passwords : list string :=
  [ "password"; "123456"; "password123"; "admin"; "letmein";
    "welcome"; "monkey"; "1234567890"; "qwerty"; "abc123";
    "Password1"; "welcome123"; "admin123"; "root"; "toor";
    "guest"; "test"; "demo"; "user"; "login" ].

(** The reports the class prints. *)
Inductive event : Type :=
| FileNotFound
| ZipLoaded (files : nat)
| Success (password : string) (attempts : nat)
| Failed (password : string) (attempt : nat)
| DictionaryFailed (attempts : nat)
| NotValidZip
| TryingLength (length : nat)
| Tried (attempts : nat)
| BruteForceFailed (attempts : nat).

(** The object's state: [self.attempts], what was printed, and the
    passwords handed to [extractall] so far. *)
Record cracker : Type := Cracker {
  attempts : nat;
  printed : list event;
  tried : list string
}.

Definition fresh : cracker := Cracker 0 [] [].

Definition print (e : event) (self : cracker) : cracker :=
  Cracker (attempts self) (printed self ++ [e])%list (tried self).

Definition reset_attempts (self : cracker) : cracker :=
  Cracker 0 (printed self) (tried self).

(** [self.attempts += 1] followed by [zip_ref.extractall(pwd=...)] *)
Definition attempt (password : string) (self : cracker) : cracker :=
  Cracker (S (attempts self)) (printed self) (tried self ++ [password])%list.

(** A call either returns or lets an exception through. *)
Inductive outcome (A : Type) : Type :=
| Returns (a : A)
| Raises (e : exn).
Arguments Returns {A} a.
Arguments Raises {A} e.

(** The [for password in wordlist] loop of [dictionary_attack]. *)
Fixpoint dictionary_loop (zip_ref : archive) (wordlist : list string)
  (self : cracker) : outcome (option string) * cracker :=
  match wordlist with
  | [] => (Returns None, print (DictionaryFailed (attempts self)) self)
  | password :: rest =>
      let self := attempt password self in
      match snd (extractall zip_ref password) with
      | None =>
          (Returns (Some password),
           print (Success password (attempts self)) self)
      | Some e =>
          if wrong_password e then
            dictionary_loop zip_ref rest
              (print (Failed password (attempts self)) self)
          else (Raises e, self)
      end
  end.

(** [wordlist or self.common_passwords] *)
Definition wordlist_or_common (wordlist : option (list string))
  : list string :=
  match wordlist with
  | Some (w :: ws) => w :: ws
  | Some [] | None => common_passwords
  end.

Definition dictionary_attack (zip_file_path : target)
  (wordlist : option (list string)) (self : cracker)
  : outcome (option string) * cracker :=
  match zip_file_path with
  | Missing => (Returns None, print FileNotFound self)
  | OpenRaises e =>
      let self := reset_attempts self in
      match e with
      | BadZipFile => (Returns None, print NotValidZip self)
      | _ => (Raises e, self)
      end
  | Opens zip_ref =>
      let wordlist := wordlist_or_common wordlist in
      let self := reset_attempts self in
      dictionary_loop zip_ref wordlist
        (print (ZipLoaded (filelist zip_ref)) self)
  end.

(** The [for combo in itertools.product(...)] loop of
    [brute_force_numeric]; [None] when the loop ends without a
    [return]. *)
Fixpoint numeric_inner (zip_ref : archive) (combos : list (list ascii))
  (self : cracker) : option (outcome (option string)) * cracker :=
  match combos with
  | [] => (None, self)
  | combo :: rest =>
      let password := PyStr.join combo in
      let self := attempt password self in
      match snd (extractall zip_ref password) with
      | None =>
          (Some (Returns (Some password)),
           print (Success password (attempts self)) self)
      | Some e =>
          if wrong_password e then
            numeric_inner zip_ref rest
              (if Nat.eqb (attempts self mod 100) 0
               then print (Tried (attempts self)) self else self)
          else (Some (Raises e), self)
      end
  end.

(** The [for length in range(1, max_length + 1)] loop. *)
Fixpoint numeric_outer (zip_ref : archive) (lengths : list Z)
  (self : cracker) : outcome (option string) * cracker :=
  match lengths with
  | [] => (Returns None, print (BruteForceFailed (attempts self)) self)
  | length :: rest =>
      let self := print (TryingLength (Z.to_nat length)) self in
      match numeric_inner zip_ref
              (PyStr.product PyStr.digits (Z.to_nat length)) self with
      | (Some r, self) => (r, self)
      | (None, self) => numeric_outer zip_ref rest self
      end
  end.

Definition brute_force_numeric (zip_file_path : target) (max_length : Z)
  (self : cracker) : outcome (option string) * cracker :=
  match zip_file_path with
  | Missing => (Returns None, print FileNotFound self)
  | OpenRaises e =>
      let self := reset_attempts self in
      match e with
      | BadZipFile => (Returns None, print NotValidZip self)
      | _ => (Raises e, self)
      end
  | Opens zip_ref =>
      numeric_outer zip_ref (PyStr.range 1 (max_length + 1))
        (reset_attempts self)
  end.

(** The passwords [brute_force_numeric] generates, in generation order:
    the two nested [for] loops without the attempt in their body. *)
Definition numeric_candidates (max_length : Z) : list string :=
  flat_map
    (fun length =>
       List.map PyStr.join (PyStr.product PyStr.digits (Z.to_nat length)))
    (PyStr.range 1 (max_length + 1)).

(** The [patterns] list of [pattern_based_attack]. *)
Definition patterns (base_word : string) (variations : bool)
  : list string :=
  List.app [base_word]
   (if variations then
     [ PyStr.upper base_word;
       PyStr.lower base_word;
       PyStr.capitalize base_word;
       base_word ++ "1";
       base_word ++ "123";
       base_word ++ "2023";
       base_word ++ "2024";
       "1" ++ base_word;
       base_word ++ "!";
       base_word ++ "@";
       PyStr.replace "a" "@" base_word;
       PyStr.replace "o" "0" base_word;
       PyStr.replace "e" "3" base_word;
       PyStr.replace "i" "1" base_word;
       PyStr.reversed base_word ]
    else []).

Definition pattern_based_attack (zip_file_path : target)
  (base_word : string) (variations : bool) (self : cracker)
  : outcome (option string) * cracker :=
  dictionary_attack zip_file_path (Some (patterns base_word variations)) self.

(** *** [password_strength_analyzer] *)

(** The verdicts of [analyze_password]. *)
Inductive strength : Type := Strong | Medium | Weak.

(** [any(test(c) for c in password)] *)
Definition any (test : ascii -> bool) (password : string) : bool :=
  existsb test (list_ascii_of_string password).

(** [c in "!@#$%^&*()_+-=[]{}|;:',.<>?"] *)
Definition special (c : ascii) : bool :=
  existsb (Ascii.eqb c)
          (list_ascii_of_string "!@#$%^&*()_+-=[]{}|;:',.<>?").

Definition common_patterns : list string :=
  [ "123"; "abc"; "qwe"; "password"; "admin" ].

(** The body of the [for pattern in common_patterns] loop. *)
Definition penalize (password : string) (acc : Z * list string)
  (pattern : string) : Z * list string :=
  let (score, feedback) := acc in
  if PyStr.contains (PyStr.lower pattern) (PyStr.lower password) then
    ((score - 1)%Z,
     List.app feedback [("Avoid common pattern: " ++ pattern)%string])
  else (score, feedback).

(** One of the four character-variety checks. *)
Definition variety (found : bool) (points : Z) (advice : string)
  (acc : Z * list string) : Z * list string :=
  let (score, feedback) := acc in
  if found then ((score + points)%Z, feedback)
  else (score, (feedback ++ [advice])%list).

(** The nested function [analyze_password]: the score, the verdict and
    the recommendations. *)
Definition analyze_password (password : string)
  : Z * strength * list string :=
  let acc : Z * list string := (0%Z, []) in
  let acc :=
    let (score, feedback) := acc in
    if Nat.leb 8 (String.length password) then ((score + 2)%Z, feedback)
    else if Nat.leb 6 (String.length password) then ((score + 1)%Z, feedback)
    else (score, (feedback ++ ["Too short (minimum 6 characters)"])%list) in
  let acc := variety (any PyStr.is_lower password) 1 "Add lowercase letters" acc in
  let acc := variety (any PyStr.is_upper password) 1 "Add uppercase letters" acc in
  let acc := variety (any PyStr.is_digit password) 1 "Add numbers" acc in
  let acc := variety (any special password) 2 "Add special characters" acc in
  let (score, feedback) := fold_left (penalize password) common_patterns acc in
  let verdict :=
    if (6 <=? score)%Z then Strong
    else if (4 <=? score)%Z then Medium
    else Weak in
  (score, verdict, feedback).

(** [test_passwords] and the loop over them: the rows that
    [password_strength_analyzer] prints. *)
Definition test_passwords : list string :=
  [ "123456"; "password"; "Password1"; "MySecure123!"; "Tr0ub4dor&3";
    "correct horse battery staple" ].

Definition password_strength_analyzer
  : list (string * (Z * strength * list string)) :=
  List.map (fun pwd => (pwd, analyze_password pwd)) test_passwords.

(** *** [create_sample_zip_files] and [analyze_zip_file] *)

Definition easy_content : string :=
  "Congratulations! You cracked the easy password."
  ++ String "010"%char "Hint for next level: Think about common passwords.".

Definition medium_content : string :=
  "Well done! You're getting better."
  ++ String "010"%char "This demonstrates dictionary attacks.".

Definition hard_content : string :=
  "Excellent! You understand patterns."
  ++ String "010"%char "You've completed the basic challenges.".

(** The three archives are written with [zip_ref.write(file, name)] and
    no password: each holds one entry, stored without encryption.  The
    paths returned point at them. *)
Definition create_sample_zip_files : list target :=
  [ Opens (archive_of [Member "secret.txt" (Text easy_content) None]);
    Opens (archive_of [Member "message.txt" (Text medium_content) None]);
    Opens (archive_of [Member "final.txt" (Text hard_content) None]) ].

(** What [analyze_zip_file] reports; of the figures it prints for an
    archive the number of entries is kept. *)
Inductive analysis : Type :=
| FileCount (files : nat)
| InvalidZip                  (* except zipfile.BadZipFile *)
| AnalysisError (e : exn).    (* except Exception *)

Definition analyze_zip_file (zip_path : target) : analysis :=
  match zip_path with
  | Missing => AnalysisError FileNotFoundError
  | OpenRaises BadZipFile => InvalidZip
  | OpenRaises e => AnalysisError e
  | Opens zip_ref => FileCount (filelist zip_ref)
  end.

(** *** [interactive_cracking_session] *)

(** What the session prints, beside the menu and the reports of the
    cracker it creates. *)
Inductive report : Type :=
| Analysis (a : analysis)
| LevelCompleted (level : nat) (password : string)
| Strengths (rows : list (string * (Z * strength * list string)))
| InvalidChoice
| SessionError.               (* except Exception *)

(** [if result: print(f"... Level {level} completed! ...")] *)
Definition completed (level : nat) (result : option string) : list report :=
  match result with
  | Some (String c s) => [LevelCompleted level (String c s)]
  | Some EmptyString | None => []
  end.

(** The end of a level: the attack ran inside the session's [try], so
    an exception it lets through is reported by [except Exception]. *)
Definition finish (level : nat) (shown : list report)
  (attack : outcome (option string) * cracker) : list report * cracker :=
  match fst attack with
  | Returns result => ((shown ++ completed level result)%list, snd attack)
  | Raises _ => ((shown ++ [SessionError])%list, snd attack)
  end.

(** The session reads its answers with [input()], here the lines
    [typed], one per call; a call that finds no line raises [EOFError],
    which [except Exception] reports.  [lookup] is the file system seen
    by choice 4.  In level 3 an answer other than 1, 2 or 3 leaves
    [result] unbound, and [if result:] raises [UnboundLocalError]. *)
Definition interactive_cracking_session (lookup : string -> target)
  (typed : list string) : list report * cracker :=
  let cracker := fresh in
  let sample_files := create_sample_zip_files in
  match typed with
  | [] => ([SessionError], cracker)
  | line :: typed =>
      let choice := PyStr.strip line in
      if String.eqb choice "1" then
        let zip_file := nth 0 sample_files Missing in
        finish 1 [Analysis (analyze_zip_file zip_file)]
               (dictionary_attack zip_file None cracker)
      else if String.eqb choice "2" then
        let zip_file := nth 1 sample_files Missing in
        let shown := [Analysis (analyze_zip_file zip_file)] in
        match typed with
        | [] => ((shown ++ [SessionError])%list, cracker)
        | line :: _ =>
            let base_word := PyStr.strip line in
            finish 2 shown
                   (pattern_based_attack zip_file base_word true cracker)
        end
      else if String.eqb choice "3" then
        let zip_file := nth 2 sample_files Missing in
        let shown := [Analysis (analyze_zip_file zip_file)] in
        match typed with
        | [] => ((shown ++ [SessionError])%list, cracker)
        | line :: typed =>
            let strategy := PyStr.strip line in
            if String.eqb strategy "1" then
              finish 3 shown (dictionary_attack zip_file None cracker)
            else if String.eqb strategy "2" then
              finish 3 shown (brute_force_numeric zip_file 3 cracker)
            else if String.eqb strategy "3" then
              match typed with
              | [] => ((shown ++ [SessionError])%list, cracker)
              | line :: _ =>
                  let base := PyStr.strip line in
                  finish 3 shown
                         (pattern_based_attack zip_file base true cracker)
              end
            else ((shown ++ [SessionError])%list, cracker)
        end
      else if String.eqb choice "4" then
        match typed with
        | [] => ([SessionError], cracker)
        | line :: _ =>
            let zip_file := PyStr.strip line in
            ([Analysis (analyze_zip_file (lookup zip_file))], cracker)
        end
      else if String.eqb choice "5" then
        ([Strengths password_strength_analyzer], cracker)
      else ([InvalidChoice], cracker)
  end.

End Iteration1.

(** ** The [re] collaborator

    The two patterns of the program are concatenations of greedy
    quantifiers over one-character classes.  Such a pattern is a list of
    pieces; matching is the backtracking search of [re]: every quantifier
    first takes as many characters as it can and gives them back one at a
    time when the rest of the pattern fails. *)

Module Re.

Record piece : Type := Piece {
  cls : ascii -> bool;     (* the character class *)
  lo : nat;                (* least number of repetitions *)
  hi : option nat          (* greatest number, [None] when unbounded *)
}.

Definition room (hi : option nat) : bool :=
  match hi with Some 0 => false | _ => true end.

(** The ways a greedy quantifier can split [s], longest first. *)
Fixpoint spans (cls : ascii -> bool) (hi : option nat) (s : string)
  : list (string * string) :=
  match s with
  | EmptyString => [(EmptyString, EmptyString)]
  | String c s' =>
      if cls c && room hi then
        (List.map (fun tr => (String c (fst tr), snd tr))
                  (spans cls (option_map pred hi) s')
         ++ [(EmptyString, s)])%list
      else [(EmptyString, s)]
  end.

(** All matches of the pieces at the start of [s], in the order the
    backtracking search reaches them: what each piece consumed, and
    the text left over. *)
Fixpoint match_seq (ps : list piece) (s : string)
  : list (list string * string) :=
  match ps with
  | [] => [([], s)]
  | p :: ps' =>
      flat_map
        (fun tr =>
           if Nat.leb (lo p) (String.length (fst tr)) then
             List.map (fun m => (fst tr :: fst m, snd m))
                      (match_seq ps' (snd tr))
           else [])
        (spans (cls p) (hi p) s)
  end.

(** [pattern.match(s)]: the first match found. *)
Definition match_at (ps : list piece) (s : string)
  : option (list string * string) :=
  hd_error (match_seq ps s).

(** The scan of [re.findall]: take the match at the current position
    and go on after it, or move one character on. *)
Fixpoint scan (fuel : nat) (ps : list piece) (s : string)
  : list (list string) :=
  match fuel with
  | O => []
  | S fuel' =>
      match match_at ps s with
      | Some (parts, rest) =>
          if Nat.ltb (String.length rest) (String.length s) then
            parts :: scan fuel' ps rest
          else
            match s with
            | EmptyString => [parts]
            | String _ s' => parts :: scan fuel' ps s'
            end
      | None =>
          match s with
          | EmptyString => []
          | String _ s' => scan fuel' ps s'
          end
      end
  end.

Definition findall (ps : list piece) (s : string) : list (list string) :=
  scan (S (String.length s)) ps s.

(** The text a run of pieces matched. *)
Definition text_of (parts : list string) : string :=
  String.concat EmptyString parts.

(** [\d] and [\s] on ASCII text *)
Definition digit (c : ascii) : bool := PyStr.is_digit c.
Definition space (c : ascii) : bool :=
  PyStr.between 9 13 c || PyStr.between 28 32 c.
Definition lit (a : ascii) (c : ascii) : bool := Ascii.eqb c a.

End Re.

(** ** The [base64] collaborator and [bytes.decode('utf-8')] *)

Module Base64.

(** [table_a2b_base64]: the value of a character of the alphabet *)
Definition sextet (c : ascii) : option N :=
  let n := N_of_ascii c in
  if PyStr.is_upper c then Some (n - 65)%N
  else if PyStr.is_lower c then Some (n - 71)%N
  else if PyStr.is_digit c then Some (n + 4)%N
  else if Ascii.eqb c "+" then Some 62%N
  else if Ascii.eqb c "/" then Some 63%N
  else None.

Definition byte (n : N) : N := N.land n 255.

(** [binascii.a2b_base64] without [strict_mode]: characters outside
    the alphabet are skipped, a pad sequence that completes a quad ends
    the input, and an unfinished quad is an error ([None]). *)
Fixpoint a2b_base64 (data : string) (quad_pos : nat) (leftchar : N)
  (pads : nat) (out : list N) : option (list N) :=
  match data with
  | EmptyString =>
      match quad_pos with
      | O => Some out
      | _ => None
      end
  | String this_ch rest =>
      if Ascii.eqb this_ch "=" then
        if Nat.leb 2 quad_pos then
          if Nat.leb 4 (quad_pos + S pads) then Some out
          else a2b_base64 rest quad_pos leftchar (S pads) out
        else a2b_base64 rest quad_pos leftchar pads out
      else
        match sextet this_ch with
        | None => a2b_base64 rest quad_pos leftchar pads out
        | Some v =>
            match quad_pos with
            | 0 => a2b_base64 rest 1 v 0 out
            | 1 =>
                a2b_base64 rest 2 (N.land v 15) 0
                  (out ++ [byte (N.lor (N.shiftl leftchar 2) (N.shiftr v 4))])%list
            | 2 =>
                a2b_base64 rest 3 (N.land v 3) 0
                  (out ++ [byte (N.lor (N.shiftl leftchar 4) (N.shiftr v 2))])%list
            | _ =>
                a2b_base64 rest 0 0%N 0
                  (out ++ [byte (N.lor (N.shiftl leftchar 6) v)])%list
            end
        end
  end.

(** [base64.b64decode(s)] *)
Definition b64decode (s : string) : option (list N) :=
  a2b_base64 s 0 0%N 0 [].

Definition within (lo hi n : N) : bool := N.leb lo n && N.leb n hi.
Definition cont (n : N) : bool := within 128 191 n.

(** Well-formed UTF-8: shortest form, no surrogates, at most U+10FFFF. *)
Fixpoint utf8_ok (bs : list N) : bool :=
  match bs with
  | [] => true
  | b0 :: t0 =>
      if N.ltb b0 128 then utf8_ok t0
      else if within 194 223 b0 then
        match t0 with
        | b1 :: t1 => cont b1 && utf8_ok t1
        | _ => false
        end
      else if within 224 239 b0 then
        match t0 with
        | b1 :: b2 :: t2 =>
            (if N.eqb b0 224 then within 160 191 b1
             else if N.eqb b0 237 then within 128 159 b1
             else cont b1)
            && cont b2 && utf8_ok t2
        | _ => false
        end
      else if within 240 244 b0 then
        match t0 with
        | b1 :: b2 :: b3 :: t3 =>
            (if N.eqb b0 240 then within 144 191 b1
             else if N.eqb b0 244 then within 128 143 b1
             else cont b1)
            && cont b2 && cont b3 && utf8_ok t3
        | _ => false
        end
      else false
  end.

(** [bs.decode('utf-8')]; the text is kept in its UTF-8 form. *)
Definition decode_utf8 (bs : list N) : option string :=
  if utf8_ok bs then Some (string_of_list_ascii (List.map ascii_of_N bs))
  else None.

(** [base64.b64decode(s).decode('utf-8')], [None] when either raises *)
Definition b64decode_utf8 (s : string) : option string :=
  match b64decode s with
  | Some bs => decode_utf8 bs
  | None => None
  end.

End Base64.

(** ** [iteration2.py]: [MultiLayerZipCracker] *)

Module Iteration2.
Import Zipfile.

(** The reports the class prints. *)
Inductive event : Type :=
| EncodedMessage (token decoded : string)
| Coordinates (lat lon : string)
| ParisArea
| AvailableHint (preview : string)
| Trying (candidates : nat)
| Success (password : string) (attempt : nat)
| TriedSoFar (i total : nat)
| FailedToCrack (total : nat)
| Error (e : exn)
| FoundFile (name : string)
| ContentPreview (preview : string)
| HintStored
| ReadError (name : string)
| NestedZip (name : string)
| LayerChallenge (layer : nat)
| LayerFailed (layer : nat)
| NextLayer (name : string)
| FinalLayer
| Summary (layers hints : nat) (history : list (nat * string)).

(** A directory is the list of its files in the order a walk yields
    them; [disk] holds the directories [temp_extract_<k>] by [k]. *)
Definition directory : Type := list entry.

(** The object's state, what was printed, the passwords handed to
    [extractall] so far, and the extraction directories. *)
Record cracker : Type := Cracker {
  layer_count : nat;
  extracted_hints : list string;
  password_history : list (nat * string);
  printed : list event;
  tried : list string;
  disk : list (nat * directory)
}.

(** [MultiLayerZipCracker()] in a working directory holding [d] *)
Definition fresh (d : list (nat * directory)) : cracker :=
  Cracker 0 [] [] [] [] d.

Definition print (e : event) (self : cracker) : cracker :=
  Cracker (layer_count self) (extracted_hints self) (password_history self)
          (printed self ++ [e])%list (tried self) (disk self).

Definition append_hint (h : string) (self : cracker) : cracker :=
  Cracker (layer_count self) (extracted_hints self ++ [h])%list
          (password_history self) (printed self) (tried self) (disk self).

Definition append_history (layer : nat) (password : string)
  (self : cracker) : cracker :=
  Cracker (layer_count self) (extracted_hints self)
          (password_history self ++ [(layer, password)])%list
          (printed self) (tried self) (disk self).

Definition next_layer_count (self : cracker) : cracker :=
  Cracker (S (layer_count self)) (extracted_hints self)
          (password_history self) (printed self) (tried self) (disk self).

Definition note_tried (password : string) (self : cracker) : cracker :=
  Cracker (layer_count self) (extracted_hints self) (password_history self)
          (printed self) (tried self ++ [password])%list (disk self).

Definition set_disk (d : list (nat * directory)) (self : cracker)
  : cracker :=
  Cracker (layer_count self) (extracted_hints self) (password_history self)
          (printed self) (tried self) d.

(** *** Directories *)

Fixpoint lookup_dir (k : nat) (d : list (nat * directory))
  : option directory :=
  match d with
  | [] => None
  | (k', files) :: d' =>
      if Nat.eqb k k' then Some files else lookup_dir k d'
  end.

Fixpoint store_dir (k : nat) (files : directory)
  (d : list (nat * directory)) : list (nat * directory) :=
  match d with
  | [] => [(k, files)]
  | (k', files') :: d' =>
      if Nat.eqb k k' then (k, files) :: d'
      else (k', files') :: store_dir k files d'
  end.

(** The files of a directory; a missing one has none to walk. *)
Definition listing (k : nat) (d : list (nat * directory)) : directory :=
  match lookup_dir k d with
  | Some files => files
  | None => []
  end.

(** [extract_dir.mkdir(exist_ok=True)] *)
Definition mkdir (k : nat) (d : list (nat * directory))
  : list (nat * directory) :=
  match lookup_dir k d with
  | Some _ => d
  | None => store_dir k [] d
  end.

(** Writing a file replaces one of the same name. *)
Fixpoint write_file (e : entry) (files : directory) : directory :=
  match files with
  | [] => [e]
  | f :: files' =>
      if String.eqb (fst f) (fst e) then e :: files'
      else f :: write_file e files'
  end.

Definition write_files (written : list entry) (files : directory)
  : directory :=
  fold_left (fun fs e => write_file e fs) written files.

Definition extract_into (k : nat) (written : list entry)
  (d : list (nat * directory)) : list (nat * directory) :=
  store_dir k (write_files written (listing k d)) d.

(** [file_path.name]: the part after the last [/] *)
Fixpoint name (path : string) : string :=
  match path with
  | EmptyString => EmptyString
  | String c path' =>
      if PyStr.contains "/" path' then name path' else
      if Ascii.eqb c "/" then path' else path
  end.

(** Index of the last [.] of [s], if any ([s.rfind('.')]). *)
Fixpoint rfind_dot (s : string) : option nat :=
  match s with
  | EmptyString => None
  | String c s' =>
      match rfind_dot s' with
      | Some i => Some (S i)
      | None => if Ascii.eqb c "." then Some 0 else None
      end
  end.

(** [file_path.suffix] *)
Definition suffix (path : string) : string :=
  let n := name path in
  match rfind_dot n with
  | Some i =>
      if Nat.ltb 0 i && Nat.ltb i (String.length n - 1)
      then PyStr.drop i n else EmptyString
  | None => EmptyString
  end.

(** The glob [*.zip] on a file name *)
Definition glob_zip (path : string) : bool :=
  let n := name path in
  String.eqb (PyStr.drop (String.length n - 4) n) ".zip".

(** *** Hint scanners *)

(** [[A-Za-z0-9+/]] *)
Definition base64_char (c : ascii) : bool :=
  PyStr.is_upper c || PyStr.is_lower c || PyStr.is_digit c
  || Re.lit "+" c || Re.lit "/" c.

(** [r'[A-Za-z0-9+/]{20,}={0,2}'] *)
Definition base64_pattern : list Re.piece :=
  [ Re.Piece base64_char 20 None; Re.Piece (Re.lit "=") 0 (Some 2) ].

Definition base64_matches (text : string) : list string :=
  List.map Re.text_of (Re.findall base64_pattern text).

(** The [for match in matches] loop of [decode_base64_hints]: the
    bare [except] skips a match whose decoding raises. *)
Fixpoint decode_loop (matches : list string) (self : cracker) : cracker :=
  match matches with
  | [] => self
  | m :: rest =>
      match Base64.b64decode_utf8 m with
      | Some decoded => decode_loop rest (print (EncodedMessage m decoded) self)
      | None => decode_loop rest self
      end
  end.

Definition decode_base64_hints (text : string) (self : cracker) : cracker :=
  decode_loop (base64_matches text) self.

(** [-?\d{1,3}\.\d{4}] *)
Definition coord_number : list Re.piece :=
  [ Re.Piece (Re.lit "-") 0 (Some 1);
    Re.Piece Re.digit 1 (Some 3);
    Re.Piece (Re.lit ".") 1 (Some 1);
    Re.Piece Re.digit 4 (Some 4) ].

(** [r'(-?\d{1,3}\.\d{4}),?\s*(-?\d{1,3}\.\d{4})'] *)
Definition coord_pattern : list Re.piece :=
  (coord_number
   ++ [ Re.Piece (Re.lit ",") 0 (Some 1); Re.Piece Re.space 0 None ]
   ++ coord_number)%list.

(** The two groups of a match of [coord_pattern]. *)
Definition coord_groups (parts : list string) : string * string :=
  (Re.text_of (firstn 4 parts), Re.text_of (skipn 6 parts)).

Definition coord_matches (text : string) : list (string * string) :=
  List.map coord_groups (Re.findall coord_pattern text).

(** The value of a matched number in ten-thousandths.  [float] of such
    a numeral compares with 48.0, 49.0, 2.0 and 3.0 exactly as this
    integer compares with their ten-thousandths. *)
Fixpoint digits_value (acc : Z) (s : string) : Z :=
  match s with
  | EmptyString => acc
  | String c s' =>
      if PyStr.is_digit c
      then digits_value (10 * acc + Z.of_nat (PyStr.code c - 48)) s'
      else digits_value acc s'
  end.

Definition ten_thousandths (s : string) : Z :=
  match s with
  | String "-" s' => (- digits_value 0 s')%Z
  | _ => digits_value 0 s
  end.

Definition paris (lat lon : string) : bool :=
  let lat_f := ten_thousandths lat in
  let lon_f := ten_thousandths lon in
  (480000 <? lat_f)%Z && (lat_f <? 490000)%Z
  && (20000 <? lon_f)%Z && (lon_f <? 30000)%Z.

(** The [for lat, lon in matches] loop of [extract_coordinates]. *)
Fixpoint coord_loop (matches : list (string * string)) (self : cracker)
  : cracker :=
  match matches with
  | [] => self
  | (lat, lon) :: rest =>
      let self := print (Coordinates lat lon) self in
      coord_loop rest (if paris lat lon then print ParisArea self else self)
  end.

Definition extract_coordinates (text : string) (self : cracker) : cracker :=
  coord_loop (coord_matches text) self.

(** The hint section of a text, from [process_extracted_content]:
    [content[hint_start:hint_start+500]] at the first ["HINT"] of
    [content.upper()], when there is one. *)
Definition hint_section (content : string) : option string :=
  if PyStr.contains "HINT" (PyStr.upper content) then
    match PyStr.find "HINT" (PyStr.upper content) with
    | Some hint_start =>
        Some (PyStr.slice hint_start (hint_start + 500) content)
    | None => None
    end
  else None.

(** The body of the [try] for a [.txt] file whose text was read. *)
Definition scan_text (content : string) (self : cracker) : cracker :=
  let self := print (ContentPreview (PyStr.take 200 content)) self in
  let self :=
    match hint_section content with
    | Some section => print HintStored (append_hint section self)
    | None => self
    end in
  extract_coordinates content (decode_base64_hints content self).

(** The walk of [process_extracted_content]; it returns at the first
    [.zip] file it meets. *)
Fixpoint process_files (files : directory) (self : cracker)
  : option string * cracker :=
  match files with
  | [] => (None, self)
  | (file_path, data) :: rest =>
      let self := print (FoundFile (name file_path)) self in
      if String.eqb (suffix file_path) ".txt" then
        match data with
        | Text content => process_files rest (scan_text content self)
        | _ => process_files rest (print (ReadError file_path) self)
        end
      else if String.eqb (suffix file_path) ".zip" then
        (Some file_path, print (NestedZip (name file_path)) self)
      else process_files rest self
  end.

Definition process_extracted_content (extract_dir : nat) (self : cracker)
  : option string * cracker :=
  process_files (listing extract_dir (disk self)) self.

(** *** Candidate generators *)

Definition generate_simple_passwords : list string :=
  List.app
    [ "start"; "start123"; "begin"; "begin123"; "layer1";
      "password"; "123456"; "welcome"; "hello"; "first" ]
    (flat_map
       (fun base =>
          List.map (fun num => base ++ num)
                   [ "1"; "12"; "123"; "2024"; "2023" ])
       [ "start"; "begin"; "first" ]).

(** [year[-2:]] *)
Definition last_two (s : string) : string :=
  PyStr.drop (String.length s - 2) s.

Definition scientists : list (string * string) :=
  [ ("albert", "1921"); ("einstein", "1921"); ("albert1921", "");
    ("newton", "1687"); ("darwin", "1859"); ("curie", "1903");
    ("tesla", "1856"); ("galileo", "1564") ].

Definition generate_knowledge_passwords : list string :=
  flat_map
    (fun ny : string * string =>
       let (name, year) := ny in
       [ name ++ year; PyStr.capitalize name ++ year; name ++ last_two year ])
    scientists.

Definition generate_complex_passwords : list string :=
  flat_map (fun city =>
    flat_map (fun element =>
      flat_map (fun num =>
        List.map (fun symbol => city ++ element ++ num ++ symbol)
                 [ "!"; "@"; "#"; "$"; "%" ])
        [ "49"; "64"; "36"; "25"; "16" ])
      [ "au"; "ag"; "fe"; "cu"; "pb"; "sn" ])
    [ "paris"; "london"; "berlin"; "madrid"; "rome" ].

(** *** The attempt loop *)

(** The [for i, password in enumerate(candidates, 1)] loop of
    [try_passwords].  Each round creates the directory if it is
    absent and extracts into it; nothing is removed afterwards. *)
Fixpoint try_loop (zip_ref : archive) (total i : nat)
  (candidates : list string) (self : cracker)
  : (option string * option nat) * cracker :=
  match candidates with
  | [] => ((None, None), print (FailedToCrack total) self)
  | password :: rest =>
      let extract_dir := layer_count self in
      let self := set_disk (mkdir extract_dir (disk self)) self in
      let (written, raised) := extractall zip_ref password in
      let self :=
        set_disk (extract_into extract_dir written (disk self))
                 (note_tried password self) in
      match raised with
      | None =>
          let self := print (Success password i) self in
          let (_, self) := process_extracted_content extract_dir self in
          ((Some password, Some extract_dir), self)
      | Some e =>
          if wrong_password e then
            try_loop zip_ref total (S i) rest
              (if Nat.eqb (i mod 50) 0
               then print (TriedSoFar i total) self else self)
          else ((None, None), print (Error e) self)
      end
  end.

Definition try_passwords (zip_path : target) (candidates : list string)
  (self : cracker) : (option string * option nat) * cracker :=
  let self := print (Trying (List.length candidates)) self in
  match zip_path with
  | Missing => ((None, None), print (Error FileNotFoundError) self)
  | OpenRaises e => ((None, None), print (Error e) self)
  | Opens zip_ref => try_loop zip_ref (List.length candidates) 1 candidates self
  end.

(** The candidates [intelligent_crack_layer] picks for a layer. *)
Definition layer_candidates (layer_num : nat) : list string :=
  match layer_num with
  | 1 => generate_simple_passwords
  | 2 => generate_knowledge_passwords
  | _ => generate_complex_passwords
  end.

Definition intelligent_crack_layer (zip_path : target) (layer_num : nat)
  (hint_text : string) (self : cracker)
  : (option string * option nat) * cracker :=
  let self :=
    match hint_text with
    | EmptyString => self
    | _ =>
        extract_coordinates hint_text
          (decode_base64_hints hint_text
             (print (AvailableHint (PyStr.take 100 hint_text)) self))
    end in
  try_passwords zip_path (layer_candidates layer_num) self.

(** *** The traversal *)

(** [self.extracted_hints[-1] if self.extracted_hints else ""] *)
Definition latest_hint (self : cracker) : string :=
  last (extracted_hints self) EmptyString.

(** The first file a walk for [*.zip] yields. *)
Fixpoint first_zip (files : directory) : option entry :=
  match files with
  | [] => None
  | f :: rest => if glob_zip (fst f) then Some f else first_zip rest
  end.

(** [not password] *)
Definition falsy (password : option string) : bool :=
  match password with
  | None | Some EmptyString => true
  | Some _ => false
  end.

(** The [while] loop of [crack_multi_layer_zip], [fuel] rounds of it:
    [None] when the rounds ran out before the loop ended. *)
Fixpoint crack_loop (fuel : nat) (current_zip : target) (layer : nat)
  (self : cracker) : option cracker :=
  match fuel with
  | O => None
  | S fuel' =>
      match current_zip with
      | Missing => Some self
      | _ =>
          let self := print (LayerChallenge layer) self in
          let hint := latest_hint self in
          let '((password, extract_dir), self) :=
            intelligent_crack_layer current_zip layer hint self in
          if falsy password then Some (print (LayerFailed layer) self)
          else
            let self :=
              match password with
              | Some p => append_history layer p self
              | None => self
              end in
            let next_zip :=
              match extract_dir with
              | Some k => first_zip (listing k (disk self))
              | None => None
              end in
            match next_zip with
            | Some (file_path, data) =>
                crack_loop fuel' (target_of_content data) (S layer)
                  (next_layer_count (print (NextLayer (name file_path)) self))
            | None => Some (print FinalLayer self)
            end
      end
  end.

Definition summary (self : cracker) : cracker :=
  print (Summary (List.length (password_history self))
                 (List.length (extracted_hints self))
                 (password_history self)) self.

Definition crack_multi_layer_zip (fuel : nat) (zip_path : target)
  (self : cracker) : option cracker :=
  option_map summary (crack_loop fuel zip_path 1 self).

End Iteration2.

(** * Vocabulary of the properties *)

Import Zipfile.

(** ** Orders and numerals *)

(** Python's [<] on strings of one length, and the order "shorter first,
    then lexicographic" in which [brute_force_numeric] is to run. *)
Definition lex_lt (s t : string) : Prop := String.compare s t = Lt.

Definition shortlex (s t : string) : Prop :=
  String.length s < String.length t
  \/ (String.length s = String.length t /\ lex_lt s t).

Definition all_digits (s : string) : Prop :=
  Forall (fun c => PyStr.is_digit c = true) (list_ascii_of_string s).

(** The decimal numeral of [n] on [width] digits, zero-padded. *)
Fixpoint decimal (width n : nat) : string :=
  match width with
  | O => EmptyString
  | S w => decimal w (n / 10) ++ String (ascii_of_nat (48 + n mod 10)) EmptyString
  end.

(** ** Archives and passwords *)

(** An archive rejects a password when [extractall] raises one of the
    exceptions the loops take for a wrong password, and accepts it when
    [extractall] raises nothing. *)
Definition rejects (z : archive) (password : string) : Prop :=
  exists e, snd (extractall z password) = Some e /\ wrong_password e = true.

Definition accepts (z : archive) (password : string) : Prop :=
  snd (extractall z password) = None.

(** One entry, encrypted with "correct". *)
Definition correct_zip : archive :=
  archive_of [Member "secret.txt" (Text "payload") (Some "correct")].

(** One entry, encrypted with the first of the built-in common
    passwords. *)
Definition password_zip : archive :=
  archive_of [Member "notes.txt" (Text "payload") (Some "password")].

(** An unencrypted entry in front of an encrypted one: [extractall]
    writes the first before the password is checked on the second. *)
Definition mixed_zip : archive :=
  archive_of [ Member "deeper.zip" Binary None;
               Member "welcome.txt" (Text "payload") (Some "start123") ].

(** An archive none of the generated candidates opens. *)
Definition locked_zip : archive :=
  archive_of [Member "vault.txt" (Text "payload") (Some "zzz")].

(** ** States and directories of [MultiLayerZipCracker] *)

Section Iteration2Vocabulary.
Import Iteration2.

(** The state without its log. *)
Definition erase (self : cracker) : cracker :=
  Cracker (layer_count self) (extracted_hints self) (password_history self)
          [] (tried self) (disk self).

(** The state with the hint section of [content], if it has one. *)
Definition with_hint (content : string) (self : cracker) : cracker :=
  match hint_section content with
  | Some section => append_hint section self
  | None => self
  end.

(** The names of the files in [temp_extract_<k>]. *)
Definition names (k : nat) (d : list (nat * directory)) : list string :=
  List.map fst (listing k d).

(** One round of the attempt loop, as far as the disk goes. *)
Definition after_round (k : nat) (written : list entry)
  (d : list (nat * directory)) : list (nat * directory) :=
  extract_into k written (mkdir k d).

End Iteration2Vocabulary.

(** ** Markers *)



(** ** Patterns *)

(** Every character of [s] is in the class. *)
Definition all_in (cls : ascii -> bool) (s : string) : Prop :=
  Forall (fun c => cls c = true) (list_ascii_of_string s).

Definition within_hi (hi : option nat) (n : nat) : Prop :=
  match hi with
  | Some h => n <= h
  | None => True
  end.

(** What a piece may consume. *)
Definition piece_ok (p : Re.piece) (t : string) : Prop :=
  all_in (Re.cls p) t
  /\ Re.lo p <= String.length t
  /\ within_hi (Re.hi p) (String.length t).

(** The longest prefix a greedy quantifier takes, and what is left. *)
Fixpoint greedy (cls : ascii -> bool) (hi : option nat) (s : string)
  : string * string :=
  match s with
  | EmptyString => (EmptyString, EmptyString)
  | String c s' =>
      if cls c && Re.room hi then
        let tr := greedy cls (option_map pred hi) s' in
        (String c (fst tr), snd tr)
      else (EmptyString, s)
  end.

(** [s] does not begin with a character of the class. *)
Definition stops (cls : ascii -> bool) (s : string) : Prop :=
  match s with
  | EmptyString => True
  | String c _ => cls c = false
  end.

(** The last character of [pre] is not of the class, or [pre] is empty:
    a run that follows [pre] starts a token. *)
Fixpoint boundary (cls : ascii -> bool) (pre : string) : Prop :=
  match pre with
  | EmptyString => True
  | String c EmptyString => cls c = false
  | String _ pre' => boundary cls pre'
  end.

(** The reports a list of matches gives rise to: one per match that
    decodes. *)
Definition decoded_events (matches : list string) : list Iteration2.event :=
  flat_map
    (fun m =>
       match Base64.b64decode_utf8 m with
       | Some decoded => [Iteration2.EncodedMessage m decoded]
       | None => []
       end)
    matches.

(** ** Coordinates *)





(** ** Further archives and counts *)

(** [extractall] ends in an exception the loops do not take for a wrong
    password. *)
Definition breaks (z : archive) (password : string) (e : exn) : Prop :=
  snd (extractall z password) = Some e /\ wrong_password e = false.

(** An archive encrypted with "correct" on which the password "glitch"
    gets past the password check and fails later, in an exception that
    is neither [RuntimeError] nor [BadZipFile]. *)
Definition glitch_zip : archive :=
  Archive 1
    (fun pwd =>
       if String.eqb pwd "glitch" then ([], Some OtherException)
       else if String.eqb pwd "correct"
            then ([("secret.txt", Text "payload")], None)
            else ([], Some RuntimeError)).

(** The kind of archive [create_sample_zip_files] writes: no entry is
    encrypted. *)
Definition sample_zip : archive :=
  archive_of [Member "secret.txt" (Text "Congratulations!") None].

(** An archive encrypted with the numeral "07". *)
Definition pin_zip : archive :=
  archive_of [Member "pin.txt" (Text "payload") (Some "07")].

(** The passwords [brute_force_numeric] generates for one length. *)
Definition generated (length : Z) : list string :=
  List.map PyStr.join (PyStr.product PyStr.digits (Z.to_nat length)).

(** The number of digit strings of length 1 to [n]. *)
Fixpoint numerals_upto (n : nat) : nat :=
  match n with
  | O => 0
  | S m => numerals_upto m + 10 ^ S m
  end.

(** The digit strings that [brute_force_numeric] generates before the
    numeral of [v] on [len] digits. *)
Definition numerals_before (len v : nat) : list string :=
  (flat_map (fun l => List.map (decimal l) (seq 0 (10 ^ l))) (seq 1 (len - 1))
   ++ List.map (decimal len) (seq 0 v))%list.

(** Three nested archives laid out as [create_multi_layer_zip] means
    them: a text encrypted with the layer's password next to the archive
    of the next layer, the texts cut down to their hint lines. *)
Definition layer3_zip : archive :=
  archive_of
    [Member "victory.txt" (Text "MASTER HACKER ACHIEVED!") (Some "parisau49!")].

Definition layer2_zip : archive :=
  archive_of
    [ Member "hint2.txt"
        (Text "HINT FOR LAYER 3: Hidden coordinates: 48.8566, 2.3522")
        (Some "albert1921");
      Member "next_challenge.zip" (Zip layer3_zip) None ].

Definition layer1_zip : archive :=
  archive_of
    [ Member "welcome.txt"
        (Text "HINT FOR LAYER 2: firstname+year (all lowercase)")
        (Some "start123");
      Member "deeper.zip" (Zip layer2_zip) None ].

(** The layer numbers of a history are consecutive from [layer] on, and
    each password is a non-empty candidate of its layer. *)
Fixpoint history_from (layer : nat) (added : list (nat * string)) : Prop :=
  match added with
  | [] => True
  | (l, p) :: rest =>
      l = layer /\ p <> "" /\ In p (Iteration2.layer_candidates layer)
      /\ history_from (S layer) rest
  end.

(** The common patterns [analyze_password] finds in a password, in the
    order of its list. *)
Definition flagged (password : string) : list string :=
  filter
    (fun pattern =>
       PyStr.contains (PyStr.lower pattern) (PyStr.lower password))
    Iteration1.common_patterns.

(** An archive that some [extractall] call of [z] writes out. *)
Definition inner (z' z : archive) : Prop :=
  exists pwd path, In (path, Zip z') (fst (extractall z pwd)).

(** The loop of [crack_multi_layer_zip] ends in [out]: some number of
    rounds is enough, and more rounds change nothing. *)
Definition ends_in (current_zip : target) (layer : nat)
  (self out : Iteration2.cracker) : Prop :=
  exists fuel, forall fuel', fuel <= fuel' ->
    Iteration2.crack_loop fuel' current_zip layer self = Some out.

(** * Properties *)

(** ** Strings and lists *)

Section StringFacts.

Lemma length_join (l : list ascii) :
  String.length (PyStr.join l) = List.length l.
Proof. induction l; simpl; congruence. Qed.

Lemma chars_join (l : list ascii) :
  list_ascii_of_string (PyStr.join l) = l.
Proof. apply list_ascii_of_string_of_list_ascii. Qed.

Lemma join_chars (s : string) :
  PyStr.join (list_ascii_of_string s) = s.
Proof. apply string_of_list_ascii_of_string. Qed.

Lemma length_chars (s : string) :
  List.length (list_ascii_of_string s) = String.length s.
Proof. induction s; simpl; congruence. Qed.

Lemma length_append (s t : string) :
  String.length (s ++ t) = String.length s + String.length t.
Proof. induction s; simpl; congruence. Qed.

Lemma append_assoc (s t u : string) : (s ++ t) ++ u = s ++ (t ++ u).
Proof. induction s; simpl; congruence. Qed.

Lemma append_empty_r (s : string) : s ++ "" = s.
Proof. induction s; simpl; congruence. Qed.

Lemma join_app (l1 l2 : list ascii) :
  PyStr.join (l1 ++ l2)%list = PyStr.join l1 ++ PyStr.join l2.
Proof. induction l1; simpl; congruence. Qed.

Lemma length_map (f : ascii -> ascii) (s : string) :
  String.length (PyStr.map f s) = String.length s.
Proof. induction s; simpl; congruence. Qed.

Lemma map_append (f : ascii -> ascii) (s t : string) :
  PyStr.map f (s ++ t) = PyStr.map f s ++ PyStr.map f t.
Proof. induction s; simpl; congruence. Qed.

Lemma take_drop (n : nat) (s : string) :
  PyStr.take n s ++ PyStr.drop n s = s.
Proof.
  revert s; induction n; intros [|c s]; simpl; try reflexivity.
  now rewrite IHn.
Qed.



Lemma drop_append (s t : string) :
  PyStr.drop (String.length s) (s ++ t) = t.
Proof. induction s; simpl; [now destruct t|assumption]. Qed.

Lemma startswith_append (p s : string) :
  PyStr.startswith p s = true <-> exists t, s = p ++ t.
Proof.
  revert s; induction p as [|a p IH]; intros s; simpl.
  - split; [intros _; now exists s | reflexivity].
  - destruct s as [|b s].
    + split; [discriminate | intros [t Ht]; discriminate].
    + rewrite andb_true_iff, IH, Ascii.eqb_eq. split.
      * intros [-> [t ->]]. now exists t.
      * intros [t Ht]. injection Ht as -> ->. split; [reflexivity|now exists t].
Qed.

End StringFacts.

Lemma StronglySorted_app_intro {T : Type} (R : T -> T -> Prop)
  (l1 l2 : list T) :
  StronglySorted R l1 -> StronglySorted R l2 ->
  (forall x y, In x l1 -> In y l2 -> R x y) ->
  StronglySorted R (l1 ++ l2)%list.
Proof.
  induction l1 as [|a l1 IH]; intros H1 H2 H12; simpl; [assumption|].
  inversion H1 as [|? ? Hs Hf]; subst. constructor.
  - apply IH; [assumption|assumption|]. intros; apply H12; simpl; auto.
  - apply Forall_app; split; [assumption|].
    apply Forall_forall; intros y Hy. apply H12; simpl; auto.
Qed.

Section ListFacts.
Context {A B : Type}.

Lemma StronglySorted_map_intro (R : B -> B -> Prop) (Q : A -> A -> Prop)
  (f : A -> B) (l : list A) :
  StronglySorted Q l ->
  (forall a a', In a l -> In a' l -> Q a a' -> R (f a) (f a')) ->
  StronglySorted R (List.map f l).
Proof.
  induction l as [|a l IH]; intros Hs Hf; simpl; [constructor|].
  inversion Hs as [|? ? Hs' Hall]; subst. constructor.
  - apply IH; [assumption|]. intros; apply Hf; simpl; auto.
  - apply Forall_forall; intros y Hy. apply in_map_iff in Hy as [a' [<- Ha']].
    apply Hf; simpl; auto. rewrite Forall_forall in Hall; auto.
Qed.

Lemma StronglySorted_flat_map_intro (R : B -> B -> Prop)
  (Q : A -> A -> Prop) (f : A -> list B) (l : list A) :
  StronglySorted Q l ->
  (forall a, In a l -> StronglySorted R (f a)) ->
  (forall a a' x y, In a l -> In a' l -> Q a a' ->
                    In x (f a) -> In y (f a') -> R x y) ->
  StronglySorted R (flat_map f l).
Proof.
  induction l as [|a l IH]; intros Hs Hin Hout; simpl; [constructor|].
  inversion Hs as [|? ? Hs' Hall]; subst.
  apply StronglySorted_app_intro.
  - apply Hin; simpl; auto.
  - apply IH; [assumption| |].
    + intros; apply Hin; simpl; auto.
    + intros a1 a2 x y H1 H2; apply Hout; simpl; auto.
  - intros x y Hx Hy. apply in_flat_map in Hy as [a' [Ha' Hy]].
    apply (Hout a a'); simpl; auto. rewrite Forall_forall in Hall; auto.
Qed.

End ListFacts.

(** ** [itertools.product] *)

Section ProductFacts.
Context {A : Type}.

Lemma product_S (pool : list A) (n : nat) :
  PyStr.product pool (S n) = PyStr.product_step (PyStr.product pool n) pool.
Proof.
  unfold PyStr.product.
  change (repeat pool (S n)) with (pool :: repeat pool n).
  rewrite repeat_cons, fold_left_app. reflexivity.
Qed.

Lemma in_product_step (result : list (list A)) (pool : list A) (l : list A) :
  In l (PyStr.product_step result pool) <->
  exists x y, l = (x ++ [y])%list /\ In x result /\ In y pool.
Proof.
  unfold PyStr.product_step. rewrite in_flat_map. split.
  - intros [x [Hx Hl]]. apply in_map_iff in Hl as [y [<- Hy]].
    exists x, y; auto.
  - intros [x [y [-> [Hx Hy]]]]. exists x. split; [assumption|].
    apply in_map_iff. exists y; auto.
Qed.

Lemma in_product (pool : list A) (n : nat) (l : list A) :
  In l (PyStr.product pool n) <->
  List.length l = n /\ Forall (fun c => In c pool) l.
Proof.
  revert l; induction n as [|n IH]; intros l.
  - simpl. split.
    + intros [<-|[]]. split; [reflexivity|constructor].
    + intros [Hl _]. destruct l; [now left|discriminate].
  - rewrite product_S, in_product_step. split.
    + intros [x [y [-> [Hx Hy]]]]. apply IH in Hx as [Hlen Hall].
      split.
      * rewrite length_app; simpl; lia.
      * apply Forall_app; split; [assumption|]. constructor; [assumption|constructor].
    + intros [Hlen Hall].
      destruct (exists_last (l:=l)) as [x [y ->]].
      { intros ->; discriminate. }
      rewrite length_app in Hlen; simpl in Hlen.
      apply Forall_app in Hall as [Hx Hy].
      exists x, y. split; [reflexivity|]. split.
      * apply IH. split; [lia|assumption].
      * now inversion Hy.
Qed.

End ProductFacts.

(** ** Order of the numeric candidates *)

Section NumericFacts.

Lemma ascii_compare_refl (a : ascii) : Ascii.compare a a = Eq.
Proof. unfold Ascii.compare. apply N.compare_refl. Qed.

Lemma compare_snoc_same (x : list ascii) (a b : ascii) :
  String.compare (PyStr.join (x ++ [a])) (PyStr.join (x ++ [b]))
  = Ascii.compare a b.
Proof.
  induction x as [|c x IH]; simpl.
  - now destruct (Ascii.compare a b).
  - now rewrite ascii_compare_refl.
Qed.

Lemma compare_snoc_lt (x x' : list ascii) (a b : ascii) :
  List.length x = List.length x' ->
  lex_lt (PyStr.join x) (PyStr.join x') ->
  lex_lt (PyStr.join (x ++ [a])) (PyStr.join (x' ++ [b])).
Proof.
  unfold lex_lt. revert x'; induction x as [|c x IH]; intros [|c' x'] Hlen H;
    simpl in *; try discriminate.
  destruct (Ascii.compare c c'); try assumption.
  apply IH; [congruence|assumption].
Qed.

Lemma digits_sorted :
  StronglySorted (fun a b => Ascii.compare a b = Lt) PyStr.digits.
Proof. repeat constructor. Qed.

Lemma in_digits (c : ascii) : In c PyStr.digits <-> PyStr.is_digit c = true.
Proof.
  split.
  - intros H. repeat (destruct H as [<-|H]; [reflexivity|]). destruct H.
  - destruct c as [[] [] [] [] [] [] [] []]; vm_compute; intros H;
      try discriminate H; repeat (try (left; reflexivity); right).
Qed.

Lemma product_digits_sorted (n : nat) :
  StronglySorted lex_lt (List.map PyStr.join (PyStr.product PyStr.digits n)).
Proof.
  apply StronglySorted_map_intro
    with (Q := fun x y => lex_lt (PyStr.join x) (PyStr.join y));
    [|auto].
  induction n as [|n IH].
  - repeat constructor.
  - rewrite product_S. unfold PyStr.product_step.
    apply StronglySorted_flat_map_intro
      with (Q := fun x y => lex_lt (PyStr.join x) (PyStr.join y)).
    + assumption.
    + intros x _.
      apply StronglySorted_map_intro
        with (Q := fun a b => Ascii.compare a b = Lt).
      * apply digits_sorted.
      * intros a b _ _ Hab. unfold lex_lt. now rewrite compare_snoc_same.
    + intros x x' l l' Hx Hx' Hlt Hl Hl'.
      apply in_map_iff in Hl as [a [<- _]].
      apply in_map_iff in Hl' as [b [<- _]].
      apply in_product in Hx as [Hx _]. apply in_product in Hx' as [Hx' _].
      apply compare_snoc_lt; [congruence|assumption].
Qed.

Lemma in_range (lo hi x : Z) :
  In x (PyStr.range lo hi) <-> (lo <= x < hi)%Z.
Proof.
  unfold PyStr.range. rewrite in_map_iff. split.
  - intros [i [<- Hi]]. apply in_seq in Hi. lia.
  - intros H. exists (Z.to_nat (x - lo)). split; [lia|].
    apply in_seq. lia.
Qed.

Lemma range_sorted (lo hi : Z) : StronglySorted Z.lt (PyStr.range lo hi).
Proof.
  unfold PyStr.range. generalize (Z.to_nat (hi - lo)) as n. intros n.
  apply StronglySorted_map_intro with (Q := lt); [|intros; lia].
  generalize 0 as k. induction n as [|n IH]; intros k; simpl; constructor.
  - apply IH.
  - apply Forall_forall. intros y Hy. apply in_seq in Hy. lia.
Qed.

Lemma in_numeric_candidates (max_length : Z) (s : string) :
  In s (Iteration1.numeric_candidates max_length) <->
  1 <= String.length s /\ (Z.of_nat (String.length s) <= max_length)%Z
  /\ all_digits s.
Proof.
  unfold Iteration1.numeric_candidates, all_digits.
  rewrite in_flat_map. split.
  - intros [len [Hlen Hs]]. apply in_range in Hlen.
    apply in_map_iff in Hs as [l [<- Hl]]. apply in_product in Hl as [Hl Hd].
    rewrite length_join, chars_join. repeat split; try lia.
    eapply Forall_impl; [|exact Hd]. intros c; apply in_digits.
  - intros [H1 [H2 Hd]]. exists (Z.of_nat (String.length s)). split.
    + apply in_range. lia.
    + apply in_map_iff. exists (list_ascii_of_string s).
      split; [apply join_chars|]. apply in_product.
      rewrite Nat2Z.id, length_chars. split; [reflexivity|].
      eapply Forall_impl; [|exact Hd]. intros c; apply in_digits.
Qed.

Lemma numeric_candidates_sorted (max_length : Z) :
  StronglySorted shortlex (Iteration1.numeric_candidates max_length).
Proof.
  unfold Iteration1.numeric_candidates.
  apply StronglySorted_flat_map_intro
    with (Q := fun a b => (1 <= a < b)%Z).
  - apply StronglySorted_map_intro with (Q := lt).
    + generalize 0 as k. generalize (Z.to_nat (max_length + 1 - 1)) as n.
      induction n as [|n IH]; intros k; simpl; constructor; [apply IH|].
      apply Forall_forall. intros y Hy. apply in_seq in Hy. lia.
    + intros; lia.
  - intros a _.
    eapply StronglySorted_map_intro
      with (Q := fun x y => lex_lt (PyStr.join x) (PyStr.join y)
                            /\ List.length x = List.length y).
    2:{ intros x y _ _ [Hlt Hlen]. right. rewrite !length_join. auto. }
    assert (Hs := product_digits_sorted (Z.to_nat a)).
    assert (Hl : Forall (fun x => List.length x = Z.to_nat a)
                        (PyStr.product PyStr.digits (Z.to_nat a))).
    { apply Forall_forall. intros x Hx. now apply in_product in Hx. }
    induction (PyStr.product PyStr.digits (Z.to_nat a)) as [|x l IH];
      [constructor|].
    simpl in Hs. inversion Hs as [|? ? Hs' Hall]; subst.
    inversion Hl as [|? ? Hx Hl']; subst.
    constructor; [now apply IH|].
    rewrite Forall_forall in *. intros y Hy. split.
    + apply Hall. now apply in_map.
    + rewrite (Hl' y Hy). exact Hx.
  - intros a a' x y _ _ Haa' Hx Hy.
    apply in_map_iff in Hx as [l [<- Hl]].
    apply in_map_iff in Hy as [l' [<- Hl']].
    apply in_product in Hl as [Hl _]. apply in_product in Hl' as [Hl' _].
    left. rewrite !length_join. lia.
Qed.

End NumericFacts.

(** ** The numeric candidates as numerals *)

Section DecimalFacts.
#[local] Arguments Nat.modulo : simpl never.
#[local] Arguments Nat.div : simpl never.

Lemma map_flat_map {A B C : Type} (g : B -> C) (f : A -> list B)
  (l : list A) :
  List.map g (flat_map f l) = flat_map (fun x => List.map g (f x)) l.
Proof.
  induction l as [|a l IH]; simpl; [reflexivity|].
  now rewrite map_app, IH.
Qed.

Lemma flat_map_map {A B C : Type} (f : B -> list C) (g : A -> B)
  (l : list A) :
  flat_map f (List.map g l) = flat_map (fun x => f (g x)) l.
Proof. induction l as [|a l IH]; simpl; [reflexivity|]. now rewrite IH. Qed.

Lemma seq_times_ten (a : nat) :
  seq 0 (a * 10)
  = flat_map (fun q => List.map (fun r => q * 10 + r) (seq 0 10)) (seq 0 a).
Proof.
  induction a as [|a IH]; [reflexivity|].
  replace (S a * 10) with (a * 10 + 10) by lia.
  rewrite seq_app, (seq_S a 0), flat_map_app, <- IH. f_equal.
  cbn [flat_map]. rewrite app_nil_r. cbn [seq List.map Nat.add].
  repeat (f_equal; try lia).
Qed.

Lemma decimal_step (n q r : nat) :
  r < 10 ->
  decimal (S n) (q * 10 + r)
  = decimal n q ++ String (ascii_of_nat (48 + r)) "".
Proof.
  intros Hr.
  assert (Hd : (q * 10 + r) / 10 = q).
  { rewrite Nat.div_add_l by lia. rewrite (Nat.div_small r 10) by lia. lia. }
  assert (Hm : (q * 10 + r) mod 10 = r).
  { rewrite Nat.add_comm, Nat.Div0.mod_add. apply Nat.mod_small. lia. }
  cbn [decimal]. now rewrite Hd, Hm.
Qed.

(** The tuples of [n] digits, joined, are the numerals of 0 to
    [10 ^ n - 1] on [n] digits, in ascending order. *)
Lemma product_digits_decimal (n : nat) :
  List.map PyStr.join (PyStr.product PyStr.digits n)
  = List.map (decimal n) (seq 0 (10 ^ n)).
Proof.
  induction n as [|n IH]; [reflexivity|].
  rewrite product_S. unfold PyStr.product_step.
  rewrite map_flat_map.
  rewrite (flat_map_ext _
             (fun x => List.map (fun y => PyStr.join x ++ String y "")
                                PyStr.digits)).
  2:{ intros x. rewrite map_map. apply map_ext. intros y.
      now rewrite join_app. }
  rewrite <- (flat_map_map
                (fun s => List.map (fun y => s ++ String y "") PyStr.digits)
                PyStr.join).
  rewrite IH, flat_map_map.
  replace (10 ^ S n) with (10 ^ n * 10) by (cbn [Nat.pow]; lia).
  rewrite seq_times_ten, map_flat_map.
  apply flat_map_ext. intros q.
  change PyStr.digits
    with (List.map (fun r => ascii_of_nat (48 + r)) (seq 0 10)).
  rewrite !map_map. apply map_ext_in. intros r Hr.
  apply in_seq in Hr. symmetry. apply decimal_step. lia.
Qed.

Lemma numeric_candidates_decimal (max_length : Z) :
  Iteration1.numeric_candidates max_length
  = flat_map (fun len => List.map (decimal len) (seq 0 (10 ^ len)))
             (seq 1 (Z.to_nat max_length)).
Proof.
  unfold Iteration1.numeric_candidates, PyStr.range.
  replace (Z.to_nat (max_length + 1 - 1)) with (Z.to_nat max_length) by lia.
  rewrite flat_map_map, <- seq_shift, flat_map_map.
  apply flat_map_ext. intros i.
  replace (Z.to_nat (1 + Z.of_nat i)) with (S i) by lia.
  apply product_digits_decimal.
Qed.

End DecimalFacts.

(** ** The attempt loops of [BasicPasswordCracker] *)

Section Iteration1Loops.
Import Iteration1.

Lemma tried_print (e : event) (self : cracker) :
  tried (print e self) = tried self.
Proof. reflexivity. Qed.

Lemma numeric_inner_tried (z : archive) (combos : list (list ascii))
  (self : cracker) :
  exists attempted rest,
    List.map PyStr.join combos = (attempted ++ rest)%list
    /\ tried (snd (numeric_inner z combos self))
       = (tried self ++ attempted)%list
    /\ (fst (numeric_inner z combos self) = None -> rest = []).
Proof.
  revert self; induction combos as [|combo combos IH]; intros self; simpl.
  - exists [], []. simpl. rewrite app_nil_r. auto.
  - destruct (snd (extractall z (PyStr.join combo))) as [e|].
    + destruct (wrong_password e).
      * match goal with |- context [numeric_inner z combos ?s] =>
          destruct (IH s) as [att [rest [Heq [Ht Hn]]]] end.
        exists (PyStr.join combo :: att), rest. split; [simpl; congruence|].
        split; [|assumption]. rewrite Ht.
        destruct (Nat.eqb _ _); simpl; now rewrite <- app_assoc.
      * exists [PyStr.join combo], (List.map PyStr.join combos).
        simpl. split; [reflexivity|]. split; [reflexivity|discriminate].
    + exists [PyStr.join combo], (List.map PyStr.join combos).
      simpl. split; [reflexivity|]. split; [reflexivity|discriminate].
Qed.

Lemma numeric_outer_tried (z : archive) (lengths : list Z) (self : cracker) :
  exists attempted rest,
    flat_map (fun length =>
                List.map PyStr.join
                  (PyStr.product PyStr.digits (Z.to_nat length))) lengths
    = (attempted ++ rest)%list
    /\ tried (snd (numeric_outer z lengths self))
       = (tried self ++ attempted)%list.
Proof.
  revert self; induction lengths as [|len lengths IH]; intros self; simpl.
  - exists [], []. simpl. rewrite app_nil_r. auto.
  - match goal with |- context [numeric_inner z ?c ?s] =>
      destruct (numeric_inner_tried z c s) as [att [rest [Heq [Ht Hn]]]];
      destruct (numeric_inner z c s) as [[r|] self'] end; simpl in *.
    + exists att. eexists. rewrite Heq, <- app_assoc. split; [reflexivity|].
      assumption.
    + rewrite (Hn eq_refl), app_nil_r in Heq.
      destruct (IH self') as [att' [rest' [Heq' Ht']]].
      exists (att ++ att')%list, rest'. rewrite Heq, Heq', Ht', Ht.
      now rewrite !app_assoc.
Qed.

End Iteration1Loops.

(** C2.  The numeric brute force runs through exactly the digit strings
    of length 1 to [max_length], shorter strings first and in ascending
    lexicographic order within a length: a string is generated iff it is
    made of digits and has such a length, the generation order is
    strictly ascending for "shorter, then lexicographic", and the
    passwords [brute_force_numeric] hands to the archive are an initial
    segment of that sequence.  The sequence is, for each length from 1
    to [max_length] in turn, the numerals of 0 to [10 ^ length - 1] on
    that many digits; for [max_length = 2] it is "0" to "9" followed by
    "00" to "99", 110 candidates. *)
Theorem brute_force_numeric_enumeration (max_length : Z) :
  (forall s,
      In s (Iteration1.numeric_candidates max_length) <->
      1 <= String.length s
      /\ (Z.of_nat (String.length s) <= max_length)%Z
      /\ all_digits s)
  /\ StronglySorted shortlex (Iteration1.numeric_candidates max_length)
  /\ (forall z self,
        exists attempted rest,
          Iteration1.numeric_candidates max_length = (attempted ++ rest)%list
          /\ Iteration1.tried
               (snd (Iteration1.brute_force_numeric (Opens z) max_length self))
             = (Iteration1.tried self ++ attempted)%list)
  /\ Iteration1.numeric_candidates max_length
     = flat_map (fun len => List.map (decimal len) (seq 0 (10 ^ len)))
                (seq 1 (Z.to_nat max_length))
  /\ Iteration1.numeric_candidates 2
     = (List.map (decimal 1) (seq 0 10) ++ List.map (decimal 2) (seq 0 100))%list
  /\ List.length (Iteration1.numeric_candidates 2) = 110.
Proof.
  split; [apply in_numeric_candidates|].
  split; [apply numeric_candidates_sorted|].
  split; [|split; [apply numeric_candidates_decimal|split; reflexivity]].
  intros z self. unfold Iteration1.brute_force_numeric.
  destruct (numeric_outer_tried z (PyStr.range 1 (max_length + 1))
              (Iteration1.reset_attempts self)) as [att [rest [Heq Ht]]].
  exists att, rest. split; [exact Heq|exact Ht].
Qed.

(** ** The pattern expansion *)

Section PatternFacts.

Lemma chars_map (f : ascii -> ascii) (s : string) :
  list_ascii_of_string (PyStr.map f s) = List.map f (list_ascii_of_string s).
Proof. induction s; simpl; congruence. Qed.

(** [replace] substitutes every occurrence of [old], and nothing else. *)
Lemma replace_chars (old new : ascii) (s : string) :
  list_ascii_of_string (PyStr.replace old new s)
  = List.map (fun c => if Ascii.eqb c old then new else c)
             (list_ascii_of_string s).
Proof. apply chars_map. Qed.

Lemma replace_absent (old new : ascii) (s : string) :
  ~ In old (list_ascii_of_string s) -> PyStr.replace old new s = s.
Proof.
  unfold PyStr.replace.
  induction s as [|c s IH]; simpl; intros H; [reflexivity|].
  destruct (Ascii.eqb_spec c old) as [->|_].
  - exfalso; apply H; now left.
  - rewrite IH; [reflexivity|]. intros Hin; apply H; now right.
Qed.

Lemma replace_present (old new : ascii) (s : string) :
  old <> new -> In old (list_ascii_of_string s) ->
  ~ In old (list_ascii_of_string (PyStr.replace old new s))
  /\ In new (list_ascii_of_string (PyStr.replace old new s)).
Proof.
  intros Hne Hin. rewrite replace_chars. split.
  - intros H. apply in_map_iff in H as [c [Hc _]].
    destruct (Ascii.eqb_spec c old); congruence.
  - apply in_map_iff. exists old. now rewrite Ascii.eqb_refl.
Qed.

Lemma chars_reversed (s : string) :
  list_ascii_of_string (PyStr.reversed s) = rev (list_ascii_of_string s).
Proof. apply list_ascii_of_string_of_list_ascii. Qed.

Lemma reversed_involutive (s : string) :
  PyStr.reversed (PyStr.reversed s) = s.
Proof.
  unfold PyStr.reversed at 1. rewrite chars_reversed, rev_involutive.
  apply string_of_list_ascii_of_string.
Qed.

Lemma upper_char_not_lower (c : ascii) :
  PyStr.is_lower (PyStr.upper_char c) = false.
Proof. destruct c as [[] [] [] [] [] [] [] []]; reflexivity. Qed.

Lemma lower_char_not_upper (c : ascii) :
  PyStr.is_upper (PyStr.lower_char c) = false.
Proof. destruct c as [[] [] [] [] [] [] [] []]; reflexivity. Qed.

(** [s.upper()] leaves no lower-case letter, [s.lower()] no upper-case
    one. *)
Lemma upper_no_lower (s : string) :
  Forall (fun c => PyStr.is_lower c = false)
         (list_ascii_of_string (PyStr.upper s)).
Proof.
  induction s; simpl; constructor; [apply upper_char_not_lower|assumption].
Qed.

Lemma lower_no_upper (s : string) :
  Forall (fun c => PyStr.is_upper c = false)
         (list_ascii_of_string (PyStr.lower s)).
Proof.
  induction s; simpl; constructor; [apply lower_char_not_upper|assumption].
Qed.

End PatternFacts.

(** C3.  With variations enabled, the candidates of
    [pattern_based_attack] for a base word [w] include [w] itself, [w]
    in upper case, in lower case and capitalized, [w] followed by "1",
    by "123" and by the years "2023" and "2024", [w] preceded by the
    digit "1", [w] followed by "!" and by "@", [w] with a replaced by @,
    with o replaced by 0, with e replaced by 3 and with i replaced by 1,
    and [w] reversed; and these candidates are the word list the attack
    runs [dictionary_attack] on. *)
Theorem pattern_expansion_candidates (w : string) :
  let candidates := Iteration1.patterns w true in
  In w candidates
  /\ In (PyStr.upper w) candidates
  /\ In (PyStr.lower w) candidates
  /\ In (PyStr.capitalize w) candidates
  /\ In (w ++ "1") candidates
  /\ In (w ++ "123") candidates
  /\ In (w ++ "2023") candidates
  /\ In (w ++ "2024") candidates
  /\ In ("1" ++ w) candidates
  /\ In (w ++ "!") candidates
  /\ In (w ++ "@") candidates
  /\ In (PyStr.replace "a" "@" w) candidates
  /\ In (PyStr.replace "o" "0" w) candidates
  /\ In (PyStr.replace "e" "3" w) candidates
  /\ In (PyStr.replace "i" "1" w) candidates
  /\ In (PyStr.reversed w) candidates
  /\ (forall zip_file_path self,
        Iteration1.pattern_based_attack zip_file_path w true self
        = Iteration1.dictionary_attack zip_file_path (Some candidates) self).
Proof.
  cbv zeta. unfold Iteration1.patterns, Iteration1.pattern_based_attack.
  cbn [List.app In].
  repeat (split; [tauto|]). reflexivity.
Qed.

(** ** What the scanners of [MultiLayerZipCracker] leave alone *)

Section Iteration2Frame.
Import Iteration2.

Lemma erase_print (e : event) (self : cracker) :
  erase (print e self) = erase self.
Proof. reflexivity. Qed.

Lemma erase_fields (s1 s2 : cracker) :
  erase s1 = erase s2 ->
  layer_count s1 = layer_count s2
  /\ extracted_hints s1 = extracted_hints s2
  /\ password_history s1 = password_history s2
  /\ tried s1 = tried s2
  /\ disk s1 = disk s2.
Proof. unfold erase. intros H. injection H. auto. Qed.

Lemma printed_print (e e' : event) (self : cracker) :
  In e (printed self) -> In e (printed (print e' self)).
Proof. simpl. intros; apply in_or_app; auto. Qed.

Lemma decode_loop_erase (ms : list string) (self : cracker) :
  erase (decode_loop ms self) = erase self.
Proof.
  revert self; induction ms as [|m ms IH]; intros self; simpl; [reflexivity|].
  destruct (Base64.b64decode_utf8 m); rewrite IH; reflexivity.
Qed.

Lemma decode_loop_printed (ms : list string) (self : cracker) (e : event) :
  In e (printed self) -> In e (printed (decode_loop ms self)).
Proof.
  revert self; induction ms as [|m ms IH]; intros self H; simpl; [assumption|].
  destruct (Base64.b64decode_utf8 m); apply IH; [apply printed_print|]; assumption.
Qed.

Lemma coord_loop_erase (ms : list (string * string)) (self : cracker) :
  erase (coord_loop ms self) = erase self.
Proof.
  revert self; induction ms as [|[lat lon] ms IH]; intros self; simpl;
    [reflexivity|].
  rewrite IH. destruct (paris lat lon); reflexivity.
Qed.

Lemma coord_loop_printed (ms : list (string * string)) (self : cracker)
  (e : event) :
  In e (printed self) -> In e (printed (coord_loop ms self)).
Proof.
  revert self; induction ms as [|[lat lon] ms IH]; intros self H; simpl;
    [assumption|].
  apply IH. destruct (paris lat lon); repeat apply printed_print; assumption.
Qed.

Lemma scan_text_erase (content : string) (self : cracker) :
  erase (scan_text content self) = with_hint content (erase self).
Proof.
  unfold scan_text, extract_coordinates, decode_base64_hints, with_hint.
  rewrite coord_loop_erase, decode_loop_erase.
  destruct (hint_section content); reflexivity.
Qed.

Lemma scan_text_printed (content : string) (self : cracker) (e : event) :
  In e (printed self) -> In e (printed (scan_text content self)).
Proof.
  intros H. unfold scan_text, extract_coordinates, decode_base64_hints.
  apply coord_loop_printed, decode_loop_printed.
  destruct (hint_section content); simpl; repeat (apply in_or_app; left);
    assumption.
Qed.

Lemma with_hint_erase (content : string) (s1 s2 : cracker) :
  erase s1 = erase s2 ->
  with_hint content (erase s1) = with_hint content (erase s2).
Proof. now intros ->. Qed.

Lemma process_files_erase (files : directory) (s1 s2 : cracker) :
  erase s1 = erase s2 ->
  fst (process_files files s1) = fst (process_files files s2)
  /\ erase (snd (process_files files s1))
     = erase (snd (process_files files s2)).
Proof.
  revert s1 s2; induction files as [|[file_path data] files IH];
    intros s1 s2 H; simpl; [auto|].
  destruct (String.eqb (suffix file_path) ".txt").
  - destruct data; apply IH; rewrite ?scan_text_erase, ?erase_print;
      rewrite ?H; reflexivity.
  - destruct (String.eqb (suffix file_path) ".zip"); simpl.
    + split; [reflexivity|]. now rewrite !erase_print.
    + apply IH. now rewrite !erase_print.
Qed.

(** The walk touches only the log and the hints. *)
Lemma process_files_frame (files : directory) (self : cracker) :
  let out := snd (process_files files self) in
  layer_count out = layer_count self
  /\ password_history out = password_history self
  /\ tried out = tried self
  /\ disk out = disk self
  /\ (forall e, In e (printed self) -> In e (printed out)).
Proof.
  cbv zeta. revert self; induction files as [|[file_path data] files IH];
    intros self; simpl; [auto 6|].
  assert (Hscan :
    forall content,
      let s := scan_text content (print (FoundFile (name file_path)) self) in
      layer_count s = layer_count self
      /\ password_history s = password_history self
      /\ tried s = tried self /\ disk s = disk self).
  { intros content s.
    destruct (erase_fields s (with_hint content (erase self)))
      as [H1 [_ [H3 [H4 H5]]]].
    { subst s. rewrite scan_text_erase, erase_print. unfold with_hint.
      destruct (hint_section content); reflexivity. }
    rewrite H1, H3, H4, H5. unfold with_hint.
    destruct (hint_section content); auto. }
  destruct (String.eqb (suffix file_path) ".txt").
  - destruct data as [content| |z].
    + match goal with |- context [process_files files ?s] =>
        destruct (IH s) as [H1 [H2 [H3 [H4 H5]]]] end.
      destruct (Hscan content) as [G1 [G2 [G3 G4]]].
      rewrite H1, H2, H3, H4. repeat split; try assumption.
      intros e He. apply H5, scan_text_printed, printed_print, He.
    + match goal with |- context [process_files files ?s] =>
        destruct (IH s) as [H1 [H2 [H3 [H4 H5]]]] end.
      rewrite H1, H2, H3, H4. repeat split.
      intros e He. apply H5. repeat apply printed_print. exact He.
    + match goal with |- context [process_files files ?s] =>
        destruct (IH s) as [H1 [H2 [H3 [H4 H5]]]] end.
      rewrite H1, H2, H3, H4. repeat split.
      intros e He. apply H5. repeat apply printed_print. exact He.
  - destruct (String.eqb (suffix file_path) ".zip"); simpl.
    + repeat split. intros e He. repeat (apply in_or_app; left). exact He.
    + match goal with |- context [process_files files ?s] =>
        destruct (IH s) as [H1 [H2 [H3 [H4 H5]]]] end.
      rewrite H1, H2, H3, H4. repeat split.
      intros e He. apply H5. repeat apply printed_print. exact He.
Qed.

End Iteration2Frame.

(** ** The attempt loops *)

Section AttemptLoops.
#[local] Arguments Nat.modulo : simpl never.

Lemma dictionary_loop_skips (z : archive) (before rest : list string)
  (self : Iteration1.cracker) :
  Forall (rejects z) before ->
  exists self',
    Iteration1.dictionary_loop z (before ++ rest) self
    = Iteration1.dictionary_loop z rest self'
    /\ Iteration1.attempts self'
       = Iteration1.attempts self + List.length before
    /\ Iteration1.tried self' = (Iteration1.tried self ++ before)%list
    /\ (forall e, In e (Iteration1.printed self) ->
                  In e (Iteration1.printed self')).
Proof.
  revert self; induction before as [|q before IH]; intros self Hrej.
  - exists self. simpl. rewrite app_nil_r, Nat.add_0_r. auto.
  - inversion Hrej as [|? ? [e [He Hw]] Hrej']; subst. simpl.
    rewrite He, Hw.
    match goal with |- context [Iteration1.dictionary_loop z _ ?s] =>
      destruct (IH s Hrej') as [self' [Heq [Ha [Ht Hp]]]] end.
    exists self'. split; [exact Heq|]. simpl in Ha, Ht.
    split; [lia|]. split; [now rewrite Ht, <- app_assoc|].
    intros ev Hev. apply Hp. simpl. apply in_or_app; auto.
Qed.

Lemma try_loop_skips (z : archive) (total i : nat)
  (before rest : list string) (self : Iteration2.cracker) :
  Forall (rejects z) before ->
  exists self',
    Iteration2.try_loop z total i (before ++ rest) self
    = Iteration2.try_loop z total (i + List.length before) rest self'
    /\ Iteration2.layer_count self' = Iteration2.layer_count self
    /\ Iteration2.extracted_hints self' = Iteration2.extracted_hints self
    /\ Iteration2.password_history self' = Iteration2.password_history self
    /\ Iteration2.tried self' = (Iteration2.tried self ++ before)%list
    /\ (forall e, In e (Iteration2.printed self) ->
                  In e (Iteration2.printed self')).
Proof.
  revert i self; induction before as [|q before IH]; intros i self Hrej.
  - exists self. simpl. rewrite app_nil_r, Nat.add_0_r. auto 6.
  - inversion Hrej as [|? ? [e [He Hw]] Hrej']; subst. simpl.
    destruct (extractall z q) as [written raised]. simpl in He. subst raised.
    rewrite Hw.
    match goal with |- context [Iteration2.try_loop z total (S i) _ ?s] =>
      destruct (IH (S i) s Hrej') as [self' [Heq [Hl [Hh [Hp [Ht Hpr]]]]]] end.
    exists self'. rewrite Heq. replace (i + S (List.length before))
      with (S i + List.length before) by lia.
    split; [reflexivity|].
    destruct (Nat.eqb (i mod 50) 0); simpl in *;
      (split; [exact Hl|]; split; [exact Hh|]; split; [exact Hp|];
       split; [now rewrite Ht, <- app_assoc|]);
      intros ev Hev; apply Hpr; auto using in_or_app.
Qed.

End AttemptLoops.



(** ** Extraction directories *)

Section DiskFacts.
Import Iteration2.
#[local] Arguments Nat.modulo : simpl never.

Lemma lookup_store_same (k : nat) (files : directory)
  (d : list (nat * directory)) :
  lookup_dir k (store_dir k files d) = Some files.
Proof.
  induction d as [|[k' files'] d IH]; simpl.
  - now rewrite Nat.eqb_refl.
  - destruct (Nat.eqb k k') eqn:E; simpl; rewrite ?Nat.eqb_refl, ?E; auto.
Qed.

Lemma lookup_store_other (k k' : nat) (files : directory)
  (d : list (nat * directory)) :
  k' <> k -> lookup_dir k' (store_dir k files d) = lookup_dir k' d.
Proof.
  intros Hne. induction d as [|[k0 files0] d IH]; simpl.
  - destruct (Nat.eqb_spec k' k); [contradiction|reflexivity].
  - destruct (Nat.eqb_spec k k0) as [->|Hk]; simpl.
    + destruct (Nat.eqb_spec k' k0); [contradiction|reflexivity].
    + destruct (Nat.eqb k' k0); [reflexivity|exact IH].
Qed.

Lemma lookup_mkdir_other (k k' : nat) (d : list (nat * directory)) :
  k' <> k -> lookup_dir k' (mkdir k d) = lookup_dir k' d.
Proof.
  intros Hne. unfold mkdir. destruct (lookup_dir k d); [reflexivity|].
  now apply lookup_store_other.
Qed.

Lemma listing_mkdir (k : nat) (d : list (nat * directory)) :
  listing k (mkdir k d) = listing k d.
Proof.
  unfold mkdir, listing. destruct (lookup_dir k d) eqn:E.
  - now rewrite E.
  - now rewrite lookup_store_same.
Qed.

Lemma listing_extract_into (k : nat) (written : list entry)
  (d : list (nat * directory)) :
  listing k (extract_into k written d) = write_files written (listing k d).
Proof. unfold extract_into, listing at 1. now rewrite lookup_store_same. Qed.

Lemma lookup_extract_into_other (k k' : nat) (written : list entry)
  (d : list (nat * directory)) :
  k' <> k -> lookup_dir k' (extract_into k written d) = lookup_dir k' d.
Proof. intros. unfold extract_into. now apply lookup_store_other. Qed.

Lemma write_file_names (e : entry) (files : directory) (n : string) :
  In n (List.map fst (write_file e files)) <->
  n = fst e \/ In n (List.map fst files).
Proof.
  induction files as [|f files IH]; simpl.
  - intuition.
  - destruct (String.eqb_spec (fst f) (fst e)) as [E|E]; simpl.
    + rewrite E. intuition.
    + rewrite IH. intuition.
Qed.

Lemma write_files_names (written : list entry) (files : directory)
  (n : string) :
  In n (List.map fst (write_files written files)) <->
  In n (List.map fst written) \/ In n (List.map fst files).
Proof.
  unfold write_files. revert files.
  induction written as [|e written IH]; intros files; simpl.
  - intuition.
  - rewrite IH, write_file_names. intuition.
Qed.

Lemma after_round_names (k : nat) (written : list entry)
  (d : list (nat * directory)) (n : string) :
  In n (names k (after_round k written d)) <->
  In n (List.map fst written) \/ In n (names k d).
Proof.
  unfold names, after_round.
  now rewrite listing_extract_into, write_files_names, listing_mkdir.
Qed.

Lemma after_round_exists (k : nat) (written : list entry)
  (d : list (nat * directory)) :
  lookup_dir k (after_round k written d) <> None.
Proof.
  unfold after_round, extract_into. now rewrite lookup_store_same.
Qed.

Lemma after_round_other (k k' : nat) (written : list entry)
  (d : list (nat * directory)) :
  k' <> k -> lookup_dir k' (after_round k written d) = lookup_dir k' d.
Proof.
  intros H. unfold after_round.
  now rewrite lookup_extract_into_other, lookup_mkdir_other.
Qed.

(** What the attempt loop does to its directory: it keeps every file
    that was there, keeps every file any attempt wrote, and leaves the
    other directories alone. *)
Lemma try_loop_disk (z : archive) (total : nat) (candidates : list string) :
  forall (i : nat) (self : cracker),
    let k := layer_count self in
    let out := snd (try_loop z total i candidates self) in
    (forall n, In n (names k (disk self)) -> In n (names k (disk out)))
    /\ (exists attempted rest,
           candidates = (attempted ++ rest)%list
           /\ tried out = (tried self ++ attempted)%list
           /\ forall p e, In p attempted -> In e (fst (extractall z p)) ->
                          In (fst e) (names k (disk out)))
    /\ (lookup_dir k (disk self) <> None -> lookup_dir k (disk out) <> None)
    /\ (candidates <> [] -> lookup_dir k (disk out) <> None)
    /\ (forall k', k' <> k ->
                   lookup_dir k' (disk out) = lookup_dir k' (disk self)).
Proof.
  induction candidates as [|password rest IH]; intros i self k out.
  - subst out; simpl. split; [auto|]. split.
    + exists [], []. simpl. rewrite app_nil_r. repeat split. intros ? ? [].
    + split; [auto|]. split; [congruence|auto].
  - subst out. simpl.
    destruct (extractall z password) as [written raised] eqn:Hx.
    fold (after_round (layer_count self) written (disk self)).
    set (d1 := after_round (layer_count self) written (disk self)).
    assert (Hn : forall n, In n (names k (disk self)) -> In n (names k d1)).
    { intros n Hn. apply after_round_names. now right. }
    assert (Hwr : forall e, In e written -> In (fst e) (names k d1)).
    { intros e He. apply after_round_names. left. now apply in_map. }
    assert (He1 : lookup_dir k d1 <> None) by apply after_round_exists.
    assert (Ho : forall k', k' <> k ->
                            lookup_dir k' d1 = lookup_dir k' (disk self)).
    { intros k' Hk. now apply after_round_other. }
    destruct raised as [e|].
    + destruct (wrong_password e).
      * match goal with |- context [try_loop z total (S i) rest ?s] =>
          specialize (IH (S i) s);
          assert (Hd : disk s = d1) by (destruct (Nat.eqb (i mod 50) 0); reflexivity);
          assert (Hk : layer_count s = k) by (destruct (Nat.eqb (i mod 50) 0); reflexivity);
          assert (Ht : tried s = (tried self ++ [password])%list)
            by (destruct (Nat.eqb (i mod 50) 0); reflexivity)
        end.
        cbv zeta in IH. rewrite Hd, Hk, Ht in IH.
        destruct IH as [Ia [[att [rst [Ic [It Iw]]]] [Ie [_ Io]]]].
        split; [auto|]. split.
        { exists (password :: att), rst. split; [simpl; congruence|].
          split; [now rewrite It, <- app_assoc|].
          intros p e' [<-|Hp] He'.
          - apply Ia, Hwr. now rewrite Hx in He'.
          - now apply (Iw p). }
        split; [auto|]. split; [auto|].
        intros k' Hk'. now rewrite Io, Ho.
      * simpl. split; [auto|]. split.
        { exists [password], rest. repeat split.
          intros p e' [<-|[]] He'. apply Hwr. now rewrite Hx in He'. }
        split; [auto|]. split; [auto|auto].
    + unfold process_extracted_content.
      match goal with |- context [process_files ?f ?s] =>
        destruct (process_files_frame f s) as [_ [_ [Hpt [Hpd _]]]];
        destruct (process_files f s) as [found out] end.
      simpl in *. rewrite Hpd, Hpt. split; [auto|]. split.
      { exists [password], rest. repeat split.
        intros p e' [<-|[]] He'. apply Hwr. now rewrite Hx in He'. }
      split; [auto|]. split; [auto|auto].
Qed.

End DiskFacts.

(** ** Empty candidate sequences *)

(** C4, as stated, fails for [dictionary_attack]: on an empty word list
    it does not report an immediate failure with no attempt; it runs the
    built-in list, here finding the password at its first attempt. *)
Lemma empty_wordlist_is_replaced :
  let out :=
    Iteration1.dictionary_attack (Opens password_zip) (Some [])
      Iteration1.fresh in
  fst out = Iteration1.Returns (Some "password")
  /\ Iteration1.attempts (snd out) = 1
  /\ ~ (fst out = Iteration1.Returns None
        /\ Iteration1.attempts (snd out) = 0).
Proof.
  cbv zeta. split; [reflexivity|]. split; [reflexivity|].
  intros [H _]. discriminate H.
Qed.

(** C4, amended.  For every archive path, [try_passwords] called with an
    empty candidate sequence returns the failure result, hands no
    password to the archive and leaves hints, history and disk as they
    were; [dictionary_attack] called with an empty word list behaves as
    when no word list is given, that is, it runs the built-in common
    passwords. *)
Theorem empty_candidates (zip_path : target) :
  (forall self,
      let out := Iteration2.try_passwords zip_path [] self in
      fst out = (None, None)
      /\ Iteration2.tried (snd out) = Iteration2.tried self
      /\ Iteration2.disk (snd out) = Iteration2.disk self
      /\ Iteration2.extracted_hints (snd out) = Iteration2.extracted_hints self
      /\ Iteration2.password_history (snd out)
         = Iteration2.password_history self)
  /\ (forall self,
        Iteration1.dictionary_attack zip_path (Some []) self
        = Iteration1.dictionary_attack zip_path None self)
  /\ (forall self,
        Iteration1.dictionary_attack zip_path (Some []) self
        = Iteration1.dictionary_attack zip_path
            (Some Iteration1.common_passwords) self).
Proof.
  split; [|split].
  - intros self out; subst out. destruct zip_path; simpl; auto 6.
  - intros self. destruct zip_path; reflexivity.
  - intros self. destruct zip_path; reflexivity.
Qed.

(** ** Archives that cannot be opened *)

Section Exhaustion.
#[local] Arguments Nat.modulo : simpl never.

(** When every candidate is rejected, the loops try them all and
    report the exhaustion of the candidates. *)
Lemma try_passwords_exhausted (z : archive) (candidates : list string)
  (self : Iteration2.cracker) :
  Forall (rejects z) candidates ->
  let out := Iteration2.try_passwords (Opens z) candidates self in
  fst out = (None, None)
  /\ Iteration2.tried (snd out) = (Iteration2.tried self ++ candidates)%list
  /\ In (Iteration2.FailedToCrack (List.length candidates))
        (Iteration2.printed (snd out)).
Proof.
  intros Hrej out; subst out. unfold Iteration2.try_passwords.
  match goal with |- context [Iteration2.try_loop z ?t 1 _ ?s] =>
    destruct (try_loop_skips z t 1 candidates [] s Hrej)
      as [self' [Heq [_ [_ [_ [Ht _]]]]]] end.
  rewrite app_nil_r in Heq. rewrite Heq. simpl.
  split; [reflexivity|]. split; [exact Ht|].
  apply in_or_app. right. now left.
Qed.

Lemma dictionary_attack_exhausted (z : archive) (w : string)
  (ws : list string) (self : Iteration1.cracker) :
  Forall (rejects z) (w :: ws) ->
  let out := Iteration1.dictionary_attack (Opens z) (Some (w :: ws)) self in
  fst out = Iteration1.Returns None
  /\ Iteration1.attempts (snd out) = S (List.length ws)
  /\ Iteration1.tried (snd out) = (Iteration1.tried self ++ w :: ws)%list
  /\ In (Iteration1.DictionaryFailed (S (List.length ws)))
        (Iteration1.printed (snd out)).
Proof.
  intros Hrej out; subst out. unfold Iteration1.dictionary_attack.
  cbn [Iteration1.wordlist_or_common].
  match goal with |- context [Iteration1.dictionary_loop z _ ?s] =>
    destruct (dictionary_loop_skips z (w :: ws) [] s Hrej)
      as [self' [Heq [Ha [Ht _]]]] end.
  rewrite app_nil_r in Heq. rewrite Heq. simpl in *.
  split; [reflexivity|]. split; [exact Ha|]. split; [exact Ht|].
  apply in_or_app. right. rewrite Ha. now left.
Qed.

End Exhaustion.


(** ** What a failed attempt leaves behind *)

(** C10, as stated, fails: after the single candidate "wrong" was
    rejected and the loop reported its failure, the extraction directory
    exists and still holds the file the failed attempt wrote. *)
Lemma failed_attempt_leaves_output :
  let out :=
    Iteration2.try_passwords (Opens mixed_zip) ["wrong"]
      (Iteration2.fresh []) in
  fst out = (None, None)
  /\ Iteration2.lookup_dir 0 (Iteration2.disk (snd out))
     = Some [("deeper.zip", Binary)]
  /\ Iteration2.listing 0 (Iteration2.disk (snd out)) <> [].
Proof.
  cbv zeta. split; [reflexivity|]. split; [reflexivity|]. discriminate.
Qed.

(** C10, amended.  [try_passwords] removes nothing.  The extraction
    directory of the current layer is created, if absent, at every
    attempt, so that it exists after the loop whenever there was a
    candidate; every file that was in it stays; every entry written by
    an attempt, failed or successful, stays; and the other directories
    are as they were. *)
Theorem try_passwords_keeps_all_output (z : archive)
  (candidates : list string) (self : Iteration2.cracker) :
  let k := Iteration2.layer_count self in
  let out := snd (Iteration2.try_passwords (Opens z) candidates self) in
  (forall n, In n (names k (Iteration2.disk self)) ->
             In n (names k (Iteration2.disk out)))
  /\ (exists attempted rest,
         candidates = (attempted ++ rest)%list
         /\ Iteration2.tried out = (Iteration2.tried self ++ attempted)%list
         /\ forall p e, In p attempted -> In e (fst (extractall z p)) ->
                        In (fst e) (names k (Iteration2.disk out)))
  /\ (candidates = [] \/ Iteration2.lookup_dir k (Iteration2.disk out) <> None)
  /\ (forall k', k' <> k ->
                 Iteration2.lookup_dir k' (Iteration2.disk out)
                 = Iteration2.lookup_dir k' (Iteration2.disk self)).
Proof.
  cbv zeta. unfold Iteration2.try_passwords.
  match goal with |- context [Iteration2.try_loop z ?t 1 candidates ?s] =>
    destruct (try_loop_disk z t candidates 1 s) as [Ha [Hb [_ [Hc Hd]]]] end.
  cbn [Iteration2.print Iteration2.layer_count Iteration2.disk
       Iteration2.tried] in *.
  split; [exact Ha|]. split; [exact Hb|]. split; [|exact Hd].
  destruct candidates as [|c cs]; [now left|right]. apply Hc. discriminate.
Qed.

(** ** The hint and the choice of candidates *)

Section HintIrrelevance.
Import Iteration2.
#[local] Arguments Nat.modulo : simpl never.

(** The attempt loop does not read the log. *)
Lemma try_loop_erase (z : archive) (total : nat) (candidates : list string) :
  forall (i : nat) (s1 s2 : cracker),
    erase s1 = erase s2 ->
    fst (try_loop z total i candidates s1)
    = fst (try_loop z total i candidates s2)
    /\ erase (snd (try_loop z total i candidates s1))
       = erase (snd (try_loop z total i candidates s2)).
Proof.
  induction candidates as [|password rest IH];
    intros i [l1 h1 ph1 p1 t1 d1] [l2 h2 ph2 p2 t2 d2] H;
    injection H as -> -> -> -> ->; simpl.
  - split; reflexivity.
  - destruct (extractall z password) as [written [e|]].
    + destruct (wrong_password e).
      * apply IH. destruct (Nat.eqb (i mod 50) 0); reflexivity.
      * split; reflexivity.
    + unfold process_extracted_content. simpl.
      match goal with
        |- fst (let (_, _) := process_files ?f ?a in _)
           = fst (let (_, _) := process_files ?f ?b in _) /\ _ =>
          destruct (process_files_erase f a b eq_refl) as [_ He];
          destruct (process_files f a), (process_files f b)
      end.
      simpl in *. split; [reflexivity|exact He].
Qed.

Lemma try_passwords_erase (zip_path : target) (candidates : list string)
  (s1 s2 : cracker) :
  erase s1 = erase s2 ->
  fst (try_passwords zip_path candidates s1)
  = fst (try_passwords zip_path candidates s2)
  /\ erase (snd (try_passwords zip_path candidates s1))
     = erase (snd (try_passwords zip_path candidates s2)).
Proof.
  intros H. unfold try_passwords. destruct zip_path as [|e|z].
  - simpl. split; [reflexivity|]. now rewrite !erase_print.
  - simpl. split; [reflexivity|]. now rewrite !erase_print.
  - apply try_loop_erase. now rewrite !erase_print.
Qed.

(** Showing and scanning the hint changes the log only. *)
Lemma hint_scan_erase (hint_text : string) (self : cracker) :
  erase
    match hint_text with
    | EmptyString => self
    | _ =>
        extract_coordinates hint_text
          (decode_base64_hints hint_text
             (print (AvailableHint (PyStr.take 100 hint_text)) self))
    end
  = erase self.
Proof.
  destruct hint_text; [reflexivity|].
  unfold extract_coordinates, decode_base64_hints.
  now rewrite coord_loop_erase, decode_loop_erase, erase_print.
Qed.

End HintIrrelevance.

(** C9, as stated, fails: at layer 2 the passwords tried with a hint
    that spells the password out are those tried with no hint at all,
    the knowledge-based list, and the archive stays locked. *)
Lemma hint_changes_no_candidate :
  let hinted :=
    Iteration2.intelligent_crack_layer (Opens locked_zip) 2
      "HINT: the password is zzz" (Iteration2.fresh []) in
  let unhinted :=
    Iteration2.intelligent_crack_layer (Opens locked_zip) 2
      "" (Iteration2.fresh []) in
  Iteration2.tried (snd hinted) = Iteration2.generate_knowledge_passwords
  /\ Iteration2.tried (snd unhinted) = Iteration2.generate_knowledge_passwords
  /\ fst hinted = (None, None)
  /\ ~ (Iteration2.tried (snd hinted) <> Iteration2.tried (snd unhinted)).
Proof.
  cbv zeta. split; [vm_compute; reflexivity|].
  split; [vm_compute; reflexivity|]. split; [vm_compute; reflexivity|].
  intros H. apply H. vm_compute. reflexivity.
Qed.

(** C9, amended.  At every layer the candidate sequence is chosen by the
    layer number alone: the simple list at layer 1, the knowledge-based
    list at layer 2, the combinatorial list at every other layer.  The
    hint passed to the layer is shown and scanned, which adds to the log
    only: the result, the passwords tried, the hints, the history and
    the disk are those of [try_passwords] on the layer's list, whatever
    the hint text. *)
Theorem candidates_chosen_by_layer_alone (zip_path : target)
  (layer_num : nat) (hint_text : string) (self : Iteration2.cracker) :
  let out :=
    Iteration2.intelligent_crack_layer zip_path layer_num hint_text self in
  let plain :=
    Iteration2.try_passwords zip_path
      (Iteration2.layer_candidates layer_num) self in
  fst out = fst plain
  /\ Iteration2.tried (snd out) = Iteration2.tried (snd plain)
  /\ Iteration2.extracted_hints (snd out)
     = Iteration2.extracted_hints (snd plain)
  /\ Iteration2.password_history (snd out)
     = Iteration2.password_history (snd plain)
  /\ Iteration2.disk (snd out) = Iteration2.disk (snd plain)
  /\ Iteration2.layer_candidates 1 = Iteration2.generate_simple_passwords
  /\ Iteration2.layer_candidates 2 = Iteration2.generate_knowledge_passwords
  /\ Iteration2.layer_candidates 0 = Iteration2.generate_complex_passwords
  /\ (forall n, Iteration2.layer_candidates (3 + n)
                = Iteration2.generate_complex_passwords).
Proof.
  cbv zeta. unfold Iteration2.intelligent_crack_layer.
  destruct (try_passwords_erase zip_path
              (Iteration2.layer_candidates layer_num) _ self
              (hint_scan_erase hint_text self)) as [Hf He].
  apply erase_fields in He as [_ [Hh [Hp [Ht Hd]]]].
  repeat (split; [assumption || reflexivity|]). reflexivity.
Qed.

(** ** Hint sections *)

Section HintFacts.







End HintFacts.



(** ** Pattern matching *)

Section ReFacts.

Lemma all_in_nil (cls : ascii -> bool) : all_in cls "".
Proof. constructor. Qed.

Lemma all_in_cons (cls : ascii -> bool) (c : ascii) (s : string) :
  all_in cls (String c s) <-> cls c = true /\ all_in cls s.
Proof.
  unfold all_in; simpl. split.
  - intros H; inversion H; auto.
  - intros [H1 H2]; constructor; auto.
Qed.

Lemma all_in_append (cls : ascii -> bool) (s t : string) :
  all_in cls (s ++ t) <-> all_in cls s /\ all_in cls t.
Proof.
  induction s as [|c s IH]; simpl.
  - split; [intros H; split; [apply all_in_nil|exact H]|intros [_ H]; exact H].
  - rewrite !all_in_cons, IH. tauto.
Qed.

Lemma text_of_cons (t : string) (parts : list string) :
  Re.text_of (t :: parts) = t ++ Re.text_of parts.
Proof.
  unfold Re.text_of. destruct parts as [|u parts]; simpl.
  - now rewrite append_empty_r.
  - reflexivity.
Qed.


Lemma within_hi_pred (hi : option nat) (n : nat) :
  Re.room hi = true ->
  within_hi (option_map pred hi) n <-> within_hi hi (S n).
Proof.
  destruct hi as [[|h]|]; simpl; intros H; try discriminate; [lia|tauto].
Qed.

Lemma within_hi_room (hi : option nat) (n : nat) :
  within_hi hi (S n) -> Re.room hi = true.
Proof. destruct hi as [[|h]|]; simpl; intros; [lia|reflexivity|reflexivity]. Qed.

(** [spans] lists exactly the admissible splits. *)
Lemma in_spans (cls : ascii -> bool) (hi : option nat) (s t r : string) :
  In (t, r) (Re.spans cls hi s) <->
  s = t ++ r /\ all_in cls t /\ within_hi hi (String.length t).
Proof.
  revert hi t r; induction s as [|c s IH]; intros hi t r; simpl.
  - split.
    + intros [[= <- <-]|[]]. repeat split; [apply all_in_nil|].
      destruct hi; simpl; lia.
    + intros [H _]. destruct t; [|discriminate]. simpl in H. subst r. now left.
  - destruct (cls c) eqn:Hc; simpl.
    + destruct (Re.room hi) eqn:Hr.
      * rewrite in_app_iff, in_map_iff. split.
        -- intros [[[t' r'] [[= <- <-] Hin]]|[[= <- <-]|[]]].
           ++ apply IH in Hin as [-> [Ha Hw]]. simpl.
              repeat split; [apply all_in_cons; auto|].
              now apply within_hi_pred.
           ++ repeat split; [apply all_in_nil|]. destruct hi; simpl; lia.
        -- intros [Hs [Ha Hw]]. destruct t as [|a t].
           ++ right. left. simpl in Hs. now subst r.
           ++ left. simpl in Hs. injection Hs as <- ->.
              apply all_in_cons in Ha as [_ Ha].
              exists (t, r). split; [reflexivity|]. apply IH.
              repeat split; [assumption|]. now apply within_hi_pred.
      * split.
        -- intros [[= <- <-]|[]]. repeat split; [apply all_in_nil|].
           destruct hi; simpl; lia.
        -- intros [Hs [Ha Hw]]. destruct t as [|a t].
           ++ left. simpl in Hs. now subst r.
           ++ simpl in Hw. apply within_hi_room in Hw. congruence.
    + split.
      * intros [[= <- <-]|[]]. repeat split; [apply all_in_nil|].
        destruct hi; simpl; lia.
      * intros [Hs [Ha Hw]]. destruct t as [|a t].
        -- left. simpl in Hs. now subst r.
        -- simpl in Hs. injection Hs as <- ->.
           apply all_in_cons in Ha as [Ha _]. congruence.
Qed.

(** [match_seq] lists exactly the ways the pieces can consume a prefix. *)
Lemma in_match_seq (ps : list Re.piece) (s : string) (parts : list string)
  (rest : string) :
  In (parts, rest) (Re.match_seq ps s) <->
  s = Re.text_of parts ++ rest /\ Forall2 piece_ok ps parts.
Proof.
  revert s parts rest; induction ps as [|p ps IH]; intros s parts rest; simpl.
  - split.
    + intros [[= <- <-]|[]]. split; [reflexivity|constructor].
    + intros [Hs H]. inversion H; subst. now left.
  - rewrite in_flat_map. split.
    + intros [[t r] [Hin Hm]]. simpl in Hm. apply in_spans in Hin as [-> [Ha Hw]].
      destruct (Nat.leb_spec (Re.lo p) (String.length t)) as [Hlo|Hlo];
        [|destruct Hm].
      apply in_map_iff in Hm as [[parts' rest'] [[= <- <-] Hm]].
      apply IH in Hm as [-> Hf]. rewrite text_of_cons, append_assoc.
      split; [reflexivity|]. constructor; [|assumption].
      repeat split; assumption.
    + intros [Hs Hf]. inversion Hf as [|? t ? parts' [Ha [Hlo Hw]] Hf']; subst.
      rewrite text_of_cons, append_assoc.
      exists (t, Re.text_of parts' ++ rest). split.
      * apply in_spans. auto.
      * simpl. destruct (Nat.leb_spec (Re.lo p) (String.length t)); [|lia].
        apply in_map_iff. exists (parts', rest). split; [reflexivity|].
        apply IH. auto.
Qed.

Lemma match_at_sound (ps : list Re.piece) (s : string) (parts : list string)
  (rest : string) :
  Re.match_at ps s = Some (parts, rest) ->
  s = Re.text_of parts ++ rest /\ Forall2 piece_ok ps parts.
Proof.
  unfold Re.match_at. intros H. apply in_match_seq.
  destruct (Re.match_seq ps s); [discriminate|]. injection H as ->. now left.
Qed.


End ReFacts.

Section FindallFacts.

Lemma scan_fuel (ps : list Re.piece) :
  forall (f1 f2 : nat) (s : string),
    String.length s < f1 -> String.length s < f2 ->
    Re.scan f1 ps s = Re.scan f2 ps s.
Proof.
  induction f1 as [|f1 IH]; intros f2 s H1 H2; [lia|].
  destruct f2 as [|f2]; [lia|]. simpl.
  destruct (Re.match_at ps s) as [[parts rest]|].
  - destruct (Nat.ltb_spec (String.length rest) (String.length s)).
    + f_equal. apply IH; lia.
    + destruct s as [|c s]; [reflexivity|]. f_equal. simpl in *. apply IH; lia.
  - destruct s as [|c s]; [reflexivity|]. simpl in *. apply IH; lia.
Qed.

(** The scan of [findall], unfolded once: enough fuel was given. *)
Lemma findall_eq (ps : list Re.piece) (s : string) :
  Re.findall ps s =
  match Re.match_at ps s with
  | Some (parts, rest) =>
      if Nat.ltb (String.length rest) (String.length s) then
        parts :: Re.findall ps rest
      else
        match s with
        | EmptyString => [parts]
        | String _ s' => parts :: Re.findall ps s'
        end
  | None =>
      match s with
      | EmptyString => []
      | String _ s' => Re.findall ps s'
      end
  end.
Proof.
  unfold Re.findall at 1. simpl.
  destruct (Re.match_at ps s) as [[parts rest]|].
  - destruct (Nat.ltb_spec (String.length rest) (String.length s)).
    + f_equal. apply scan_fuel; lia.
    + destruct s; reflexivity.
  - destruct s; reflexivity.
Qed.



End FindallFacts.

(** ** Coordinates *)

Section CoordinateFacts.












End CoordinateFacts.

(** ** Encoded segments *)

Section GreedyFacts.

Lemma greedy_split (cls : ascii -> bool) (hi : option nat) (s : string) :
  s = fst (greedy cls hi s) ++ snd (greedy cls hi s).
Proof.
  revert hi; induction s as [|c s IH]; intros hi; simpl; [reflexivity|].
  destruct (cls c && Re.room hi); simpl; [|reflexivity].
  now rewrite <- IH.
Qed.

Lemma greedy_all_in (cls : ascii -> bool) (hi : option nat) (s : string) :
  all_in cls (fst (greedy cls hi s))
  /\ within_hi hi (String.length (fst (greedy cls hi s))).
Proof.
  revert hi; induction s as [|c s IH]; intros hi; simpl.
  - split; [apply all_in_nil|destruct hi; simpl; lia].
  - destruct (cls c) eqn:Hc; simpl.
    + destruct (Re.room hi) eqn:Hr; simpl.
      * destruct (IH (option_map pred hi)) as [Ha Hw].
        split; [apply all_in_cons; auto|]. now apply within_hi_pred.
      * split; [apply all_in_nil|destruct hi; simpl; lia].
    + split; [apply all_in_nil|destruct hi; simpl; lia].
Qed.

Lemma greedy_stops (cls : ascii -> bool) (s : string) :
  stops cls (snd (greedy cls None s)).
Proof.
  induction s as [|c s IH]; simpl; [exact I|].
  destruct (cls c) eqn:Hc; simpl; [exact IH|exact Hc].
Qed.

(** The first split [spans] lists is the greedy one, and no other split
    takes more. *)
Lemma spans_head (cls : ascii -> bool) (hi : option nat) (s : string) :
  exists tl, Re.spans cls hi s = greedy cls hi s :: tl.
Proof.
  revert hi; induction s as [|c s IH]; intros hi; simpl.
  - now exists [].
  - destruct (cls c && Re.room hi).
    + destruct (IH (option_map pred hi)) as [tl ->]. simpl. eexists. reflexivity.
    + now exists [].
Qed.

Lemma spans_longest (cls : ascii -> bool) (hi : option nat) (s t r : string) :
  In (t, r) (Re.spans cls hi s) ->
  String.length t <= String.length (fst (greedy cls hi s)).
Proof.
  revert hi t r; induction s as [|c s IH]; intros hi t r; simpl.
  - intros [[= <- <-]|[]]. simpl. lia.
  - destruct (cls c && Re.room hi); simpl.
    + rewrite in_app_iff, in_map_iff.
      intros [[[t' r'] [[= <- <-] Hin]]|[[= <- <-]|[]]]; simpl; [|lia].
      apply IH in Hin. lia.
    + intros [[= <- <-]|[]]. simpl. lia.
Qed.

Lemma greedy_append (cls : ascii -> bool) (hi : option nat) (b x : string) :
  stops cls x ->
  greedy cls hi (b ++ x)
  = (fst (greedy cls hi b), snd (greedy cls hi b) ++ x).
Proof.
  intros Hx. revert hi; induction b as [|c b IH]; intros hi; simpl.
  - destruct x as [|c x]; [reflexivity|]. simpl in *. now rewrite Hx.
  - destruct (cls c && Re.room hi); [|reflexivity].
    now rewrite IH.
Qed.

Lemma greedy_exact (cls : ascii -> bool) (run post : string) :
  all_in cls run -> stops cls post ->
  greedy cls None (run ++ post) = (run, post).
Proof.
  intros Ha Hp. induction run as [|c run IH]; simpl.
  - destruct post as [|c post]; [reflexivity|]. simpl in *. now rewrite Hp.
  - apply all_in_cons in Ha as [Hc Ha]. rewrite Hc. simpl.
    now rewrite (IH Ha).
Qed.

(** Before a boundary the greedy run ends inside [pre]. *)
Lemma greedy_inside (cls : ascii -> bool) (pre x : string) :
  pre <> "" -> boundary cls pre ->
  greedy cls None (pre ++ x)
  = (fst (greedy cls None pre), snd (greedy cls None pre) ++ x)
  /\ snd (greedy cls None pre) <> "".
Proof.
  induction pre as [|c pre IH]; intros Hne Hb; [congruence|]. simpl.
  destruct (cls c) eqn:Hc; simpl.
  - destruct pre as [|c' pre]; [simpl in Hb; congruence|].
    destruct IH as [IH1 IH2]; [discriminate|exact Hb|].
    now rewrite IH1.
  - split; [reflexivity|discriminate].
Qed.

Lemma boundary_suffix (cls : ascii -> bool) (a b : string) :
  boundary cls (a ++ b) -> boundary cls b.
Proof.
  induction a as [|c a IH]; intros H; [exact H|].
  apply IH. simpl in H. destruct (a ++ b) eqn:E; [|exact H].
  destruct a; [|discriminate]. simpl in E. subst b. exact I.
Qed.

End GreedyFacts.

Section Base64Tokens.
Import Iteration2.

Lemma flat_map_nil {A B : Type} (f : A -> list B) (l : list A) :
  (forall x, In x l -> f x = []) -> flat_map f l = [].
Proof.
  induction l as [|a l IH]; intros H; simpl; [reflexivity|].
  rewrite (H a) by now left. apply IH. intros; apply H; now right.
Qed.

(** The match of the base64 pattern at the start of [s]: the longest
    run of alphabet characters, when it has 20 characters or more,
    followed by up to two pad characters. *)
Lemma base64_match_at (s : string) :
  Re.match_at base64_pattern s =
  let run := greedy base64_char None s in
  if Nat.leb 20 (String.length (fst run)) then
    let pad := greedy (Re.lit "=") (Some 2) (snd run) in
    Some ([fst run; fst pad], snd pad)
  else None.
Proof.
  unfold Re.match_at, base64_pattern. cbv zeta.
  cbn [Re.match_seq Re.cls Re.lo Re.hi].
  destruct (Nat.leb_spec 20 (String.length (fst (greedy base64_char None s))))
    as [Hlen|Hlen].
  - destruct (spans_head base64_char None s) as [tl ->].
    cbn [flat_map]. apply Nat.leb_le in Hlen. rewrite Hlen.
    destruct (spans_head (Re.lit "=") (Some 2)
                (snd (greedy base64_char None s))) as [tl2 ->].
    cbn [flat_map List.map List.app Nat.leb fst snd hd_error]. reflexivity.
  - rewrite flat_map_nil; [reflexivity|].
    intros [t r] Hin. apply spans_longest in Hin. cbn [fst snd].
    destruct (Nat.leb_spec 20 (String.length t)); [lia|reflexivity].
Qed.

(** Every match [findall] returns was the match at its position. *)
Lemma findall_matches (ps : list Re.piece) :
  forall (n : nat) (s : string),
    String.length s <= n ->
    forall parts,
      In parts (Re.findall ps s) ->
      exists pre rest,
        s = pre ++ Re.text_of parts ++ rest
        /\ Re.match_at ps (Re.text_of parts ++ rest) = Some (parts, rest).
Proof.
  induction n as [|n IH]; intros s Hn parts; rewrite findall_eq.
  - destruct s; [|simpl in Hn; lia].
    destruct (Re.match_at ps "") as [[parts0 rest0]|] eqn:Hm; [|intros []].
    destruct (match_at_sound _ _ _ _ Hm) as [Hs _]. simpl.
    intros [<-|[]]. exists "", rest0. rewrite <- Hs. auto.
  - destruct (Re.match_at ps s) as [[parts0 rest0]|] eqn:Hm.
    + destruct (match_at_sound _ _ _ _ Hm) as [Hs _].
      assert (H0 : exists pre rest,
                 s = pre ++ Re.text_of parts0 ++ rest
                 /\ Re.match_at ps (Re.text_of parts0 ++ rest)
                    = Some (parts0, rest)).
      { exists "", rest0. rewrite <- Hs. auto. }
      destruct (Nat.ltb_spec (String.length rest0) (String.length s)).
      * intros [<-|Hin]; [exact H0|].
        apply IH in Hin as [pre [rest [-> Hp]]]; [|lia].
        exists (Re.text_of parts0 ++ pre), rest.
        split; [now rewrite Hs, append_assoc|assumption].
      * destruct s as [|c s]; [intros [<-|[]]; exact H0|].
        intros [<-|Hin]; [exact H0|].
        apply IH in Hin as [pre [rest [-> Hp]]]; [|simpl in Hn; lia].
        exists (String c pre), rest. auto.
    + destruct s as [|c s]; [intros []|]. intros Hin.
      apply IH in Hin as [pre [rest [-> Hp]]]; [|simpl in Hn; lia].
      exists (String c pre), rest. auto.
Qed.

Lemma base64_char_not_pad (c : ascii) :
  base64_char c = true -> Re.lit "=" c = false.
Proof.
  unfold Re.lit. destruct (Ascii.eqb_spec c "=") as [->|]; [|reflexivity].
  discriminate.
Qed.

(** The shape of a match: a run of 20 or more alphabet characters that
    cannot be extended, and up to two pad characters. *)
Lemma base64_matches_sound (text m : string) :
  In m (base64_matches text) ->
  exists pre run pad post,
    text = pre ++ m ++ post
    /\ m = run ++ pad
    /\ all_in base64_char run /\ 20 <= String.length run
    /\ all_in (Re.lit "=") pad /\ String.length pad <= 2
    /\ stops base64_char (pad ++ post).
Proof.
  unfold base64_matches. intros Hin.
  apply in_map_iff in Hin as [parts [<- Hin]].
  apply (findall_matches _ _ text (le_n _)) in Hin as [pre [post [Ht Hm]]].
  rewrite base64_match_at in Hm. cbv zeta in Hm.
  remember (Re.text_of parts ++ post) as s eqn:Hs.
  destruct (Nat.leb_spec 20 (String.length (fst (greedy base64_char None s))))
    as [Hlen|Hlen]; [|discriminate].
  injection Hm as Hparts Hpost.
  destruct (greedy_all_in base64_char None s) as [Ha _].
  destruct (greedy_all_in (Re.lit "=") (Some 2)
              (snd (greedy base64_char None s))) as [Hpa Hpl].
  assert (Hst := greedy_stops base64_char s).
  rewrite (greedy_split (Re.lit "=") (Some 2)
             (snd (greedy base64_char None s))) in Hst.
  rewrite Hpost in Hst.
  assert (Htp : Re.text_of parts
                = fst (greedy base64_char None s)
                  ++ fst (greedy (Re.lit "=") (Some 2)
                            (snd (greedy base64_char None s)))).
  { rewrite <- Hparts, !text_of_cons. simpl. now rewrite append_empty_r. }
  exists pre, (fst (greedy base64_char None s)),
    (fst (greedy (Re.lit "=") (Some 2) (snd (greedy base64_char None s)))),
    post.
  split; [now rewrite Ht, Hs|]. split; [exact Htp|]. repeat split; assumption.
Qed.

(** Every run of 20 or more alphabet characters that starts at a
    boundary and cannot be extended is matched, with the pad characters
    that follow it. *)
Lemma base64_matches_complete (run post : string) :
  all_in base64_char run -> 20 <= String.length run ->
  stops base64_char post ->
  forall (n : nat) (pre : string),
    String.length pre <= n -> boundary base64_char pre ->
    In (run ++ fst (greedy (Re.lit "=") (Some 2) post))
       (base64_matches (pre ++ run ++ post)).
Proof.
  intros Ha Hlen Hpost. unfold base64_matches.
  assert (Hx : stops (Re.lit "=") (run ++ post)).
  { destruct run as [|c run]; [simpl in Hlen; lia|]. simpl.
    apply all_in_cons in Ha as [Hc _]. now apply base64_char_not_pad. }
  induction n as [|n IH]; intros pre Hn Hb.
  - destruct pre; [|simpl in Hn; lia]. simpl.
    rewrite findall_eq, base64_match_at. cbv zeta.
    rewrite (greedy_exact _ _ _ Ha Hpost). cbn [fst snd].
    destruct (Nat.leb_spec 20 (String.length run)); [|lia].
    assert (Hlt : String.length
                    (snd (greedy (Re.lit "=") (Some 2) post))
                  < String.length (run ++ post)).
    { rewrite length_append.
      rewrite (greedy_split (Re.lit "=") (Some 2) post) at 2.
      rewrite length_append. lia. }
    apply Nat.ltb_lt in Hlt. rewrite Hlt. simpl. left.
    rewrite !text_of_cons. simpl. now rewrite append_empty_r.
  - destruct pre as [|c pre]; [apply (IH ""); [simpl; lia|exact I]|].
    rewrite findall_eq, base64_match_at. cbv zeta.
    destruct (greedy_inside base64_char (String c pre) (run ++ post))
      as [Hg Hne]; [discriminate|exact Hb|].
    rewrite Hg. cbn [fst snd].
    set (a := fst (greedy base64_char None (String c pre))) in *.
    set (b := snd (greedy base64_char None (String c pre))) in *.
    assert (Hab : String c pre = a ++ b) by apply greedy_split.
    destruct (Nat.leb_spec 20 (String.length a)).
    + rewrite (greedy_append _ _ b _ Hx). cbn [fst snd].
      set (p := fst (greedy (Re.lit "=") (Some 2) b)).
      set (b' := snd (greedy (Re.lit "=") (Some 2) b)).
      assert (Hb' : b = p ++ b') by apply greedy_split.
      assert (Hlt : String.length (b' ++ run ++ post)
                    < String.length (String c pre ++ run ++ post)).
      { rewrite Hab, Hb', !length_append. lia. }
      apply Nat.ltb_lt in Hlt. rewrite Hlt. simpl. right.
      apply IH.
      * assert (Hl : String.length (String c pre)
                     = String.length a + String.length p + String.length b')
          by (rewrite Hab, Hb', !length_append; lia).
        simpl in Hl, Hn. lia.
      * apply (boundary_suffix base64_char (a ++ p)).
        now rewrite append_assoc, <- Hb', <- Hab.
    + simpl. apply IH; [simpl in Hn; lia|].
      now apply (boundary_suffix base64_char (String c "")).
Qed.

Lemma decode_loop_printed_eq (ms : list string) (self : cracker) :
  printed (decode_loop ms self)
  = (printed self ++ decoded_events ms)%list.
Proof.
  revert self; induction ms as [|m ms IH]; intros self; simpl.
  - now rewrite app_nil_r.
  - unfold decoded_events. simpl.
    destruct (Base64.b64decode_utf8 m); rewrite IH; simpl;
      [now rewrite <- app_assoc|reflexivity].
Qed.

End Base64Tokens.

(** C6.  The encoded-segment scanner matches the runs of 20 or more
    characters of the base64 alphabet, each run taken whole and followed
    by up to two pad characters: every match has that shape and stands
    in the text, and every such run that starts at a boundary is
    matched.  Each match is decoded; a match that decodes is reported
    with its decoded text, a match whose decoding fails is skipped, and
    the scan goes on: the reports are those of the matches that decode,
    in order, and nothing but the log changes.  So the token of the
    layer-1 text is reported as "Hello Hacker! You're doing great!",
    while a token of the same length that is not UTF-8 once decoded and
    a token of 21 characters, whose padding is wrong, leave no trace. *)
Theorem encoded_segments_decoded_or_skipped :
  (forall text m,
      In m (Iteration2.base64_matches text) ->
      exists pre run pad post,
        text = pre ++ m ++ post
        /\ m = run ++ pad
        /\ all_in Iteration2.base64_char run /\ 20 <= String.length run
        /\ all_in (Re.lit "=") pad /\ String.length pad <= 2
        /\ stops Iteration2.base64_char (pad ++ post))
  /\ (forall pre run post,
        all_in Iteration2.base64_char run -> 20 <= String.length run ->
        boundary Iteration2.base64_char pre ->
        stops Iteration2.base64_char post ->
        In (run ++ fst (greedy (Re.lit "=") (Some 2) post))
           (Iteration2.base64_matches (pre ++ run ++ post)))
  /\ (forall text self,
        Iteration2.printed (Iteration2.decode_base64_hints text self)
        = (Iteration2.printed self
           ++ decoded_events (Iteration2.base64_matches text))%list
        /\ erase (Iteration2.decode_base64_hints text self) = erase self)
  /\ Iteration2.printed
       (Iteration2.decode_base64_hints
          "encoded message below: SGVsbG8gSGFja2VyISBZb3UncmUgZG9pbmcgZ3JlYXQh"
          (Iteration2.fresh []))
     = [Iteration2.EncodedMessage
          "SGVsbG8gSGFja2VyISBZb3UncmUgZG9pbmcgZ3JlYXQh"
          "Hello Hacker! You're doing great!"]
  /\ Iteration2.printed
       (Iteration2.decode_base64_hints
          "noise abcdefghijklmnopqrstuvwxyzABCDEFGHIJKLMNOPQR abcdefghijklmnopqrstu"
          (Iteration2.fresh []))
     = [].
Proof.
  split; [exact base64_matches_sound|].
  split.
  { intros pre run post Ha Hlen Hb Hp.
    exact (base64_matches_complete run post Ha Hlen Hp _ pre (le_n _) Hb). }
  split.
  { intros text self. unfold Iteration2.decode_base64_hints.
    split; [apply decode_loop_printed_eq|apply decode_loop_erase]. }
  split; vm_compute; reflexivity.
Qed.

(** ** A pair that stands alone *)

Section CoordinateExact.





Lemma lit_not_lit (a b : ascii) (c : ascii) :
  a <> b -> Re.lit a c = true -> Re.lit b c = false.
Proof.
  unfold Re.lit. intros Hab H. apply Ascii.eqb_eq in H. subst c.
  now apply Ascii.eqb_neq.
Qed.




Lemma lit_not_space (a : ascii) (c : ascii) :
  Re.space a = false -> Re.lit a c = true -> Re.space c = false.
Proof. unfold Re.lit. intros Ha Hc. apply Ascii.eqb_eq in Hc. congruence. Qed.









End CoordinateExact.


(** The pattern is not anchored: digits beyond the fourth fractional
    digit of the second numeral, or before the last three of the first,
    are left out of the match. *)
Remark coordinates_longer_numerals :
  Iteration2.coord_matches "1.2345 7.89012" = [("1.2345", "7.8901")]
  /\ Iteration2.coord_matches "1234.5678,-9.0000" = [("234.5678", "-9.0000")].
Proof. split; vm_compute; reflexivity. Qed.

(** * Further properties *)

(** ** Outcomes of the attempt loops *)

Section AttemptOutcomes.
#[local] Arguments Nat.modulo : simpl never.

Lemma outcome_cases (z : archive) (p : string) :
  rejects z p \/ accepts z p \/ exists e, breaks z p e.
Proof.
  unfold rejects, accepts, breaks.
  destruct (snd (extractall z p)) as [e|]; [|auto].
  destruct (wrong_password e) eqn:E; [left|right; right]; exists e; auto.
Qed.

(** A candidate list is rejected throughout or has a first candidate
    that is not rejected. *)
Lemma first_unrejected (z : archive) (candidates : list string) :
  Forall (rejects z) candidates
  \/ exists before p after,
       candidates = (before ++ p :: after)%list
       /\ Forall (rejects z) before
       /\ (accepts z p \/ exists e, breaks z p e).
Proof.
  induction candidates as [|c cs IH]; [left; constructor|].
  destruct (outcome_cases z c) as [Hr|Hn].
  - destruct IH as [Hall|[before [p [after [-> [Hb Hp]]]]]].
    + left. now constructor.
    + right. exists (c :: before), p, after. split; [reflexivity|].
      split; [now constructor|exact Hp].
  - right. exists [], c, cs. split; [reflexivity|]. split; [constructor|exact Hn].
Qed.

Lemma try_passwords_hit (z : archive) (before after : list string)
  (p : string) (self : Iteration2.cracker) :
  Forall (rejects z) before -> accepts z p ->
  let out :=
    Iteration2.try_passwords (Opens z) (before ++ p :: after) self in
  fst out = (Some p, Some (Iteration2.layer_count self))
  /\ Iteration2.tried (snd out)
     = (Iteration2.tried self ++ before ++ [p])%list
  /\ Iteration2.layer_count (snd out) = Iteration2.layer_count self
  /\ Iteration2.password_history (snd out)
     = Iteration2.password_history self.
Proof.
  intros Hrej Hacc out; subst out. unfold Iteration2.try_passwords.
  match goal with |- context [Iteration2.try_loop z ?t 1 _ ?s] =>
    destruct (try_loop_skips z t 1 before (p :: after) s Hrej)
      as [self' [Heq [Hl [_ [Hh [Ht _]]]]]] end.
  rewrite Heq. simpl. unfold accepts in Hacc.
  destruct (extractall z p) as [written raised]. simpl in Hacc.
  subst raised. unfold Iteration2.process_extracted_content.
  match goal with |- context [Iteration2.process_files ?f ?s] =>
    destruct (process_files_frame f s) as [Hpl [Hph [Hpt _]]];
    destruct (Iteration2.process_files f s) as [found out] end.
  simpl in *. rewrite Hl, Hpl, Hph, Hpt, Ht, Hl, Hh.
  repeat split. now rewrite <- app_assoc.
Qed.

Lemma try_passwords_break (z : archive) (before after : list string)
  (p : string) (e : exn) (self : Iteration2.cracker) :
  Forall (rejects z) before -> breaks z p e ->
  let out :=
    Iteration2.try_passwords (Opens z) (before ++ p :: after) self in
  fst out = (None, None)
  /\ Iteration2.tried (snd out)
     = (Iteration2.tried self ++ before ++ [p])%list
  /\ last (Iteration2.printed (snd out)) Iteration2.FinalLayer
     = Iteration2.Error e.
Proof.
  intros Hrej [He Hw] out; subst out. unfold Iteration2.try_passwords.
  match goal with |- context [Iteration2.try_loop z ?t 1 _ ?s] =>
    destruct (try_loop_skips z t 1 before (p :: after) s Hrej)
      as [self' [Heq [_ [_ [_ [Ht _]]]]]] end.
  rewrite Heq. simpl.
  destruct (extractall z p) as [written raised]. simpl in He.
  subst raised. rewrite Hw. simpl in *.
  split; [reflexivity|]. split; [now rewrite Ht, <- app_assoc|].
  apply last_last.
Qed.

Lemma wordlist_nonempty (before after : list string) (p : string) :
  Iteration1.wordlist_or_common (Some (before ++ p :: after)%list)
  = (before ++ p :: after)%list.
Proof. destruct before; reflexivity. Qed.

Lemma dictionary_attack_hit (z : archive) (before after : list string)
  (p : string) (self : Iteration1.cracker) :
  Forall (rejects z) before -> accepts z p ->
  let out :=
    Iteration1.dictionary_attack (Opens z) (Some (before ++ p :: after)%list)
      self in
  fst out = Iteration1.Returns (Some p)
  /\ Iteration1.attempts (snd out) = S (List.length before)
  /\ Iteration1.tried (snd out)
     = (Iteration1.tried self ++ before ++ [p])%list.
Proof.
  intros Hrej Hacc out; subst out. unfold Iteration1.dictionary_attack.
  rewrite wordlist_nonempty.
  match goal with |- context [Iteration1.dictionary_loop z _ ?s] =>
    destruct (dictionary_loop_skips z before (p :: after) s Hrej)
      as [self' [Heq [Ha [Ht _]]]] end.
  rewrite Heq. simpl. unfold accepts in Hacc. rewrite Hacc. simpl in *.
  split; [reflexivity|]. split; [lia|]. now rewrite Ht, <- app_assoc.
Qed.

Lemma dictionary_attack_break (z : archive) (before after : list string)
  (p : string) (e : exn) (self : Iteration1.cracker) :
  Forall (rejects z) before -> breaks z p e ->
  let out :=
    Iteration1.dictionary_attack (Opens z) (Some (before ++ p :: after)%list)
      self in
  fst out = Iteration1.Raises e
  /\ Iteration1.attempts (snd out) = S (List.length before)
  /\ Iteration1.tried (snd out)
     = (Iteration1.tried self ++ before ++ [p])%list.
Proof.
  intros Hrej [He Hw] out; subst out. unfold Iteration1.dictionary_attack.
  rewrite wordlist_nonempty.
  match goal with |- context [Iteration1.dictionary_loop z _ ?s] =>
    destruct (dictionary_loop_skips z before (p :: after) s Hrej)
      as [self' [Heq [Ha [Ht _]]]] end.
  rewrite Heq. simpl. rewrite He, Hw. simpl in *.
  split; [reflexivity|]. split; [lia|]. now rewrite Ht, <- app_assoc.
Qed.

End AttemptOutcomes.

(** X1.  A password [try_passwords] returns is always one the archive
    accepted: the path opened as an archive, the password is one of the
    candidates, every candidate before it was rejected, and the
    directory returned with it is the one of the current layer. *)
Theorem try_passwords_returns_accepted (zip_path : target)
  (candidates : list string) (self : Iteration2.cracker)
  (p : string) (d : option nat) :
  fst (Iteration2.try_passwords zip_path candidates self) = (Some p, d) ->
  exists z before after,
    zip_path = Opens z
    /\ candidates = (before ++ p :: after)%list
    /\ Forall (rejects z) before
    /\ accepts z p
    /\ d = Some (Iteration2.layer_count self).
Proof.
  intros H. destruct zip_path as [|e|z]; [discriminate H|discriminate H|].
  destruct (first_unrejected z candidates)
    as [Hall|[before [q [after [-> [Hb [Hq|[e Hq]]]]]]]].
  - destruct (try_passwords_exhausted z candidates self Hall) as [Hf _].
    rewrite Hf in H. discriminate H.
  - destruct (try_passwords_hit z before after q self Hb Hq) as [Hf _].
    rewrite Hf in H. injection H as -> <-.
    exists z, before, after. auto.
  - destruct (try_passwords_break z before after q e self Hb Hq) as [Hf _].
    rewrite Hf in H. discriminate H.
Qed.

Lemma try_passwords_returns_accepted_witness :
  exists z before after,
    Opens correct_zip = Opens z
    /\ ["wrong1"; "correct"; "wrong3"] = (before ++ "correct" :: after)%list
    /\ Forall (rejects z) before
    /\ accepts z "correct"
    /\ Some 0 = Some (Iteration2.layer_count (Iteration2.fresh [])).
Proof.
  apply (try_passwords_returns_accepted (Opens correct_zip)
           ["wrong1"; "correct"; "wrong3"] (Iteration2.fresh [])
           "correct" (Some 0)).
  reflexivity.
Defined.

(** X2.  An exception of [extractall] that is neither [RuntimeError]
    nor [BadZipFile] ends the attack at that candidate, and the
    candidates after it are never tried: [try_passwords] swallows the
    exception, reports it and returns the failure result, while
    [dictionary_attack] lets it through to its caller. *)
Theorem unexpected_exception_ends_attack (z : archive)
  (before after : list string) (p : string) (e : exn) :
  Forall (rejects z) before ->
  breaks z p e ->
  (forall self,
      let out :=
        Iteration2.try_passwords (Opens z) (before ++ p :: after) self in
      fst out = (None, None)
      /\ Iteration2.tried (snd out)
         = (Iteration2.tried self ++ before ++ [p])%list
      /\ last (Iteration2.printed (snd out)) Iteration2.FinalLayer
         = Iteration2.Error e)
  /\ (forall self,
        let out :=
          Iteration1.dictionary_attack (Opens z)
            (Some (before ++ p :: after)%list) self in
        fst out = Iteration1.Raises e
        /\ Iteration1.attempts (snd out) = S (List.length before)
        /\ Iteration1.tried (snd out)
           = (Iteration1.tried self ++ before ++ [p])%list).
Proof.
  intros Hrej Hbr. split; intros self.
  - exact (try_passwords_break z before after p e self Hrej Hbr).
  - exact (dictionary_attack_break z before after p e self Hrej Hbr).
Qed.

Lemma unexpected_exception_ends_attack_witness :
  Forall (rejects glitch_zip) ["wrong1"]
  /\ breaks glitch_zip "glitch" OtherException
  /\ (let out :=
        Iteration2.try_passwords (Opens glitch_zip)
          ["wrong1"; "glitch"; "correct"] (Iteration2.fresh []) in
      fst out = (None, None)
      /\ Iteration2.tried (snd out) = ["wrong1"; "glitch"]
      /\ last (Iteration2.printed (snd out)) Iteration2.FinalLayer
         = Iteration2.Error OtherException)
  /\ (let out :=
        Iteration1.dictionary_attack (Opens glitch_zip)
          (Some ["wrong1"; "glitch"; "correct"]) Iteration1.fresh in
      fst out = Iteration1.Raises OtherException
      /\ Iteration1.attempts (snd out) = 2
      /\ Iteration1.tried (snd out) = ["wrong1"; "glitch"]).
Proof.
  assert (Hrej : Forall (rejects glitch_zip) ["wrong1"]).
  { repeat constructor; exists RuntimeError; split; reflexivity. }
  assert (Hbr : breaks glitch_zip "glitch" OtherException)
    by (split; reflexivity).
  split; [exact Hrej|]. split; [exact Hbr|].
  destruct (unexpected_exception_ends_attack glitch_zip
              ["wrong1"] ["correct"] "glitch" OtherException Hrej Hbr)
    as [H2 H1].
  split; [exact (H2 (Iteration2.fresh []))|exact (H1 Iteration1.fresh)].
Defined.

(** X3.  When the archive rejects every candidate, both loops hand it
    each candidate once, in the supplied order, and then report failure
    with the number of candidates as the number of attempts. *)
Theorem rejected_candidates_all_tried (z : archive) (c : string)
  (cs : list string) :
  Forall (rejects z) (c :: cs) ->
  (forall self,
      let out := Iteration2.try_passwords (Opens z) (c :: cs) self in
      fst out = (None, None)
      /\ Iteration2.tried (snd out)
         = (Iteration2.tried self ++ c :: cs)%list
      /\ In (Iteration2.FailedToCrack (S (List.length cs)))
            (Iteration2.printed (snd out)))
  /\ (forall self,
        let out :=
          Iteration1.dictionary_attack (Opens z) (Some (c :: cs)) self in
        fst out = Iteration1.Returns None
        /\ Iteration1.attempts (snd out) = S (List.length cs)
        /\ Iteration1.tried (snd out)
           = (Iteration1.tried self ++ c :: cs)%list
        /\ In (Iteration1.DictionaryFailed (S (List.length cs)))
              (Iteration1.printed (snd out))).
Proof.
  intros Hrej. split; intros self.
  - exact (try_passwords_exhausted z (c :: cs) self Hrej).
  - exact (dictionary_attack_exhausted z c cs self Hrej).
Qed.

Lemma rejected_candidates_all_tried_witness :
  Forall (rejects locked_zip) ["alpha"; "beta"]
  /\ (let out :=
        Iteration2.try_passwords (Opens locked_zip) ["alpha"; "beta"]
          (Iteration2.fresh []) in
      fst out = (None, None)
      /\ Iteration2.tried (snd out) = ["alpha"; "beta"]
      /\ In (Iteration2.FailedToCrack 2) (Iteration2.printed (snd out)))
  /\ (let out :=
        Iteration1.dictionary_attack (Opens locked_zip)
          (Some ["alpha"; "beta"]) Iteration1.fresh in
      fst out = Iteration1.Returns None
      /\ Iteration1.attempts (snd out) = 2
      /\ Iteration1.tried (snd out) = ["alpha"; "beta"]
      /\ In (Iteration1.DictionaryFailed 2) (Iteration1.printed (snd out))).
Proof.
  assert (Hrej : Forall (rejects locked_zip) ["alpha"; "beta"]).
  { repeat constructor; exists RuntimeError; split; reflexivity. }
  split; [exact Hrej|].
  destruct (rejected_candidates_all_tried locked_zip "alpha" ["beta"] Hrej)
    as [H2 H1].
  split; [exact (H2 (Iteration2.fresh []))|exact (H1 Iteration1.fresh)].
Defined.

(** ** The numeric brute force *)

Section BruteForce.
Import Iteration1.
#[local] Arguments Nat.modulo : simpl never.

Lemma numeric_inner_app (z : archive) (c1 c2 : list (list ascii))
  (self : cracker) :
  Forall (rejects z) (List.map PyStr.join c1) ->
  exists self',
    numeric_inner z (c1 ++ c2) self = numeric_inner z c2 self'
    /\ attempts self' = attempts self + List.length c1
    /\ tried self' = (tried self ++ List.map PyStr.join c1)%list.
Proof.
  revert self; induction c1 as [|c c1 IH]; intros self Hrej.
  - exists self. simpl. rewrite app_nil_r, Nat.add_0_r. auto.
  - simpl in Hrej. inversion Hrej as [|? ? [e [He Hw]] Hrej']; subst.
    simpl. rewrite He, Hw.
    match goal with |- context [numeric_inner z (c1 ++ c2) ?s] =>
      destruct (IH s Hrej') as [self' [Heq [Ha Ht]]];
      assert (Ha0 : attempts s = S (attempts self))
        by (destruct (Nat.eqb _ _); reflexivity);
      assert (Ht0 : tried s = (tried self ++ [PyStr.join c])%list)
        by (destruct (Nat.eqb _ _); reflexivity)
    end.
    exists self'. split; [exact Heq|]. rewrite Ha, Ht, Ha0, Ht0.
    split; [lia|now rewrite <- app_assoc].
Qed.

Lemma numeric_outer_app (z : archive) (l1 l2 : list Z) (self : cracker) :
  Forall (rejects z) (flat_map generated l1) ->
  exists self',
    numeric_outer z (l1 ++ l2) self = numeric_outer z l2 self'
    /\ attempts self' = attempts self + List.length (flat_map generated l1)
    /\ tried self' = (tried self ++ flat_map generated l1)%list.
Proof.
  revert self; induction l1 as [|len l1 IH]; intros self Hrej.
  - exists self. simpl. rewrite app_nil_r, Nat.add_0_r. auto.
  - simpl in Hrej. apply Forall_app in Hrej as [Hlen Hrest].
    cbn [List.app numeric_outer].
    match goal with |- context [numeric_inner z ?c ?s] =>
      destruct (numeric_inner_app z c [] s Hlen) as [s1 [Heq [Ha Ht]]];
      rewrite app_nil_r in Heq; rewrite Heq
    end.
    cbn [numeric_inner].
    destruct (IH s1 Hrest) as [self' [Heq' [Ha' Ht']]].
    exists self'. split; [exact Heq'|].
    rewrite Ha', Ht', Ha, Ht. cbn [flat_map]. rewrite length_app.
    change (generated len)
      with (List.map PyStr.join (PyStr.product PyStr.digits (Z.to_nat len))).
    rewrite List.length_map. cbn [print attempts tried].
    split; [lia|now rewrite <- app_assoc].
Qed.

Lemma map_seq_from {B : Type} (f : nat -> B) (a k : nat) :
  List.map f (seq a k) = List.map (fun i => f (a + i)) (seq 0 k).
Proof.
  revert f a; induction k as [|k IH]; intros f a; [reflexivity|].
  cbn [seq List.map]. rewrite Nat.add_0_r. f_equal.
  rewrite (IH f (S a)), (IH (fun i => f (a + i)) 1).
  apply map_ext. intros i. f_equal. lia.
Qed.

Lemma range_split (len : nat) (max_length : Z) :
  1 <= len -> (Z.of_nat len <= max_length)%Z ->
  PyStr.range 1 (max_length + 1)
  = (PyStr.range 1 (Z.of_nat len)
     ++ Z.of_nat len :: PyStr.range (Z.of_nat len + 1) (max_length + 1))%list.
Proof.
  intros H1 H2. unfold PyStr.range.
  replace (Z.to_nat (max_length + 1 - 1))
    with ((len - 1) + S (Z.to_nat (max_length - Z.of_nat len))) by lia.
  replace (Z.to_nat (Z.of_nat len - 1)) with (len - 1) by lia.
  replace (Z.to_nat (max_length + 1 - (Z.of_nat len + 1)))
    with (Z.to_nat (max_length - Z.of_nat len)) by lia.
  rewrite seq_app, map_app. f_equal.
  cbn [seq List.map]. f_equal; [lia|].
  rewrite map_seq_from. apply map_ext. intros i. lia.
Qed.

Lemma generated_before (len : nat) :
  1 <= len ->
  flat_map generated (PyStr.range 1 (Z.of_nat len))
  = flat_map (fun l => List.map (decimal l) (seq 0 (10 ^ l)))
             (seq 1 (len - 1)).
Proof.
  intros H. assert (E := numeric_candidates_decimal (Z.of_nat len - 1)).
  unfold numeric_candidates in E. fold generated in E.
  replace (Z.of_nat len - 1 + 1)%Z with (Z.of_nat len) in E by lia.
  replace (Z.to_nat (Z.of_nat len - 1)) with (len - 1) in E by lia.
  exact E.
Qed.

Lemma length_decimals (n : nat) :
  List.length
    (flat_map (fun l => List.map (decimal l) (seq 0 (10 ^ l))) (seq 1 n))
  = numerals_upto n.
Proof.
  induction n as [|n IH]; [reflexivity|].
  rewrite seq_S, flat_map_app, length_app, IH.
  cbn [flat_map]. rewrite app_nil_r, List.length_map, length_seq.
  reflexivity.
Qed.

Lemma length_numerals_before (len v : nat) :
  List.length (numerals_before len v) = numerals_upto (len - 1) + v.
Proof.
  unfold numerals_before.
  now rewrite length_app, length_decimals, List.length_map, length_seq.
Qed.

(** The first accepted numeral ends the brute force. *)
Lemma brute_force_hit (z : archive) (max_length : Z) (len v : nat)
  (self : cracker) :
  1 <= len -> (Z.of_nat len <= max_length)%Z -> v < 10 ^ len ->
  Forall (rejects z) (numerals_before len v) ->
  accepts z (decimal len v) ->
  let out := brute_force_numeric (Opens z) max_length self in
  fst out = Returns (Some (decimal len v))
  /\ attempts (snd out) = numerals_upto (len - 1) + v + 1
  /\ tried (snd out)
     = (tried self ++ numerals_before len v ++ [decimal len v])%list.
Proof.
  intros H1 H2 Hv Hrej Hacc out; subst out.
  unfold numerals_before in Hrej. apply Forall_app in Hrej as [Hshort Hsame].
  unfold brute_force_numeric. rewrite (range_split len max_length H1 H2).
  rewrite <- (generated_before len H1) in Hshort.
  destruct (numeric_outer_app z _
              (Z.of_nat len
               :: PyStr.range (Z.of_nat len + 1) (max_length + 1))
              (reset_attempts self) Hshort)
    as [s1 [Heq [Ha Ht]]].
  rewrite Heq. cbn [numeric_outer]. rewrite Nat2Z.id.
  assert (Hp := product_digits_decimal len).
  replace (seq 0 (10 ^ len))
    with (seq 0 v ++ v :: seq (S v) (10 ^ len - S v))%list in Hp.
  2:{ replace (10 ^ len) with (v + S (10 ^ len - S v)) at 2 by lia.
      rewrite seq_app. reflexivity. }
  rewrite map_app in Hp. apply map_eq_app in Hp as [c1 [cr [Hc [Hc1 Hcr]]]].
  cbn [List.map] in Hcr. apply map_eq_cons in Hcr as [c [c2 [-> [Hjoin _]]]].
  rewrite Hc. rewrite <- Hc1 in Hsame.
  match goal with |- context [numeric_inner z (c1 ++ c :: c2) ?s] =>
    destruct (numeric_inner_app z c1 (c :: c2) s Hsame)
      as [s2 [Heq2 [Ha2 Ht2]]]
  end.
  rewrite Heq2. cbn [numeric_inner]. rewrite Hjoin.
  unfold accepts in Hacc. rewrite Hacc. cbn [fst snd].
  cbn [print attempt attempts tried] in *.
  rewrite Ha2, Ht2. cbn [print attempts tried] . rewrite Ha, Ht.
  cbn [reset_attempts attempts tried].
  rewrite (generated_before len H1), length_decimals, Hc1.
  assert (Hl1 : List.length c1 = v).
  { rewrite <- (List.length_map PyStr.join c1), Hc1, List.length_map,
      length_seq.
    reflexivity. }
  rewrite Hl1. split; [reflexivity|]. split; [lia|].
  unfold numerals_before. now rewrite <- !app_assoc.
Qed.

Lemma length_numeric_candidates (max_length : Z) :
  List.length (numeric_candidates max_length)
  = numerals_upto (Z.to_nat max_length).
Proof. rewrite numeric_candidates_decimal. apply length_decimals. Qed.

(** When every numeral is rejected, the brute force tries them all. *)
Lemma brute_force_exhausted (z : archive) (max_length : Z) (self : cracker) :
  Forall (rejects z) (numeric_candidates max_length) ->
  let out := brute_force_numeric (Opens z) max_length self in
  fst out = Returns None
  /\ attempts (snd out) = numerals_upto (Z.to_nat max_length)
  /\ tried (snd out) = (tried self ++ numeric_candidates max_length)%list
  /\ last (printed (snd out)) NotValidZip
     = BruteForceFailed (numerals_upto (Z.to_nat max_length)).
Proof.
  intros Hrej out; subst out. unfold brute_force_numeric.
  unfold numeric_candidates in Hrej. fold generated in Hrej.
  destruct (numeric_outer_app z _ [] (reset_attempts self) Hrej)
    as [s1 [Heq [Ha Ht]]].
  rewrite app_nil_r in Heq. rewrite Heq. cbn [numeric_outer fst snd].
  cbn [print attempts tried printed]. rewrite Ha, Ht.
  cbn [reset_attempts attempts tried].
  assert (Hl := length_numeric_candidates max_length).
  unfold numeric_candidates in Hl. fold generated in Hl. rewrite Hl.
  unfold numeric_candidates. fold generated.
  repeat split. apply last_last.
Qed.

End BruteForce.

(** X4.  [brute_force_numeric] returns the first numeral, in its
    generation order, that the archive accepts: if the numeral of [v]
    on [len] digits is accepted, [len] is within [max_length] and every
    digit string generated before it is rejected, that numeral is
    returned, no later string is tried, and the number of attempts is
    the number of digit strings shorter than [len] plus [v + 1]. *)
Theorem brute_force_returns_first_numeral (z : archive) (max_length : Z)
  (len v : nat) (self : Iteration1.cracker) :
  1 <= len -> (Z.of_nat len <= max_length)%Z -> v < 10 ^ len ->
  Forall (rejects z) (numerals_before len v) ->
  accepts z (decimal len v) ->
  let out := Iteration1.brute_force_numeric (Opens z) max_length self in
  fst out = Iteration1.Returns (Some (decimal len v))
  /\ Iteration1.attempts (snd out) = numerals_upto (len - 1) + v + 1
  /\ Iteration1.tried (snd out)
     = (Iteration1.tried self ++ numerals_before len v ++ [decimal len v])%list.
Proof. exact (brute_force_hit z max_length len v self). Qed.

Lemma brute_force_returns_first_numeral_witness :
  Forall (rejects pin_zip) (numerals_before 2 7)
  /\ accepts pin_zip (decimal 2 7)
  /\ (let out :=
        Iteration1.brute_force_numeric (Opens pin_zip) 4 Iteration1.fresh in
      fst out = Iteration1.Returns (Some "07")
      /\ Iteration1.attempts (snd out) = 18
      /\ Iteration1.tried (snd out)
         = (numerals_before 2 7 ++ ["07"])%list).
Proof.
  assert (Hrej : Forall (rejects pin_zip) (numerals_before 2 7)).
  { repeat constructor; exists RuntimeError; split; reflexivity. }
  assert (Hacc : accepts pin_zip (decimal 2 7)) by reflexivity.
  split; [exact Hrej|]. split; [exact Hacc|].
  apply (brute_force_returns_first_numeral pin_zip 4 2 7 Iteration1.fresh);
    [lia|lia|simpl; lia|exact Hrej|exact Hacc].
Defined.

(** X5.  When the archive rejects every digit string of length 1 to
    [max_length], [brute_force_numeric] tries each of them once, in
    generation order, returns [None] and reports 10 + 100 + ... +
    10 ^ max_length attempts. *)
Theorem brute_force_exhausts_numerals (z : archive) (max_length : Z)
  (self : Iteration1.cracker) :
  Forall (rejects z) (Iteration1.numeric_candidates max_length) ->
  let out := Iteration1.brute_force_numeric (Opens z) max_length self in
  fst out = Iteration1.Returns None
  /\ Iteration1.attempts (snd out) = numerals_upto (Z.to_nat max_length)
  /\ Iteration1.tried (snd out)
     = (Iteration1.tried self
        ++ Iteration1.numeric_candidates max_length)%list
  /\ last (Iteration1.printed (snd out)) Iteration1.NotValidZip
     = Iteration1.BruteForceFailed (numerals_upto (Z.to_nat max_length)).
Proof. exact (brute_force_exhausted z max_length self). Qed.

Lemma brute_force_exhausts_numerals_witness :
  Forall (rejects locked_zip) (Iteration1.numeric_candidates 1)
  /\ (let out :=
        Iteration1.brute_force_numeric (Opens locked_zip) 1 Iteration1.fresh in
      fst out = Iteration1.Returns None
      /\ Iteration1.attempts (snd out) = 10
      /\ Iteration1.tried (snd out)
         = ["0"; "1"; "2"; "3"; "4"; "5"; "6"; "7"; "8"; "9"]
      /\ last (Iteration1.printed (snd out)) Iteration1.NotValidZip
         = Iteration1.BruteForceFailed 10).
Proof.
  assert (Hrej : Forall (rejects locked_zip) (Iteration1.numeric_candidates 1)).
  { repeat constructor; exists RuntimeError; split; reflexivity. }
  split; [exact Hrej|].
  exact (brute_force_exhausts_numerals locked_zip 1 Iteration1.fresh Hrej).
Defined.

(** ** Archives without encryption *)

Section Unencrypted.

Lemma unencrypted_accepts (ms : list member) (p : string) :
  Forall (fun m => m_pwd m = None) ms -> accepts (archive_of ms) p.
Proof.
  unfold accepts. simpl. induction ms as [|m ms IH]; intros H; [reflexivity|].
  inversion H as [|? ? Hm Hms]; subst. simpl. rewrite Hm.
  specialize (IH Hms). destruct (extract_members ms p) as [w e]. exact IH.
Qed.

Lemma wordlist_default :
  Iteration1.wordlist_or_common None
  = Iteration1.wordlist_or_common (Some Iteration1.common_passwords).
Proof. reflexivity. Qed.

Lemma dictionary_attack_default (t : target) (self : Iteration1.cracker) :
  Iteration1.dictionary_attack t None self
  = Iteration1.dictionary_attack t (Some Iteration1.common_passwords) self.
Proof.
  destruct t as [| e |z]; [reflexivity|reflexivity|].
  unfold Iteration1.dictionary_attack. rewrite wordlist_default. reflexivity.
Qed.

Lemma patterns_head (base_word : string) (variations : bool) :
  Iteration1.patterns base_word variations
  = base_word :: List.tl (Iteration1.patterns base_word variations).
Proof. reflexivity. Qed.

Lemma first_candidate_accepted (ms : list member) :
  Forall (fun m => m_pwd m = None) ms ->
  let z := archive_of ms in
  (forall self,
      let out := Iteration1.dictionary_attack (Opens z) None self in
      fst out = Iteration1.Returns (Some "password")
      /\ Iteration1.attempts (snd out) = 1)
  /\ (forall c cs self,
        let out := Iteration1.dictionary_attack (Opens z) (Some (c :: cs)) self in
        fst out = Iteration1.Returns (Some c)
        /\ Iteration1.attempts (snd out) = 1)
  /\ (forall max_length self,
        (1 <= max_length)%Z ->
        let out := Iteration1.brute_force_numeric (Opens z) max_length self in
        fst out = Iteration1.Returns (Some "0")
        /\ Iteration1.attempts (snd out) = 1)
  /\ (forall base_word variations self,
        let out :=
          Iteration1.pattern_based_attack (Opens z) base_word variations self in
        fst out = Iteration1.Returns (Some base_word)
        /\ Iteration1.attempts (snd out) = 1)
  /\ (forall c cs self,
        let out := Iteration2.try_passwords (Opens z) (c :: cs) self in
        fst out = (Some c, Some (Iteration2.layer_count self))
        /\ Iteration2.tried (snd out) = (Iteration2.tried self ++ [c])%list).
Proof.
  intros Hms z. subst z.
  assert (Hacc : forall p, accepts (archive_of ms) p)
    by (intros p; now apply unencrypted_accepts).
  split; [|split; [|split; [|split]]].
  - intros self out. subst out. rewrite dictionary_attack_default.
    pose proof (dictionary_attack_hit (archive_of ms) []
                  (List.tl Iteration1.common_passwords) "password" self
                  (Forall_nil _) (Hacc _)) as H.
    cbv zeta in H.
    change ([] ++ "password" :: List.tl Iteration1.common_passwords)%list
      with Iteration1.common_passwords in H.
    destruct H as [H1 [H2 _]]. split; [exact H1|exact H2].
  - intros c cs self out. subst out.
    pose proof (dictionary_attack_hit (archive_of ms) [] cs c self
                  (Forall_nil _) (Hacc _)) as H.
    cbv zeta in H. change ([] ++ c :: cs)%list with (c :: cs) in H.
    destruct H as [H1 [H2 _]]. split; [exact H1|exact H2].
  - intros max_length self Hmax out. subst out.
    assert (H10 : 0 < 10 ^ 1) by (simpl; lia).
    pose proof (brute_force_hit (archive_of ms) max_length 1 0 self
                  (le_n 1) Hmax H10 (Forall_nil _) (Hacc _)) as H.
    cbv zeta in H. change (decimal 1 0) with "0" in H.
    change (numerals_upto (1 - 1) + 0 + 1) with 1 in H.
    destruct H as [H1 [H2 _]]. split; [exact H1|exact H2].
  - intros base_word variations self out. subst out.
    unfold Iteration1.pattern_based_attack.
    rewrite patterns_head.
    pose proof (dictionary_attack_hit (archive_of ms) []
                  (List.tl (Iteration1.patterns base_word variations)) base_word self
                  (Forall_nil _) (Hacc _)) as H.
    cbv zeta in H.
    change ([] ++ base_word :: List.tl (Iteration1.patterns base_word variations))%list
      with (base_word :: List.tl (Iteration1.patterns base_word variations)) in H.
    destruct H as [H1 [H2 _]]. split; [exact H1|exact H2].
  - intros c cs self out. subst out.
    pose proof (try_passwords_hit (archive_of ms) [] cs c self
                  (Forall_nil _) (Hacc _)) as H.
    cbv zeta in H. change ([] ++ c :: cs)%list with (c :: cs) in H.
    change ([] ++ [c])%list with [c] in H.
    destruct H as [H1 [H2 _]]. split; [exact H1|exact H2].
Qed.

End Unencrypted.

(** X6.  On an archive none of whose entries is encrypted every
    password is accepted, so every attack reports its first candidate
    as the password after one attempt: the first common password
    "password" for the default dictionary, the head of a supplied word
    list, "0" for the numeric brute force, the base word for the
    pattern attack, and the head of the candidates for
    [try_passwords]. *)
Theorem unencrypted_archive_first_candidate (ms : list member) :
  Forall (fun m => m_pwd m = None) ms ->
  let z := archive_of ms in
  (forall self,
      let out := Iteration1.dictionary_attack (Opens z) None self in
      fst out = Iteration1.Returns (Some "password")
      /\ Iteration1.attempts (snd out) = 1)
  /\ (forall c cs self,
        let out := Iteration1.dictionary_attack (Opens z) (Some (c :: cs)) self in
        fst out = Iteration1.Returns (Some c)
        /\ Iteration1.attempts (snd out) = 1)
  /\ (forall max_length self,
        (1 <= max_length)%Z ->
        let out := Iteration1.brute_force_numeric (Opens z) max_length self in
        fst out = Iteration1.Returns (Some "0")
        /\ Iteration1.attempts (snd out) = 1)
  /\ (forall base_word variations self,
        let out :=
          Iteration1.pattern_based_attack (Opens z) base_word variations self in
        fst out = Iteration1.Returns (Some base_word)
        /\ Iteration1.attempts (snd out) = 1)
  /\ (forall c cs self,
        let out := Iteration2.try_passwords (Opens z) (c :: cs) self in
        fst out = (Some c, Some (Iteration2.layer_count self))
        /\ Iteration2.tried (snd out) = (Iteration2.tried self ++ [c])%list).
Proof. exact (first_candidate_accepted ms). Qed.

Lemma unencrypted_archive_first_candidate_witness :
  Forall (fun m => m_pwd m = None)
         [Member "secret.txt" (Text "Congratulations!") None]
  /\ (let out :=
        Iteration1.dictionary_attack (Opens sample_zip) None Iteration1.fresh in
      fst out = Iteration1.Returns (Some "password")
      /\ Iteration1.attempts (snd out) = 1)
  /\ (let out :=
        Iteration1.brute_force_numeric (Opens sample_zip) 3 Iteration1.fresh in
      fst out = Iteration1.Returns (Some "0")
      /\ Iteration1.attempts (snd out) = 1).
Proof.
  assert (H : Forall (fun m => m_pwd m = None)
                     [Member "secret.txt" (Text "Congratulations!") None])
    by (repeat constructor).
  split; [exact H|].
  destruct (unencrypted_archive_first_candidate _ H) as [H1 [_ [H3 _]]].
  split; [exact (H1 Iteration1.fresh)|].
  apply (H3 3%Z Iteration1.fresh). lia.
Defined.

(** ** The walk over extracted files *)

Section Walk.
Import Iteration2.

Lemma process_files_zip_last (pre post : directory) (zf : entry)
  (self : cracker) :
  suffix (fst zf) = ".zip" ->
  process_files (pre ++ zf :: post)%list self
  = process_files (pre ++ [zf])%list self.
Proof.
  intros Hz. revert self.
  induction pre as [|[file_path data] pre IH]; intros self.
  - destruct zf as [path data]; simpl in *. rewrite Hz. reflexivity.
  - simpl. destruct (String.eqb (suffix file_path) ".txt").
    + destruct data; apply IH.
    + destruct (String.eqb (suffix file_path) ".zip"); [reflexivity|apply IH].
Qed.

Lemma process_files_finds (pre : directory) (zf : entry) (self : cracker) :
  suffix (fst zf) = ".zip" ->
  fst (process_files (pre ++ [zf])%list self) <> None
  /\ (Forall (fun f => suffix (fst f) <> ".zip") pre ->
      fst (process_files (pre ++ [zf])%list self) = Some (fst zf)).
Proof.
  intros Hz. revert self.
  induction pre as [|[file_path data] pre IH]; intros self.
  - destruct zf as [path data]; simpl in *. rewrite Hz. simpl.
    split; [discriminate|reflexivity].
  - simpl. destruct (String.eqb (suffix file_path) ".txt") eqn:Ht.
    + destruct data;
        match goal with |- context [process_files _ ?s] =>
          destruct (IH s) as [H1 H2] end;
        (split; [exact H1|]); intros Hall; apply H2;
        now inversion Hall.
    + destruct (String.eqb (suffix file_path) ".zip") eqn:Hzip.
      * simpl. split; [discriminate|]. intros Hall.
        inversion Hall as [|? ? Hn _]; subst. simpl in Hn.
        apply String.eqb_eq in Hzip. contradiction.
      * destruct (IH (print (FoundFile (name file_path)) self)) as [H1 H2].
        split; [exact H1|]. intros Hall. apply H2. now inversion Hall.
Qed.

Lemma process_files_stops (pre post : directory) (zf : entry)
  (self : cracker) :
  suffix (fst zf) = ".zip" ->
  let out := process_files (pre ++ zf :: post)%list self in
  out = process_files (pre ++ [zf])%list self
  /\ fst out <> None
  /\ (Forall (fun f => suffix (fst f) <> ".zip") pre ->
      fst out = Some (fst zf)).
Proof.
  intros Hz out. subst out. rewrite (process_files_zip_last pre post zf self Hz).
  split; [reflexivity|]. exact (process_files_finds pre zf self Hz).
Qed.

Lemma scan_text_hints (content : string) (self : cracker) :
  exists hints,
    extracted_hints (scan_text content self)
    = (extracted_hints self ++ hints)%list.
Proof.
  destruct (erase_fields (scan_text content self)
                         (with_hint content (erase self))) as [_ [H _]].
  { rewrite scan_text_erase. unfold with_hint.
    destruct (hint_section content); reflexivity. }
  rewrite H. unfold with_hint.
  destruct (hint_section content) as [section|]; simpl.
  - now exists [section].
  - exists []. now rewrite app_nil_r.
Qed.

Lemma process_files_hints (files : directory) (self : cracker) :
  exists hints,
    extracted_hints (snd (process_files files self))
    = (extracted_hints self ++ hints)%list.
Proof.
  revert self; induction files as [|[file_path data] files IH]; intros self.
  - exists []. simpl. now rewrite app_nil_r.
  - simpl. destruct (String.eqb (suffix file_path) ".txt").
    + destruct data as [content| |z].
      * destruct (IH (scan_text content
                        (print (FoundFile (name file_path)) self)))
          as [hs Hs].
        destruct (scan_text_hints content
                    (print (FoundFile (name file_path)) self)) as [h Hh].
        exists (h ++ hs)%list. rewrite Hs, Hh. simpl. now rewrite app_assoc.
      * apply (IH (print (ReadError file_path)
                     (print (FoundFile (name file_path)) self))).
      * apply (IH (print (ReadError file_path)
                     (print (FoundFile (name file_path)) self))).
    + destruct (String.eqb (suffix file_path) ".zip").
      * exists []. simpl. now rewrite app_nil_r.
      * apply (IH (print (FoundFile (name file_path)) self)).
Qed.

End Walk.

(** X7.  [process_extracted_content] returns at the first [.zip] file
    of its walk: the files that come after it in the directory are
    neither read nor scanned, so the outcome and the state are those of
    the walk cut after that file, the result is never [None], and it is
    that file when no earlier file has the suffix [.zip]. *)
Theorem walk_stops_at_first_archive (extract_dir : nat)
  (pre post : Iteration2.directory) (path : string) (data : content)
  (self : Iteration2.cracker) :
  Iteration2.listing extract_dir (Iteration2.disk self)
  = (pre ++ (path, data) :: post)%list ->
  Iteration2.suffix path = ".zip" ->
  let out := Iteration2.process_extracted_content extract_dir self in
  out = Iteration2.process_files (pre ++ [(path, data)])%list self
  /\ fst out <> None
  /\ (Forall (fun f => Iteration2.suffix (fst f) <> ".zip") pre ->
      fst out = Some path).
Proof.
  intros Hl Hz out. subst out. unfold Iteration2.process_extracted_content.
  rewrite Hl. exact (process_files_stops pre post (path, data) self Hz).
Qed.

Lemma walk_stops_at_first_archive_witness :
  let self :=
    Iteration2.fresh
      [(0, [ ("deeper.zip", Zip layer2_zip);
             ("welcome.txt", Text "HINT FOR LAYER 2: firstname+year") ])] in
  let out := Iteration2.process_extracted_content 0 self in
  Iteration2.suffix "deeper.zip" = ".zip"
  /\ out = Iteration2.process_files [("deeper.zip", Zip layer2_zip)] self
  /\ fst out = Some "deeper.zip"
  /\ Iteration2.extracted_hints (snd out) = [].
Proof.
  cbv zeta. split; [reflexivity|].
  destruct (walk_stops_at_first_archive 0 []
              [("welcome.txt", Text "HINT FOR LAYER 2: firstname+year")]
              "deeper.zip" (Zip layer2_zip)
              (Iteration2.fresh
                 [(0, [ ("deeper.zip", Zip layer2_zip);
                        ("welcome.txt",
                         Text "HINT FOR LAYER 2: firstname+year") ])])
              eq_refl eq_refl) as [H1 [_ H3]].
  split; [exact H1|]. split; [exact (H3 (Forall_nil _))|]. reflexivity.
Defined.

(** ** The traversal of nested archives *)

Section Traversal.
Import Iteration2.
#[local] Arguments Nat.modulo : simpl never.

Lemma try_loop_frame (z : archive) (total : nat) (candidates : list string) :
  forall (i : nat) (self : cracker),
    let r := try_loop z total i candidates self in
    layer_count (snd r) = layer_count self
    /\ password_history (snd r) = password_history self
    /\ (exists hints,
           extracted_hints (snd r) = (extracted_hints self ++ hints)%list)
    /\ (forall p d, fst r = (Some p, d) ->
                    In p candidates /\ d = Some (layer_count self)).
Proof.
  induction candidates as [|password rest IH]; intros i self r; subst r; simpl.
  - split; [reflexivity|]. split; [reflexivity|]. split.
    + exists []. now rewrite app_nil_r.
    + intros p d H. discriminate H.
  - destruct (extractall z password) as [written [e|]].
    + destruct (wrong_password e).
      * match goal with |- context [try_loop z total (S i) rest ?s] =>
          destruct (IH (S i) s) as [H1 [H2 [[hs H3] H4]]];
          assert (Hk : layer_count s = layer_count self)
            by (destruct (Nat.eqb (i mod 50) 0); reflexivity);
          assert (Hp : password_history s = password_history self)
            by (destruct (Nat.eqb (i mod 50) 0); reflexivity);
          assert (Hh : extracted_hints s = extracted_hints self)
            by (destruct (Nat.eqb (i mod 50) 0); reflexivity)
        end.
        rewrite H1, H2, H3, Hk, Hp, Hh.
        split; [reflexivity|]. split; [reflexivity|]. split.
        { now exists hs. }
        intros p d Hr. destruct (H4 p d Hr) as [Hin Hd].
        split; [now right|]. now rewrite Hd, Hk.
      * simpl. split; [reflexivity|]. split; [reflexivity|]. split.
        { exists []. now rewrite app_nil_r. }
        intros p d H. discriminate H.
    + unfold process_extracted_content.
      match goal with |- context [process_files ?f ?s] =>
        destruct (process_files_frame f s) as [F1 [F2 _]];
        destruct (process_files_hints f s) as [hs Hh];
        destruct (process_files f s) as [found out] end.
      simpl in *. rewrite F1, F2, Hh.
      split; [reflexivity|]. split; [reflexivity|]. split.
      { now exists hs. }
      intros p d H. injection H as <- <-. split; [now left|reflexivity].
Qed.

(** What one layer may change. *)
Lemma layer_frame (zip_path : target) (layer_num : nat) (hint_text : string)
  (self : cracker) :
  let r := intelligent_crack_layer zip_path layer_num hint_text self in
  layer_count (snd r) = layer_count self
  /\ password_history (snd r) = password_history self
  /\ (exists hints,
         extracted_hints (snd r) = (extracted_hints self ++ hints)%list)
  /\ (exists more, tried (snd r) = (tried self ++ more)%list)
  /\ (forall k, k <> layer_count self ->
                lookup_dir k (disk (snd r)) = lookup_dir k (disk self))
  /\ (forall p d, fst r = (Some p, d) ->
                  In p (layer_candidates layer_num)
                  /\ d = Some (layer_count self)).
Proof.
  intros r. subst r. unfold intelligent_crack_layer.
  match goal with |- context [try_passwords zip_path _ ?s] =>
    set (s0 := s);
    destruct (erase_fields s0 self (hint_scan_erase hint_text self))
      as [E1 [E2 [E3 [E4 E5]]]]
  end.
  unfold try_passwords. destruct zip_path as [|e|z].
  - simpl. rewrite E1, E2, E3, E4, E5.
    split; [reflexivity|]. split; [reflexivity|]. split.
    { exists []. now rewrite app_nil_r. }
    split. { exists []. now rewrite app_nil_r. }
    split; [reflexivity|]. intros p d H; discriminate H.
  - simpl. rewrite E1, E2, E3, E4, E5.
    split; [reflexivity|]. split; [reflexivity|]. split.
    { exists []. now rewrite app_nil_r. }
    split. { exists []. now rewrite app_nil_r. }
    split; [reflexivity|]. intros p d H; discriminate H.
  - match goal with |- context [try_loop z ?t 1 ?c ?s] =>
      destruct (try_loop_frame z t c 1 s) as [F1 [F2 [[hs F3] F4]]];
      destruct (try_loop_disk z t c 1 s) as [_ [[att [rst [_ [D2 _]]]] [_ [_ D5]]]]
    end.
    simpl in F1, F2, F3, F4, D2, D5.
    rewrite F1, F2, F3, D2, E1, E2, E3, E4.
    split; [reflexivity|]. split; [reflexivity|]. split.
    { now exists hs. }
    split. { now exists att. }
    split.
    { intros k Hk. rewrite D5; [now rewrite E5|]. now rewrite E1. }
    intros p d H. destruct (F4 p d H) as [Hin Hd].
    split; [exact Hin|]. now rewrite Hd, E1.
Qed.

Lemma crack_loop_invariants (fuel : nat) :
  forall (current_zip : target) (layer : nat) (self out : cracker),
    crack_loop fuel current_zip layer self = Some out ->
    (exists added,
        password_history out = (password_history self ++ added)%list
        /\ history_from layer added
        /\ layer_count self <= layer_count out
        /\ layer_count out <= layer_count self + List.length added)
    /\ (exists hints,
           extracted_hints out = (extracted_hints self ++ hints)%list)
    /\ (exists more, tried out = (tried self ++ more)%list)
    /\ (forall k, k < layer_count self \/ layer_count out < k ->
                  lookup_dir k (disk out) = lookup_dir k (disk self)).
Proof.
  induction fuel as [|fuel IH]; intros current_zip layer self out H;
    [discriminate H|].
  assert (Hstop : forall s : cracker,
             layer_count s = layer_count self ->
             password_history s = password_history self ->
             (exists hints,
                 extracted_hints s = (extracted_hints self ++ hints)%list) ->
             (exists more, tried s = (tried self ++ more)%list) ->
             (forall k, k <> layer_count self ->
                        lookup_dir k (disk s) = lookup_dir k (disk self)) ->
             (exists added,
                 password_history s = (password_history self ++ added)%list
                 /\ history_from layer added
                 /\ layer_count self <= layer_count s
                 /\ layer_count s <= layer_count self + List.length added)
             /\ (exists hints,
                    extracted_hints s = (extracted_hints self ++ hints)%list)
             /\ (exists more, tried s = (tried self ++ more)%list)
             /\ (forall k, k < layer_count self \/ layer_count s < k ->
                           lookup_dir k (disk s) = lookup_dir k (disk self))).
  { intros s S1 S2 S3 S4 S5. split.
    { exists []. rewrite app_nil_r, S1. simpl. repeat split; auto; lia. }
    split; [exact S3|]. split; [exact S4|].
    intros k Hk. apply S5. lia. }
  assert (Hround :
    current_zip <> Missing ->
    let s0 := print (LayerChallenge layer) self in
    let r := intelligent_crack_layer current_zip layer (latest_hint s0) s0 in
    (if falsy (fst (fst r)) then Some (print (LayerFailed layer) (snd r))
     else
       let s2 :=
         match fst (fst r) with
         | Some p => append_history layer p (snd r)
         | None => snd r
         end in
       match
         match snd (fst r) with
         | Some k => first_zip (listing k (disk s2))
         | None => None
         end
       with
       | Some (file_path, data) =>
           crack_loop fuel (target_of_content data) (S layer)
             (next_layer_count (print (NextLayer (name file_path)) s2))
       | None => Some (print FinalLayer s2)
       end) = Some out).
  { intros Hm s0 r. subst r s0. simpl in H.
    destruct current_zip as [|e|z]; [contradiction| |];
      match type of H with context [intelligent_crack_layer ?t ?l ?h ?s] =>
        destruct (intelligent_crack_layer t l h s) as [[password extract_dir] s1]
      end; exact H. }
  destruct current_zip as [|e|z] eqn:Hz.
  { simpl in H. injection H as <-. apply Hstop; auto.
    - exists []. now rewrite app_nil_r.
    - exists []. now rewrite app_nil_r. }
  all: rewrite <- Hz in *; clear H;
    assert (Hm : current_zip <> Missing) by (rewrite Hz; discriminate);
    specialize (Hround Hm); cbv zeta in Hround;
    destruct (layer_frame current_zip layer
                (latest_hint (print (LayerChallenge layer) self))
                (print (LayerChallenge layer) self))
      as [L1 [L2 [[hs L3] [[more L4] [L5 L6]]]]];
    destruct (intelligent_crack_layer current_zip layer
                (latest_hint (print (LayerChallenge layer) self))
                (print (LayerChallenge layer) self))
      as [[password extract_dir] s1];
    simpl in L1, L2, L3, L4, L5, L6, Hround;
    destruct (falsy password) eqn:Hf;
    [ injection Hround as <-; apply Hstop; simpl; eauto
    | destruct password as [p|]; [|discriminate Hf];
      destruct (L6 p extract_dir eq_refl) as [Hin ->];
      assert (Hp : p <> "") by (intros ->; discriminate Hf);
      destruct (first_zip
                  (listing (layer_count self)
                     (disk (append_history layer p s1))))
        as [[file_path data]|];
      [ apply IH in Hround; simpl in Hround;
        destruct Hround as [[added [A1 [A2 [A3 A4]]]] [[hs' B] [[more' C] D]]];
        rewrite L1 in A3, A4, D;
        split;
        [ exists ((layer, p) :: added);
          rewrite A1, L2, <- app_assoc; simpl;
          repeat split; auto; lia
        | split;
          [ exists (hs ++ hs')%list; now rewrite B, L3, app_assoc
          | split;
            [ exists (more ++ more')%list; now rewrite C, L4, app_assoc
            | intros k Hk; rewrite D; [apply L5; lia | lia] ] ] ]
      | injection Hround as <-; split;
        [ exists [(layer, p)]; simpl; rewrite L1, L2;
          repeat split; auto; lia
        | split;
          [ exists hs; exact L3
          | split;
            [ exists more; exact L4
            | intros k Hk; simpl in Hk |- *; rewrite L1 in Hk;
              apply L5; lia ] ] ] ] ].
Qed.

End Traversal.

(** X8.  When [crack_multi_layer_zip] ends, the password history is
    the one it started with followed by one entry per cracked layer:
    the layer numbers are 1, 2, 3, ... without a gap, and each recorded
    password is a non-empty candidate of the generator chosen for its
    layer.  Hints and tried passwords are only ever appended, the layer
    counter grows by at most one per recorded password, and the last
    thing printed is the summary of the final history and hints. *)
Theorem traversal_history (fuel : nat) (zip_path : target)
  (self out : Iteration2.cracker) :
  Iteration2.crack_multi_layer_zip fuel zip_path self = Some out ->
  exists added hints more,
    Iteration2.password_history out
    = (Iteration2.password_history self ++ added)%list
    /\ history_from 1 added
    /\ Iteration2.extracted_hints out
       = (Iteration2.extracted_hints self ++ hints)%list
    /\ Iteration2.tried out = (Iteration2.tried self ++ more)%list
    /\ Iteration2.layer_count self <= Iteration2.layer_count out
    /\ Iteration2.layer_count out
       <= Iteration2.layer_count self + List.length added
    /\ last (Iteration2.printed out) (Iteration2.LayerChallenge 0)
       = Iteration2.Summary
           (List.length (Iteration2.password_history out))
           (List.length (Iteration2.extracted_hints out))
           (Iteration2.password_history out).
Proof.
  unfold Iteration2.crack_multi_layer_zip. intros H.
  destruct (Iteration2.crack_loop fuel zip_path 1 self) as [s|] eqn:Hs;
    [|discriminate H].
  injection H as <-.
  destruct (crack_loop_invariants fuel zip_path 1 self s Hs)
    as [[added [A1 [A2 [A3 A4]]]] [[hints B] [[more C] _]]].
  exists added, hints, more. simpl.
  repeat (split; [assumption|]). apply last_last.
Qed.

Lemma traversal_history_witness :
  let run :=
    Iteration2.crack_multi_layer_zip 4 (Opens layer1_zip)
      (Iteration2.fresh []) in
  let out :=
    match run with Some out => out | None => Iteration2.fresh [] end in
  run = Some out
  /\ Iteration2.password_history out
     = [(1, "start123"); (2, "albert1921"); (3, "parisau49!")]
  /\ Iteration2.layer_count out = 2
  /\ exists added hints more : list _,
       Iteration2.password_history out = added
       /\ history_from 1 added
       /\ Iteration2.extracted_hints out = hints
       /\ Iteration2.tried out = more
       /\ Iteration2.layer_count out <= List.length added.
Proof.
  intros run out.
  assert (Hrun : run = Some out) by (vm_compute; reflexivity).
  split; [exact Hrun|].
  split; [vm_compute; reflexivity|]. split; [vm_compute; reflexivity|].
  destruct (traversal_history 4 (Opens layer1_zip) (Iteration2.fresh []) out
              Hrun) as [added [hints [more [A1 [A2 [A3 [A4 [_ [A6 _]]]]]]]]].
  exists added, hints, more.
  repeat (split; [assumption|]). exact A6.
Defined.

(** X9.  A run of the loop of [crack_multi_layer_zip] writes only to
    the extraction directories numbered from the layer counter it
    starts with to the layer counter it ends with: every other
    directory, in particular that of each layer already cracked, is
    left as it was. *)
Theorem traversal_directories (fuel : nat) (current_zip : target)
  (layer : nat) (self out : Iteration2.cracker) :
  Iteration2.crack_loop fuel current_zip layer self = Some out ->
  forall k,
    k < Iteration2.layer_count self \/ Iteration2.layer_count out < k ->
    Iteration2.lookup_dir k (Iteration2.disk out)
    = Iteration2.lookup_dir k (Iteration2.disk self).
Proof.
  intros H.
  exact (proj2 (proj2 (proj2
           (crack_loop_invariants fuel current_zip layer self out H)))).
Qed.

Lemma traversal_directories_witness :
  let self :=
    Iteration2.next_layer_count
      (Iteration2.fresh [(0, [("welcome.txt", Text "kept")])]) in
  let run := Iteration2.crack_loop 3 (Opens layer2_zip) 2 self in
  let out := match run with Some out => out | None => self end in
  run = Some out
  /\ Iteration2.layer_count self = 1
  /\ Iteration2.layer_count out = 2
  /\ Iteration2.lookup_dir 0 (Iteration2.disk out)
     = Some [("welcome.txt", Text "kept")]
  /\ Iteration2.lookup_dir 3 (Iteration2.disk out) = None.
Proof.
  intros self run out.
  assert (Hrun : run = Some out) by (vm_compute; reflexivity).
  assert (Hout : Iteration2.layer_count out = 2) by (vm_compute; reflexivity).
  split; [exact Hrun|]. split; [reflexivity|]. split; [exact Hout|].
  split.
  - apply (traversal_directories 3 (Opens layer2_zip) 2 self out Hrun 0).
    left. simpl. lia.
  - apply (traversal_directories 3 (Opens layer2_zip) 2 self out Hrun 3).
    right. rewrite Hout. lia.
Defined.

(** ** The strength analyzer *)

Section Strength.
Import Iteration1.

Lemma fold_penalize (password : string) (pats : list string) :
  forall (score : Z) (feedback : list string),
    fold_left (penalize password) pats (score, feedback)
    = ((score
        - Z.of_nat
            (List.length
               (filter
                  (fun pattern =>
                     PyStr.contains (PyStr.lower pattern)
                                    (PyStr.lower password)) pats)))%Z,
       (feedback
        ++ List.map (fun pattern => ("Avoid common pattern: " ++ pattern)%string)
             (filter
                (fun pattern =>
                   PyStr.contains (PyStr.lower pattern)
                                  (PyStr.lower password)) pats))%list).
Proof.
  induction pats as [|pattern pats IH]; intros score feedback.
  - simpl. now rewrite Z.sub_0_r, app_nil_r.
  - cbn [fold_left filter]. unfold penalize at 2.
    destruct (PyStr.contains (PyStr.lower pattern) (PyStr.lower password)).
    + rewrite IH. cbn [List.length List.map]. rewrite <- app_assoc. f_equal. lia.
    + apply IH.
Qed.

Lemma digit_only (c : ascii) :
  PyStr.is_digit c = true ->
  PyStr.is_lower c = false /\ PyStr.is_upper c = false /\ special c = false.
Proof.
  destruct c as [[] [] [] [] [] [] [] []]; vm_compute; intros H;
    (discriminate H || auto).
Qed.

Lemma any_digits (test : ascii -> bool) (password : string) :
  (forall c, PyStr.is_digit c = true -> test c = false) ->
  all_digits password -> any test password = false.
Proof.
  unfold all_digits, any. intros Ht H.
  induction H as [|c l Hc Hl IH]; simpl; [reflexivity|].
  now rewrite (Ht c Hc), IH.
Qed.

End Strength.

(** X10.  The score of [analyze_password] lies between -5 and 7; the
    verdict is Strong from 6 on, Medium for 4 and 5 and Weak below 4;
    a Strong password has at least 6 characters and one of the special
    characters; a password that gets no recommendation is Strong, and
    one with the full score 7 gets none.  The score is a base between
    0 and 7 minus one point per common pattern found, and the
    recommendations end with one line per pattern found, in the order
    of the pattern list. *)
Theorem analyze_password_score (password : string) :
  let '(score, verdict, feedback) := Iteration1.analyze_password password in
  (-5 <= score <= 7)%Z
  /\ (verdict = Iteration1.Strong <-> (6 <= score)%Z)
  /\ (verdict = Iteration1.Medium <-> (4 <= score <= 5)%Z)
  /\ (verdict = Iteration1.Weak <-> (score < 4)%Z)
  /\ (verdict = Iteration1.Strong ->
      6 <= String.length password
      /\ Iteration1.any Iteration1.special password = true)
  /\ (feedback = [] -> verdict = Iteration1.Strong)
  /\ (score = 7%Z -> feedback = [])
  /\ (exists base advice,
         score = (base - Z.of_nat (List.length (flagged password)))%Z
         /\ (0 <= base <= 7)%Z
         /\ feedback
            = (advice
               ++ List.map
                    (fun pattern => ("Avoid common pattern: " ++ pattern)%string)
                    (flagged password))%list).
Proof.
  unfold Iteration1.analyze_password, Iteration1.variety.
  cbv beta iota zeta.
  assert (Hn : List.length (flagged password) <= 5)
    by apply (filter_length_le _ Iteration1.common_patterns).
  destruct (Nat.leb_spec 8 (String.length password)) as [H8|H8];
    [|destruct (Nat.leb_spec 6 (String.length password)) as [H6|H6]];
    destruct (Iteration1.any PyStr.is_lower password),
             (Iteration1.any PyStr.is_upper password),
             (Iteration1.any PyStr.is_digit password),
             (Iteration1.any Iteration1.special password);
    cbv beta iota zeta; rewrite fold_penalize; fold (flagged password);
    (split; [lia|]);
    match goal with |- context [Z.leb 6 ?s] =>
      destruct (Z.leb_spec 6 s); [|destruct (Z.leb_spec 4 s)] end;
    (split; [split; [intros; lia || discriminate | intros; reflexivity || lia]|]);
    (split; [split; [intros; lia || discriminate | intros; reflexivity || lia]|]);
    (split; [split; [intros; lia || discriminate | intros; reflexivity || lia]|]);
    (split;
     [intros; first [split; [lia|reflexivity] | discriminate | lia]|]);
    (split;
     [ destruct (flagged password) as [|h t];
       cbn [List.length List.map List.app] in *;
       intros Hx; first [reflexivity | discriminate Hx | lia] |]);
    (split;
     [ destruct (flagged password) as [|h t];
       cbn [List.length List.map List.app] in *;
       intros Hx; first [reflexivity | lia]
     | eexists; eexists; split; [reflexivity|]; split; [lia|reflexivity] ]).
Qed.

(** X11.  A password made of digits only is never rated better than
    Weak by [analyze_password]: its score is at most 3.  This holds for
    every password that [brute_force_numeric] can generate. *)
Theorem digit_passwords_are_weak (password : string) :
  all_digits password ->
  let '(score, verdict, feedback) := Iteration1.analyze_password password in
  (score <= 3)%Z /\ verdict = Iteration1.Weak
  /\ In "Add lowercase letters" feedback
  /\ In "Add uppercase letters" feedback
  /\ In "Add special characters" feedback.
Proof.
  intros Hd.
  unfold Iteration1.analyze_password, Iteration1.variety.
  cbv beta iota zeta.
  rewrite (any_digits PyStr.is_lower password
             (fun c H => proj1 (digit_only c H)) Hd).
  rewrite (any_digits PyStr.is_upper password
             (fun c H => proj1 (proj2 (digit_only c H))) Hd).
  rewrite (any_digits Iteration1.special password
             (fun c H => proj2 (proj2 (digit_only c H))) Hd).
  destruct (Nat.leb 8 (String.length password));
    [|destruct (Nat.leb 6 (String.length password))];
    destruct (Iteration1.any PyStr.is_digit password);
    cbv beta iota zeta; rewrite fold_penalize;
    match goal with |- context [Z.leb 6 ?s] =>
      destruct (Z.leb_spec 6 s); [lia|destruct (Z.leb_spec 4 s); [lia|]] end;
    (split; [lia|]); (split; [reflexivity|]);
    repeat split; apply in_or_app; left; simpl; auto 10.
Qed.

Lemma digit_passwords_are_weak_witness :
  all_digits "20242024"
  /\ In "20242024" (Iteration1.numeric_candidates 8)
  /\ (let '(score, verdict, feedback) :=
        Iteration1.analyze_password "20242024" in
      (score <= 3)%Z /\ verdict = Iteration1.Weak
      /\ In "Add lowercase letters" feedback
      /\ In "Add uppercase letters" feedback
      /\ In "Add special characters" feedback)
  /\ Iteration1.analyze_password "20242024"
     = (3%Z, Iteration1.Weak,
        [ "Add lowercase letters"; "Add uppercase letters";
          "Add special characters" ]).
Proof.
  assert (Hd : all_digits "20242024") by (repeat constructor).
  split; [exact Hd|]. split.
  - apply in_numeric_candidates. split; [simpl; lia|]. split; [simpl; lia|].
    exact Hd.
  - split; [exact (digit_passwords_are_weak "20242024" Hd)|].
    vm_compute. reflexivity.
Defined.

(** ** Repeated candidates of the pattern attack *)

Section PatternRepeats.
Import Iteration1.

Lemma replace_without (old new : ascii) (s : string) :
  PyStr.contains (String old EmptyString) s = false ->
  PyStr.replace old new s = s.
Proof.
  unfold PyStr.replace. induction s as [|c s IH]; intros H; [reflexivity|].
  simpl in H. apply orb_false_iff in H as [Hc Hs].
  rewrite andb_true_r in Hc. simpl.
  rewrite Ascii.eqb_sym, Hc. f_equal. apply IH.
  destruct s; simpl in *; exact Hs.
Qed.

Lemma patterns_repeat (base_word : string) :
  PyStr.lower base_word = base_word
  \/ PyStr.contains "a" base_word = false
  \/ PyStr.contains "o" base_word = false
  \/ PyStr.contains "e" base_word = false
  \/ PyStr.contains "i" base_word = false ->
  2 <= count_occ string_dec (patterns base_word true) base_word.
Proof.
  intros H. unfold patterns. cbn [List.app].
  rewrite count_occ_cons_eq by reflexivity. apply le_n_S.
  apply (proj1 (count_occ_In string_dec _ base_word)).
  assert (Hin : forall x l, x = base_word -> In x l -> In base_word l)
    by (intros x l ->; auto).
  destruct H as [H|[H|[H|[H|H]]]].
  - apply (Hin _ _ H). simpl. auto 20.
  - apply (Hin _ _ (replace_without "a" "@" base_word H)). simpl. auto 20.
  - apply (Hin _ _ (replace_without "o" "0" base_word H)). simpl. auto 20.
  - apply (Hin _ _ (replace_without "e" "3" base_word H)). simpl. auto 20.
  - apply (Hin _ _ (replace_without "i" "1" base_word H)). simpl. auto 20.
Qed.

End PatternRepeats.

(** X12.  [pattern_based_attack] does not remove repeated candidates:
    with variations it always hands 16 passwords to the archive when
    none is accepted, and the base word itself is among them at least
    twice whenever it is already in lower case or lacks one of the
    letters a, o, e, i that the leetspeak variants replace. *)
Theorem pattern_attack_repeats_candidates (z : archive) (base_word : string)
  (self : Iteration1.cracker) :
  Forall (rejects z) (Iteration1.patterns base_word true) ->
  let out :=
    Iteration1.pattern_based_attack (Opens z) base_word true self in
  fst out = Iteration1.Returns None
  /\ Iteration1.attempts (snd out) = 16
  /\ Iteration1.tried (snd out)
     = (Iteration1.tried self ++ Iteration1.patterns base_word true)%list
  /\ (PyStr.lower base_word = base_word
      \/ PyStr.contains "a" base_word = false
      \/ PyStr.contains "o" base_word = false
      \/ PyStr.contains "e" base_word = false
      \/ PyStr.contains "i" base_word = false ->
      2 <= count_occ string_dec (Iteration1.patterns base_word true)
             base_word).
Proof.
  intros Hrej out. subst out. unfold Iteration1.pattern_based_attack.
  rewrite (patterns_head base_word true) in Hrej |- * at 1.
  destruct (dictionary_attack_exhausted z base_word
              (List.tl (Iteration1.patterns base_word true)) self Hrej)
    as [H1 [H2 [H3 _]]].
  split; [exact H1|]. split; [exact H2|]. split; [exact H3|].
  apply patterns_repeat.
Qed.

Lemma pattern_attack_repeats_candidates_witness :
  Forall (rejects locked_zip) (Iteration1.patterns "admin" true)
  /\ (let out :=
        Iteration1.pattern_based_attack (Opens locked_zip) "admin" true
          Iteration1.fresh in
      fst out = Iteration1.Returns None
      /\ Iteration1.attempts (snd out) = 16
      /\ 2 <= count_occ string_dec (Iteration1.tried (snd out)) "admin").
Proof.
  assert (Hrej : Forall (rejects locked_zip) (Iteration1.patterns "admin" true)).
  { repeat constructor; exists RuntimeError; split; reflexivity. }
  split; [exact Hrej|].
  destruct (pattern_attack_repeats_candidates locked_zip "admin"
              Iteration1.fresh Hrej) as [H1 [H2 [H3 H4]]].
  split; [exact H1|]. split; [exact H2|].
  rewrite H3. apply H4. left. reflexivity.
Defined.

(** ** The interactive session *)

Section Session.
Import Iteration1.

Lemma finish_returns (level : nat) (shown : list report)
  (attack : outcome (option string) * cracker) (result : option string) :
  fst attack = Returns result ->
  fst (finish level shown attack) = (shown ++ completed level result)%list
  /\ snd (finish level shown attack) = snd attack.
Proof.
  destruct attack as [o c]. simpl. intros ->. split; reflexivity.
Qed.

Lemma finish_dictionary (level : nat) (shown : report)
  (ms : list member) (self : cracker) :
  Forall (fun m => m_pwd m = None) ms ->
  fst (finish level [shown]
         (dictionary_attack (Opens (archive_of ms)) None self))
  = [shown; LevelCompleted level "password"]
  /\ tried (snd (finish level [shown]
                   (dictionary_attack (Opens (archive_of ms)) None self)))
     = (tried self ++ ["password"])%list.
Proof.
  intros Hms. rewrite dictionary_attack_default.
  pose proof (dictionary_attack_hit (archive_of ms) []
                (List.tl common_passwords) "password" self
                (Forall_nil _) (unencrypted_accepts ms _ Hms)) as H.
  cbv zeta in H.
  change ([] ++ "password" :: List.tl common_passwords)%list
    with common_passwords in H.
  destruct H as [H1 [_ Ht]].
  destruct (finish_returns level [shown] _ _ H1) as [F1 F2].
  rewrite F1, F2, Ht. split; reflexivity.
Qed.

Lemma finish_pattern (level : nat) (shown : report)
  (ms : list member) (base_word : string) (self : cracker) :
  Forall (fun m => m_pwd m = None) ms ->
  fst (finish level [shown]
         (pattern_based_attack (Opens (archive_of ms)) base_word true self))
  = shown :: completed level (Some base_word)
  /\ tried (snd (finish level [shown]
                   (pattern_based_attack (Opens (archive_of ms)) base_word
                      true self)))
     = (tried self ++ [base_word])%list.
Proof.
  intros Hms. unfold pattern_based_attack.
  rewrite (patterns_head base_word true).
  pose proof (dictionary_attack_hit (archive_of ms) []
                (List.tl (patterns base_word true)) base_word self
                (Forall_nil _) (unencrypted_accepts ms _ Hms)) as H.
  cbv zeta in H.
  change ([] ++ base_word :: List.tl (patterns base_word true))%list
    with (base_word :: List.tl (patterns base_word true)) in H.
  destruct H as [H1 [_ Ht]].
  destruct (finish_returns level [shown] _ _ H1) as [F1 F2].
  rewrite F1, F2, Ht. split; reflexivity.
Qed.

Lemma finish_numeric (level : nat) (shown : report)
  (ms : list member) (max_length : Z) (self : cracker) :
  (1 <= max_length)%Z ->
  Forall (fun m => m_pwd m = None) ms ->
  fst (finish level [shown]
         (brute_force_numeric (Opens (archive_of ms)) max_length self))
  = [shown; LevelCompleted level "0"]
  /\ tried (snd (finish level [shown]
                   (brute_force_numeric (Opens (archive_of ms)) max_length
                      self)))
     = (tried self ++ ["0"])%list.
Proof.
  intros Hmax Hms.
  assert (H10 : 0 < 10 ^ 1) by (simpl; lia).
  pose proof (brute_force_hit (archive_of ms) max_length 1 0 self
                (le_n 1) Hmax H10 (Forall_nil _)
                (unencrypted_accepts ms _ Hms)) as H.
  cbv zeta in H. change (decimal 1 0) with "0" in H.
  change (numerals_before 1 0) with (@nil string) in H.
  destruct H as [H1 [_ Ht]].
  destruct (finish_returns level [shown] _ _ H1) as [F1 F2].
  rewrite F1, F2, Ht. split; reflexivity.
Qed.

End Session.

(** X13.  In [interactive_cracking_session] every level is "solved" by
    the first candidate of the attack chosen, because the archives of
    [create_sample_zip_files] are not encrypted: level 1 reports
    "password" (not the announced 123456), level 2 reports the very
    word the user typed, and level 3 reports "password", "0" or the
    typed word according to the strategy.  A level is reported as
    completed only when that candidate is a non-empty string, and in
    level 3 an answer other than 1, 2 or 3 ends the session in its
    error branch without any attempt. *)
Theorem session_reports_first_candidate (lookup : string -> target)
  (choice : string) (typed : list string) :
  let session := Iteration1.interactive_cracking_session lookup in
  let shown := Iteration1.Analysis (Iteration1.FileCount 1) in
  (PyStr.strip choice = "1" ->
   fst (session (choice :: typed))
   = [shown; Iteration1.LevelCompleted 1 "password"]
   /\ Iteration1.tried (snd (session (choice :: typed))) = ["password"])
  /\ (PyStr.strip choice = "2" ->
      forall word,
        fst (session (choice :: word :: typed))
        = shown :: (if String.eqb (PyStr.strip word) ""
                    then []
                    else [Iteration1.LevelCompleted 2 (PyStr.strip word)])
        /\ Iteration1.tried (snd (session (choice :: word :: typed)))
           = [PyStr.strip word])
  /\ (PyStr.strip choice = "3" ->
      forall strategy,
        (PyStr.strip strategy = "1" ->
         fst (session (choice :: strategy :: typed))
         = [shown; Iteration1.LevelCompleted 3 "password"])
        /\ (PyStr.strip strategy = "2" ->
            fst (session (choice :: strategy :: typed))
            = [shown; Iteration1.LevelCompleted 3 "0"])
        /\ (PyStr.strip strategy = "3" ->
            forall word,
              fst (session (choice :: strategy :: word :: typed))
              = shown :: (if String.eqb (PyStr.strip word) ""
                          then []
                          else [Iteration1.LevelCompleted 3
                                  (PyStr.strip word)]))
        /\ (PyStr.strip strategy <> "1" -> PyStr.strip strategy <> "2" ->
            PyStr.strip strategy <> "3" ->
            fst (session (choice :: strategy :: typed))
            = [shown; Iteration1.SessionError]
            /\ Iteration1.tried (snd (session (choice :: strategy :: typed)))
               = [])).
Proof.
  intros session shown. subst session shown.
  assert (Hu : forall n c,
             Forall (fun m => m_pwd m = None) [Member n (Text c) None])
    by (intros; repeat constructor).
  assert (Hc : forall level w,
             Iteration1.completed level (Some w)
             = if String.eqb w "" then []
               else [Iteration1.LevelCompleted level w])
    by (intros level [|c w]; reflexivity).
  assert (H13 : (1 <= 3)%Z) by lia.
  unfold Iteration1.interactive_cracking_session. cbv zeta.
  cbn [nth Iteration1.create_sample_zip_files Iteration1.analyze_zip_file
       filelist archive_of List.length].
  split; [|split].
  - intros ->. cbn [String.eqb Ascii.eqb Bool.eqb].
    exact (finish_dictionary 1 (Iteration1.Analysis (Iteration1.FileCount 1))
             [Member "secret.txt" (Text Iteration1.easy_content) None] Iteration1.fresh (Hu _ _)).
  - intros -> word. cbn [String.eqb Ascii.eqb Bool.eqb].
    rewrite <- Hc.
    exact (finish_pattern 2 (Iteration1.Analysis (Iteration1.FileCount 1))
             [Member "message.txt" (Text Iteration1.medium_content) None] (PyStr.strip word) Iteration1.fresh (Hu _ _)).
  - intros -> strategy. cbn [String.eqb Ascii.eqb Bool.eqb].
    split; [|split; [|split]].
    + intros ->. cbn [String.eqb Ascii.eqb Bool.eqb].
      exact (proj1 (finish_dictionary 3 (Iteration1.Analysis (Iteration1.FileCount 1))
                      [Member "final.txt" (Text Iteration1.hard_content) None] Iteration1.fresh (Hu _ _))).
    + intros ->. cbn [String.eqb Ascii.eqb Bool.eqb].
      exact (proj1 (finish_numeric 3 (Iteration1.Analysis (Iteration1.FileCount 1))
                      [Member "final.txt" (Text Iteration1.hard_content) None] 3%Z Iteration1.fresh H13 (Hu _ _))).
    + intros -> word. cbn [String.eqb Ascii.eqb Bool.eqb].
      rewrite <- Hc.
      exact (proj1 (finish_pattern 3 (Iteration1.Analysis (Iteration1.FileCount 1))
                      [Member "final.txt" (Text Iteration1.hard_content) None] (PyStr.strip word) Iteration1.fresh (Hu _ _))).
    + intros H1 H2 H3.
      apply String.eqb_neq in H1, H2, H3. rewrite H1, H2, H3.
      split; reflexivity.
Qed.

(** ** The traversal ends *)

Section Termination.
Import Iteration2.
#[local] Arguments Nat.modulo : simpl never.

(** Archives nest finitely. *)
Lemma inner_wf : forall z, Acc inner z.
Proof.
  fix IH 1. intros [n f]. constructor. intros z' [pwd [path Hin]].
  unfold extractall in Hin. destruct (f pwd) as [l e]. simpl in Hin.
  induction l as [|[n0 c] l IHl]; [contradiction|].
  destruct Hin as [Heq|Hin]; [|exact (IHl Hin)].
  destruct c as [s| |z0]; try discriminate Heq.
  injection Heq as _ <-. apply IH.
Qed.

Lemma write_file_origin (e : entry) (files : directory) (x : entry) :
  In x (write_file e files) -> x = e \/ In x files.
Proof.
  induction files as [|f files IH]; simpl.
  - intros [<-|[]]. now left.
  - destruct (String.eqb (fst f) (fst e)); simpl.
    + intros [<-|H]; auto.
    + intros [<-|H]; auto. destruct (IH H); auto.
Qed.

Lemma write_files_origin (written : list entry) (files : directory)
  (x : entry) :
  In x (write_files written files) -> In x written \/ In x files.
Proof.
  unfold write_files. revert files.
  induction written as [|e written IH]; intros files; simpl; [auto|].
  intros H. destruct (IH _ H) as [H'|H']; [auto|].
  destruct (write_file_origin _ _ _ H'); auto.
Qed.

Lemma after_round_origin (k : nat) (written : list entry)
  (d : list (nat * directory)) (x : entry) :
  In x (listing k (after_round k written d)) ->
  In x written \/ In x (listing k d).
Proof.
  unfold after_round. rewrite listing_extract_into, listing_mkdir.
  apply write_files_origin.
Qed.

(** Every file in the layer's directory after the attempt loop was
    there before or was written by one of the [extractall] calls. *)
Lemma try_loop_origin (z : archive) (total : nat) (candidates : list string) :
  forall (i : nat) (self : cracker) (x : entry),
    In x (listing (layer_count self)
                  (disk (snd (try_loop z total i candidates self)))) ->
    In x (listing (layer_count self) (disk self))
    \/ exists p, In x (fst (extractall z p)).
Proof.
  induction candidates as [|password rest IH]; intros i self x; simpl;
    [auto|].
  destruct (extractall z password) as [written raised] eqn:Hx.
  fold (after_round (layer_count self) written (disk self)).
  assert (Ho : In x (listing (layer_count self)
                       (after_round (layer_count self) written (disk self))) ->
               In x (listing (layer_count self) (disk self))
               \/ exists p, In x (fst (extractall z p))).
  { intros H. destruct (after_round_origin _ _ _ _ H) as [H'|H']; [|auto].
    right. exists password. now rewrite Hx. }
  destruct raised as [e|].
  - destruct (wrong_password e); [|exact Ho].
    match goal with |- context [try_loop z total (S i) rest ?s] =>
      assert (Hk : layer_count s = layer_count self)
        by (destruct (Nat.eqb (i mod 50) 0); reflexivity);
      assert (Hd : disk s
                   = after_round (layer_count self) written (disk self))
        by (destruct (Nat.eqb (i mod 50) 0); reflexivity);
      specialize (IH (S i) s x)
    end.
    rewrite Hk, Hd in IH. intros H. destruct (IH H) as [H'|H']; auto.
  - unfold process_extracted_content.
    match goal with |- context [process_files ?f ?s] =>
      destruct (process_files_frame f s) as [_ [_ [_ [Hpd _]]]];
      destruct (process_files f s) as [found out] end.
    simpl in *. rewrite Hpd. exact Ho.
Qed.

Lemma layer_origin (zip_path : target) (layer_num : nat) (hint_text : string)
  (self : cracker) (x : entry) :
  In x (listing (layer_count self)
          (disk (snd (intelligent_crack_layer zip_path layer_num hint_text
                        self)))) ->
  In x (listing (layer_count self) (disk self))
  \/ exists z p, zip_path = Opens z /\ In x (fst (extractall z p)).
Proof.
  unfold intelligent_crack_layer.
  match goal with |- context [try_passwords zip_path _ ?s] =>
    set (s0 := s);
    destruct (erase_fields s0 self (hint_scan_erase hint_text self))
      as [E1 [_ [_ [_ E5]]]]
  end.
  unfold try_passwords. destruct zip_path as [|e|z]; simpl.
  - rewrite E5. auto.
  - rewrite E5. auto.
  - intros H.
    match type of H with context [try_loop z ?t 1 ?c ?s] =>
      pose proof (try_loop_origin z t c 1 s x) as Ho end.
    simpl in Ho. rewrite E1, E5 in Ho. destruct (Ho H) as [H'|[p H']]; auto.
    right. now exists z, p.
Qed.

Lemma first_zip_in (files : directory) (f : entry) :
  first_zip files = Some f -> In f files.
Proof.
  induction files as [|g files IH]; simpl; [discriminate|].
  destruct (glob_zip (fst g)).
  - intros H. injection H as <-. now left.
  - intros H. right. now apply IH.
Qed.

(** One round of the loop either ends it or hands over to the next
    layer, whose archive was found in the layer's directory. *)
Lemma round_cases (current_zip : target) (layer : nat) (self : cracker) :
  (exists out, forall fuel,
      crack_loop (S fuel) current_zip layer self = Some out)
  \/ (exists path data next,
         (forall fuel,
             crack_loop (S fuel) current_zip layer self
             = crack_loop fuel (target_of_content data) (S layer) next)
         /\ layer_count next = S (layer_count self)
         /\ (forall k, k <> layer_count self ->
                       lookup_dir k (disk next) = lookup_dir k (disk self))
         /\ (In (path, data) (listing (layer_count self) (disk self))
             \/ exists z p, current_zip = Opens z
                            /\ In (path, data) (fst (extractall z p)))).
Proof.
  destruct current_zip as [|e|z] eqn:Hz.
  { left. exists self. reflexivity. }
  all: rewrite <- Hz;
    assert (Hm : current_zip <> Missing) by (rewrite Hz; discriminate);
    assert (Hstep : forall fuel,
      crack_loop (S fuel) current_zip layer self
      = let s0 := print (LayerChallenge layer) self in
        let r := intelligent_crack_layer current_zip layer (latest_hint s0) s0 in
        if falsy (fst (fst r)) then Some (print (LayerFailed layer) (snd r))
        else
          let s2 :=
            match fst (fst r) with
            | Some p => append_history layer p (snd r)
            | None => snd r
            end in
          match
            match snd (fst r) with
            | Some k => first_zip (listing k (disk s2))
            | None => None
            end
          with
          | Some (file_path, data) =>
              crack_loop fuel (target_of_content data) (S layer)
                (next_layer_count (print (NextLayer (name file_path)) s2))
          | None => Some (print FinalLayer s2)
          end)
      by (intros fuel; cbv zeta; simpl;
          destruct current_zip; [contradiction| |];
          match goal with |- context [intelligent_crack_layer ?t ?l ?h ?s] =>
            destruct (intelligent_crack_layer t l h s)
              as [[password extract_dir] s1]
          end; reflexivity);
    cbv zeta in Hstep;
    destruct (layer_frame current_zip layer
                (latest_hint (print (LayerChallenge layer) self))
                (print (LayerChallenge layer) self))
      as [L1 [_ [_ [_ [L5 L6]]]]];
    pose proof (layer_origin current_zip layer
                  (latest_hint (print (LayerChallenge layer) self))
                  (print (LayerChallenge layer) self)) as Lo;
    destruct (intelligent_crack_layer current_zip layer
                (latest_hint (print (LayerChallenge layer) self))
                (print (LayerChallenge layer) self))
      as [[password extract_dir] s1];
    simpl in L1, L5, L6, Lo, Hstep;
    destruct (falsy password) eqn:Hf;
    [ left; eexists; exact Hstep
    | destruct password as [p|]; [|discriminate Hf];
      destruct (L6 p extract_dir eq_refl) as [_ ->];
      destruct (first_zip
                  (listing (layer_count self)
                     (disk (append_history layer p s1))))
        as [[file_path data]|] eqn:Hfz;
      [ right; exists file_path, data;
        eexists; split; [exact Hstep|];
        split; [simpl; now rewrite L1|];
        split; [exact L5|];
        apply first_zip_in in Hfz; simpl in Hfz; exact (Lo _ Hfz)
      | left; eexists; exact Hstep ] ].
Qed.

Lemma ends_in_stop (current_zip : target) (layer : nat) (self out : cracker) :
  (forall fuel, crack_loop (S fuel) current_zip layer self = Some out) ->
  ends_in current_zip layer self out.
Proof.
  intros H. exists 1. intros [|fuel'] Hle; [lia|apply H].
Qed.

Lemma ends_in_next (current_zip next_zip : target) (layer : nat)
  (self next out : cracker) :
  (forall fuel, crack_loop (S fuel) current_zip layer self
                = crack_loop fuel next_zip (S layer) next) ->
  ends_in next_zip (S layer) next out ->
  ends_in current_zip layer self out.
Proof.
  intros H [fuel Hf]. exists (S fuel). intros [|fuel'] Hle; [lia|].
  rewrite H. apply Hf. lia.
Qed.

(** With no directory left over for this layer or a later one, the
    loop ends because archives nest finitely. *)
Lemma ends_clean (z : archive) :
  forall (layer : nat) (self : cracker),
    (forall k, layer_count self <= k -> lookup_dir k (disk self) = None) ->
    exists out, ends_in (Opens z) layer self out.
Proof.
  induction (inner_wf z) as [z _ IH]. intros layer self Hclean.
  destruct (round_cases (Opens z) layer self)
    as [[out Hout]|[path [data [next [Hstep [Hk [Hd Ho]]]]]]].
  { exists out. now apply ends_in_stop. }
  assert (Hnone : listing (layer_count self) (disk self) = [])
    by (unfold listing; now rewrite Hclean).
  rewrite Hnone in Ho. destruct Ho as [[]|[z0 [p [Hz0 Hin]]]].
  injection Hz0 as <-.
  assert (Hnext : forall k, layer_count next <= k ->
                            lookup_dir k (disk next) = None).
  { intros k Hle. rewrite Hd by lia. apply Hclean. lia. }
  destruct data as [s| |z'].
  - destruct (round_cases (OpenRaises BadZipFile) (S layer) next)
      as [[out Hout]|[path' [data' [next' [_ [_ [_ Ho']]]]]]].
    + exists out. eapply ends_in_next; [exact Hstep|].
      now apply ends_in_stop.
    + unfold listing in Ho'. rewrite Hnext in Ho' by lia.
      destruct Ho' as [[]|[z1 [_ [Hz1 _]]]]. discriminate Hz1.
  - destruct (round_cases (OpenRaises BadZipFile) (S layer) next)
      as [[out Hout]|[path' [data' [next' [_ [_ [_ Ho']]]]]]].
    + exists out. eapply ends_in_next; [exact Hstep|].
      now apply ends_in_stop.
    + unfold listing in Ho'. rewrite Hnext in Ho' by lia.
      destruct Ho' as [[]|[z1 [_ [Hz1 _]]]]. discriminate Hz1.
  - destruct (IH z' (ex_intro _ p (ex_intro _ path Hin)) (S layer) next Hnext)
      as [out Hout].
    exists out. eapply ends_in_next; [exact Hstep|exact Hout].
Qed.

Lemma disk_bound (d : list (nat * directory)) :
  exists b, forall k, b <= k -> lookup_dir k d = None.
Proof.
  induction d as [|[k' files] d [b Hb]].
  - exists 0. reflexivity.
  - exists (Nat.max b (S k')). intros k Hk. simpl.
    destruct (Nat.eqb_spec k k'); [lia|]. apply Hb. lia.
Qed.

Lemma ends_from (n : nat) :
  forall (current_zip : target) (layer : nat) (self : cracker) (b : nat),
    (forall k, b <= k -> lookup_dir k (disk self) = None) ->
    b <= layer_count self + n ->
    exists out, ends_in current_zip layer self out.
Proof.
  induction n as [|n IH]; intros current_zip layer self b Hb Hn.
  - assert (Hclean : forall k, layer_count self <= k ->
                               lookup_dir k (disk self) = None)
      by (intros k Hk; apply Hb; lia).
    destruct current_zip as [|e|z].
    + exists self. apply ends_in_stop. reflexivity.
    + destruct (round_cases (OpenRaises e) layer self)
        as [[out Hout]|[path [data [next [_ [_ [_ Ho]]]]]]].
      * exists out. now apply ends_in_stop.
      * unfold listing in Ho. rewrite Hclean in Ho by lia.
        destruct Ho as [[]|[z1 [_ [Hz1 _]]]]. discriminate Hz1.
    + now apply ends_clean.
  - destruct (round_cases current_zip layer self)
      as [[out Hout]|[path [data [next [Hstep [Hk [Hd _]]]]]]].
    { exists out. now apply ends_in_stop. }
    destruct (Nat.le_gt_cases b (layer_count self)) as [Hle|Hgt].
    { apply (IH current_zip layer self b Hb). lia. }
    destruct (IH (target_of_content data) (S layer) next b) as [out Hout].
    + intros k Hbk. rewrite Hd by lia. now apply Hb.
    + lia.
    + exists out. eapply ends_in_next; [exact Hstep|exact Hout].
Qed.

Lemma crack_loop_ends (current_zip : target) (layer : nat) (self : cracker) :
  exists out, ends_in current_zip layer self out.
Proof.
  destruct (disk_bound (disk self)) as [b Hb].
  apply (ends_from b current_zip layer self b Hb). lia.
Qed.

End Termination.

(** X14.  [crack_multi_layer_zip] always ends: whatever the path
    points at and whatever the extraction directories already hold,
    the loop over the layers stops after finitely many rounds (archives
    nest finitely, and every round moves on to a directory of its own),
    and the summary is printed for the state it stopped in. *)
Theorem traversal_ends (zip_path : target) (self : Iteration2.cracker) :
  exists fuel out,
    (forall fuel', fuel <= fuel' ->
       Iteration2.crack_multi_layer_zip fuel' zip_path self = Some out)
    /\ last (Iteration2.printed out) (Iteration2.LayerChallenge 0)
       = Iteration2.Summary
           (List.length (Iteration2.password_history out))
           (List.length (Iteration2.extracted_hints out))
           (Iteration2.password_history out).
Proof.
  destruct (crack_loop_ends zip_path 1 self) as [s [fuel Hf]].
  exists fuel, (Iteration2.summary s). split.
  - intros fuel' Hle. unfold Iteration2.crack_multi_layer_zip.
    now rewrite (Hf fuel' Hle).
  - simpl. apply last_last.
Qed.
